(** * Unity export validator: a shallow embedding and its properties

    The development follows the Python add-on module by module:
    [core/severity.py], [core/result.py], [core/base_checker.py],
    [core/registry.py], the checkers under [checkers/], and the validation
    operator of [operators/validate.py].

    Conventions of the embedding.
    - Python [int] is [Z]; [len] and [enumerate] indices are [Z.of_nat].
    - Python [float] is IEEE 754 binary64.  A finite float is the rational
      [Q] it denotes; a float operation of the add-on ([a - b], [a * b],
      [a / b] on [int]s, [round(x, n)]) is the exact operation followed by
      rounding to the nearest double, ties to even ([float_round]), and a
      decimal literal is the double nearest to it.  Comparisons are exact.
      Infinities and NaN are left out.  The components of a
      [mathutils.Vector] are single-precision values ([is_float32]); the
      vector arithmetic the host performs on them (sums, quotients, dot
      products) is kept exact.  String formatting of floats and vector
      normalisation (a square root) are operations of the host, gathered in
      the class [Host]; every theorem holds for any implementation of them.
    - [str] is a string of bytes (UTF-8); case mapping is that of ASCII, so
      statements about [lower] are made for ASCII strings ([is_ascii]).
    - A raised exception is the left injection of [result]; the [try]/[except]
      of the operator is a [match] on it.
    - [dict] literals and the registry are insertion-ordered association
      lists ([dict_setitem] keeps the position of an existing key); the
      custom-property bag of an object, which is only looked up, is a
      [gmap]; the [set] of used material indices is a [gset]. *)

From Stdlib Require Import ZArith QArith Qabs Qround Qpower Lqa String Ascii List DecimalString.
From stdpp Require Import gmap strings list.
Import ListNotations.
Open Scope Z_scope.
Set Warnings "-register-all".

(** ** Python preliminaries *)

(** Exceptions deriving from [Exception], with the text [str(e)] gives. *)
Inductive exn : Type :=
| ValueError (msg : string)
| IndexError (msg : string)
| TypeError (msg : string)
| KeyError (key : string).

Definition str_exn (e : exn) : string :=
  match e with
  | ValueError msg => msg
  | IndexError msg => msg
  | TypeError msg => msg
  | KeyError key => "'" +:+ key +:+ "'"
  end.

(** A computation that returns a value or raises. *)
Definition result (A : Type) : Type := (exn + A)%type.

Definition ret {A : Type} (a : A) : result A := inr a.
Definition raise {A : Type} (e : exn) : result A := inl e.

Definition bind {A B : Type} (m : result A) (k : A -> result B) : result B :=
  match m with
  | inl e => inl e
  | inr a => k a
  end.

Notation "x <-- m ;; k" := (bind m (fun x => k))
  (at level 20, m at level 99, k at level 200, only parsing).

(** [sep.join(parts)] *)
Fixpoint join (sep : string) (parts : list string) : string :=
  match parts with
  | [] => EmptyString
  | [p] => p
  | p :: rest => p +:+ sep +:+ join sep rest
  end.

(** [str(i)] for an [int]. *)
Definition str_int (i : Z) : string := NilZero.string_of_int (Z.to_int i).

(** [len(l)] *)
Definition len {A : Type} (l : list A) : Z := Z.of_nat (length l).

(** [enumerate(l)] *)
Fixpoint enumerate_from {A : Type} (start : Z) (l : list A) : list (Z * A) :=
  match l with
  | [] => []
  | x :: rest => (start, x) :: enumerate_from (start + 1) rest
  end.

Definition enumerate {A : Type} (l : list A) : list (Z * A) := enumerate_from 0 l.

(** [s.lower()] for a string of ASCII characters: the letters [A]-[Z] are
    mapped to [a]-[z] and every other byte is kept.  Python also lowers the
    cased letters outside ASCII, which this embedding does not describe. *)
Definition is_ascii (s : string) : bool :=
  forallb (fun c => Nat.ltb (nat_of_ascii c) 128) (list_ascii_of_string s).

Definition lower_ascii (c : ascii) : ascii :=
  let n := nat_of_ascii c in
  if (Nat.leb 65 n && Nat.leb n 90)%bool then ascii_of_nat (n + 32) else c.

Fixpoint lower (s : string) : string :=
  match s with
  | EmptyString => EmptyString
  | String c rest => String (lower_ascii c) (lower rest)
  end.

(** [s.endswith(suffix)] *)
Definition endswith (s suffix : string) : bool :=
  let n := String.length s in
  let m := String.length suffix in
  (Nat.leb m n && String.eqb (String.substring (n - m) m s) suffix)%bool.

(** [s[:-k]] for [k > 0]. *)
Definition drop_last (k : nat) (s : string) : string :=
  String.substring 0 (String.length s - k) s.

(** [not s] for a string. *)
Definition is_empty (s : string) : bool :=
  match s with
  | EmptyString => true
  | String _ _ => false
  end.

(** Structured values: the entries of a [details] dictionary and the values
    of custom properties. *)
Inductive value : Type :=
| VNone
| VBool (b : bool)
| VInt (i : Z)
| VFloat (x : Q)
| VStr (s : string)
| VList (items : list value)
| VTuple (items : list value).

(** Python truthiness. *)
Definition truthy (v : value) : bool :=
  match v with
  | VNone => false
  | VBool b => b
  | VInt i => negb (i =? 0)
  | VFloat x => negb (Qeq_bool x 0)
  | VStr s => negb (is_empty s)
  | VList items => match items with [] => false | _ => true end
  | VTuple items => match items with [] => false | _ => true end
  end.

(** Insertion-ordered dictionaries. *)
Definition dict (V : Type) : Type := list (string * V).

Fixpoint dict_get {V : Type} (d : dict V) (k : string) : option V :=
  match d with
  | [] => None
  | (k', v) :: rest => if String.eqb k' k then Some v else dict_get rest k
  end.

Definition dict_contains {V : Type} (d : dict V) (k : string) : bool :=
  match dict_get d k with
  | Some _ => true
  | None => false
  end.

(** [d[k] = v]: an existing key keeps its place, a new key goes last. *)
Fixpoint dict_setitem {V : Type} (d : dict V) (k : string) (v : V) : dict V :=
  match d with
  | [] => [(k, v)]
  | (k', v') :: rest =>
      if String.eqb k' k then (k', v) :: rest
      else (k', v') :: dict_setitem rest k v
  end.

(** [del d[k]] for a key that is present. *)
Fixpoint dict_delitem {V : Type} (d : dict V) (k : string) : dict V :=
  match d with
  | [] => []
  | (k', v') :: rest =>
      if String.eqb k' k then rest else (k', v') :: dict_delitem rest k
  end.

Definition dict_keys {V : Type} (d : dict V) : list string := map fst d.
Definition dict_values {V : Type} (d : dict V) : list V := map snd d.

(** ** core/severity.py *)

Inductive Severity : Type := INFO | WARNING | ERROR.

(** The [IntEnum] value given by [auto()]. *)
Definition Severity_value (s : Severity) : Z :=
  match s with
  | INFO => 1
  | WARNING => 2
  | ERROR => 3
  end.

(** [severity.name] *)
Definition Severity_name (s : Severity) : string :=
  match s with
  | INFO => "INFO"
  | WARNING => "WARNING"
  | ERROR => "ERROR"
  end.

Definition Severity_eqb (a b : Severity) : bool :=
  Severity_value a =? Severity_value b.

(** ** core/result.py *)

Record ValidationResult : Type := mkValidationResult {
  checker_name : string;
  severity : Severity;
  object_name : string;
  message : string;
  details : dict value;
  fix_hint : option string
}.

(** The dataclass constructor followed by [__post_init__]. *)
Definition ValidationResult_new (checker_name : string) (severity : Severity)
    (object_name : string) (message : string) (details : dict value)
    (fix_hint : option string) : result ValidationResult :=
  if is_empty checker_name then raise (ValueError "checker_name cannot be empty")
  else if is_empty message then raise (ValueError "message cannot be empty")
  else ret (mkValidationResult checker_name severity object_name message details fix_hint).

Definition is_error (r : ValidationResult) : bool := Severity_eqb (severity r) ERROR.
Definition is_warning (r : ValidationResult) : bool := Severity_eqb (severity r) WARNING.

(** ** The host's objects, as the add-on reads them *)

(** [mathutils.Vector] of three components (also used for [Euler]); the
    host stores each component in single precision. *)
Record Vector : Type := mkVector { vx : Q; vy : Q; vz : Q }.

(** Iterating over a vector yields its components in order. *)
Definition components (v : Vector) : list Q := [vx v; vy v; vz v].

(** [tuple(v)] *)
Definition tuple_of_vector (v : Vector) : value :=
  VTuple (map VFloat (components v)).

Definition vzero : Vector := mkVector 0 0 0.

Definition vadd (a b : Vector) : Vector :=
  mkVector (vx a + vx b) (vy a + vy b) (vz a + vz b).

Definition vsub (a b : Vector) : Vector :=
  mkVector (vx a - vx b) (vy a - vy b) (vz a - vz b).

Definition vdiv (a : Vector) (k : Q) : Vector :=
  mkVector (vx a / k) (vy a / k) (vz a / k).

Definition dot (a b : Vector) : Q :=
  vx a * vx b + vy a * vy b + vz a * vz b.

(** [sum(vs, Vector())] *)
Definition vsum (vs : list Vector) : Vector := fold_left vadd vs vzero.

Record MaterialSlot : Type := mkMaterialSlot {
  slot_name : string;
  material : option string
}.

Record MeshPolygon : Type := mkMeshPolygon {
  loop_total : Z;
  area : Q;
  material_index : Z;
  poly_vertices : list nat;
  normal : Vector
}.

Record Mesh : Type := mkMesh {
  vertices : list Vector;
  polygons : list MeshPolygon
}.

Record Object : Type := mkObject {
  name : string;
  type : string;
  scale : Vector;
  rotation_euler : Vector;
  data : Mesh;
  material_slots : list MaterialSlot;
  custom_properties : gmap string value;
  selected : bool;
  visible : bool
}.

(** [obj.get(key, default)] on the custom properties. *)
Definition obj_get (obj : Object) (key : string) (default : value) : value :=
  match custom_properties obj !! key with
  | Some v => v
  | None => default
  end.

(** Operations of the host that the embedding leaves open: Python's
    [format(x, spec)] and [repr(x)] on floats, and
    [mathutils.Vector.normalized]. *)
Class Host : Type := {
  format_float : string -> Q -> string;
  repr_float : Q -> string;
  normalized : Vector -> Vector
}.

(** ** core/base_checker.py *)

(** A checker class that overrides the abstract method [check], with its
    attributes; [checker_display_name] is the class attribute [name] and
    [class_name] is [__class__.__name__]. *)
Record BaseChecker : Type := mkChecker {
  class_name : string;
  checker_display_name : string;
  description : string;
  default_severity : Severity;
  supported_types : list string;
  supports_exclusion : bool;
  check : Object -> result (list ValidationResult)
}.

(** [BaseChecker.__init__], run on a new instance of the class. *)
Definition BaseChecker_init (cls : BaseChecker) : result BaseChecker :=
  if is_empty (checker_display_name cls) then
    raise (ValueError (class_name cls +:+ " must define 'name'"))
  else if is_empty (description cls) then
    raise (ValueError (class_name cls +:+ " must define 'description'"))
  else ret cls.

(** A subclass of [BaseChecker].  [BaseChecker] is an [ABC] and [check] is
    its abstract method: a subclass that overrides [check] is [Concrete];
    one that does not is [Abstract], and only its [__name__] and the class
    attributes [name] and [description] matter. *)
Inductive CheckerClass : Type :=
| Concrete (cls : BaseChecker)
| Abstract (abstract_class_name abstract_name abstract_description : string).

Coercion Concrete : BaseChecker >-> CheckerClass.

(** [checker_class.__name__] *)
Definition class_name_of (checker_class : CheckerClass) : string :=
  match checker_class with
  | Concrete cls => class_name cls
  | Abstract abstract_class_name _ _ => abstract_class_name
  end.

(** [checker_class()]: a class that still has an abstract method is refused
    with a [TypeError] before [__init__] runs (the text is that of
    Python 3.11). *)
Definition instantiate (checker_class : CheckerClass) : result BaseChecker :=
  match checker_class with
  | Abstract abstract_class_name _ _ =>
      raise (TypeError ("Can't instantiate abstract class " +:+ abstract_class_name
                          +:+ " with abstract method check"))
  | Concrete cls => BaseChecker_init cls
  end.

Definition is_supported (self : BaseChecker) (obj : Object) : bool :=
  existsb (String.eqb (type obj)) (supported_types self).

Definition get_id (self : BaseChecker) : string :=
  let class_name := class_name self in
  let class_name :=
    if endswith class_name "Checker" then drop_last 7 class_name else class_name in
  lower class_name.

Definition is_excluded (self : BaseChecker) (obj : Object) : value :=
  if negb (supports_exclusion self) then VBool false
  else
    let prop_name := "unity_validator_exclude_" +:+ get_id self in
    obj_get obj prop_name (VBool false).

(** [create_result] reads [self.name] and [self.default_severity] only. *)
Definition create_result (self_name : string) (self_default_severity : Severity)
    (obj : Object) (message : string) (severity : option Severity)
    (details : option (dict value)) (fix_hint : option string)
  : result ValidationResult :=
  ValidationResult_new
    self_name
    (match severity with Some s => s | None => self_default_severity end)
    (name obj)
    message
    (match details with Some d => d | None => [] end)
    fix_hint.

(** ** core/registry.py *)

Record CheckerRegistry : Type := mkRegistry {
  _checkers : dict BaseChecker;
  _checker_classes : dict CheckerClass;
  logged : list (string * string)
}.

Definition registry_empty : CheckerRegistry := mkRegistry [] [] [].

Definition register (checker_class : CheckerClass) (cls : CheckerRegistry)
  : result CheckerRegistry :=
  instance <-- instantiate checker_class ;;
  let checker_id := get_id instance in
  let logged1 :=
    if dict_contains (_checkers cls) checker_id then
      logged cls ++ [("WARNING", "Checker '" +:+ checker_id +:+ "' already registered, overwriting")]
    else logged cls in
  ret (mkRegistry
         (dict_setitem (_checkers cls) checker_id instance)
         (dict_setitem (_checker_classes cls) checker_id checker_class)
         (logged1 ++ [("DEBUG", "Registered checker: " +:+ checker_id +:+ " ("
                                 +:+ class_name_of checker_class +:+ ")")])).

Definition unregister (checker_id : string) (cls : CheckerRegistry)
  : bool * CheckerRegistry :=
  if dict_contains (_checkers cls) checker_id then
    (true, mkRegistry (dict_delitem (_checkers cls) checker_id)
                      (dict_delitem (_checker_classes cls) checker_id)
                      (logged cls))
  else (false, cls).

Definition registry_get (checker_id : string) (cls : CheckerRegistry) : option BaseChecker :=
  dict_get (_checkers cls) checker_id.

Definition get_all (cls : CheckerRegistry) : list BaseChecker :=
  dict_values (_checkers cls).

Definition get_ids (cls : CheckerRegistry) : list string :=
  dict_keys (_checkers cls).

Definition clear (cls : CheckerRegistry) : CheckerRegistry :=
  mkRegistry [] [] (logged cls).

Definition count (cls : CheckerRegistry) : Z := len (_checkers cls).

(** ** Helpers shared by the checkers *)

(** [results.append(r)] when the sub-check returned a finding. *)
Definition append_if {A : Type} (results : list A) (r : option A) : list A :=
  match r with
  | Some x => results ++ [x]
  | None => results
  end.

Definition non_empty {A : Type} (l : list A) : bool :=
  match l with
  | [] => false
  | _ :: _ => true
  end.

(** A list comprehension whose element expression may raise. *)
Fixpoint mapM {A B : Type} (f : A -> result B) (l : list A) : result (list B) :=
  match l with
  | [] => ret []
  | x :: rest =>
      y <-- f x ;;
      ys <-- mapM f rest ;;
      ret (y :: ys)
  end.

(** [l[i]] for a non-negative index. *)
Definition getitem {A : Type} (l : list A) (i : Z) : result A :=
  match l !! Z.to_nat i with
  | Some x => ret x
  | None => raise (IndexError "list index out of range")
  end.

(** ** Floats *)

(** [a < b] on floats. *)
Definition Qltb (a b : Q) : bool := negb (Qle_bool b a).

(** The nearest integer, a tie going to the even neighbour. *)
Definition round_half_even (x : Q) : Z :=
  let f := Qfloor x in
  let d := (x - inject_Z f)%Q in
  if Qltb d (1 # 2) then f
  else if Qltb (1 # 2) d then f + 1
  else if Z.even f then f else f + 1.

(** The nearest multiple of [10^-ndigits], a tie going to the even
    neighbour. *)
Definition round_ndigits (x : Q) (ndigits : nat) : Q :=
  let p := inject_Z (10 ^ Z.of_nat ndigits) in
  (inject_Z (round_half_even (x * p)) / p)%Q.

(** The binade of a positive rational: the [e] with [2^e <= q < 2^(e+1)]. *)
Definition binade (q : Q) : Z :=
  let e := Z.log2 (Qnum q) - Z.log2 (Zpos (Qden q)) in
  if Qle_bool (2 ^ e) q then e else e - 1.

(** The exponent of the unit in the last place of [q] in the binary format
    with [prec] digits and least exponent [emin] (subnormals included). *)
Definition ulp_exponent (prec emin : Z) (q : Q) : Z :=
  Z.max (binade (Qabs q) - (prec - 1)) emin.

(** Rounding to the nearest value of the format, ties to even. *)
Definition round_binary (prec emin : Z) (q : Q) : Q :=
  if Qeq_bool q 0 then 0%Q
  else
    let u := ulp_exponent prec emin q in
    (inject_Z (round_half_even (q / 2 ^ u)) * 2 ^ u)%Q.

(** The values of the format are those that rounding leaves unchanged. *)
Definition is_binary (prec emin : Z) (q : Q) : bool :=
  Qeq_bool (round_binary prec emin q) q.

(** binary64, the Python [float]; binary32, the C [float] of [mathutils]. *)
Definition float_round (q : Q) : Q := round_binary 53 (-1074) q.
Definition is_float (q : Q) : bool := is_binary 53 (-1074) q.
Definition is_float32 (q : Q) : bool := is_binary 24 (-149) q.

(** [a - b] and [a * b] on floats; [a / b] on [int]s with [b] non-zero. *)
Definition float_sub (a b : Q) : Q := float_round (a - b).
Definition float_mul (a b : Q) : Q := float_round (a * b).
Definition int_truediv (a b : Z) : Q := float_round (inject_Z a / inject_Z b).

(** [round(x, ndigits)] on a float: the decimal nearest to [x] with
    [ndigits] places, a tie going to the even neighbour, converted back to a
    float. *)
Definition round_float (x : Q) (ndigits : nat) : Q :=
  float_round (round_ndigits x ndigits).

Arguments round_binary : simpl never.
Arguments float_round : simpl never.
Arguments is_float : simpl never.
Arguments is_float32 : simpl never.
Arguments float_sub : simpl never.
Arguments float_mul : simpl never.
Arguments int_truediv : simpl never.
Arguments round_float : simpl never.

(** ** checkers/materials.py *)

Definition MaterialChecker_name : string := "Material".
Definition MaterialChecker_default_severity : Severity := WARNING.

Definition _find_empty_slots (obj : Object) : list Z :=
  fold_left
    (fun empty '(i, slot) =>
       match material slot with
       | None => empty ++ [i]
       | Some _ => empty
       end)
    (enumerate (material_slots obj)) [].

Definition _find_unused_slots (obj : Object) (mesh : Mesh) : list Z :=
  if negb (non_empty (polygons mesh)) then []
  else
    let used_indices : gset Z :=
      fold_left (fun used poly => used ∪ {[ material_index poly ]})
                (polygons mesh) ∅ in
    fold_left
      (fun unused '(i, slot) =>
         match material slot with
         | Some _ => if bool_decide (i ∈ used_indices) then unused else unused ++ [i]
         | None => unused
         end)
      (enumerate (material_slots obj)) [].

Definition MaterialChecker_check (obj : Object) : result (list ValidationResult) :=
  let create := create_result MaterialChecker_name MaterialChecker_default_severity in
  let results := [] in
  if negb (String.eqb (type obj) "MESH") then ret results
  else
    let mesh := data obj in
    if negb (non_empty (material_slots obj)) then
      r <-- create obj "No material slots" (Some ERROR)
              (Some [("slot_count", VInt 0)])
              (Some "Add a material in the Material Properties panel") ;;
      ret (results ++ [r])
    else
      let empty_slots := _find_empty_slots obj in
      results <--
        (if non_empty empty_slots then
           r <-- create obj
                   ("Empty material slot(s): " +:+ join ", " (map str_int empty_slots))
                   (Some WARNING)
                   (Some [("empty_slot_indices", VList (map VInt empty_slots));
                          ("total_slots", VInt (len (material_slots obj)))])
                   (Some "Assign materials to empty slots or remove unused slots") ;;
           ret (results ++ [r])
         else ret results) ;;
      let all_empty :=
        forallb (fun slot => match material slot with None => true | Some _ => false end)
                (material_slots obj) in
      results <--
        (if (all_empty && (0 <? len (material_slots obj)))%bool then
           r <-- create obj "All material slots are empty" (Some ERROR)
                   (Some [("slot_count", VInt (len (material_slots obj)))])
                   (Some "Assign at least one material") ;;
           ret (results ++ [r])
         else ret results) ;;
      let unused_slots := _find_unused_slots obj mesh in
      results <--
        (if non_empty unused_slots then
           slot_names <--
             mapM (fun i =>
                     slot <-- getitem (material_slots obj) i ;;
                     ret (if is_empty (slot_name slot) then "Slot " +:+ str_int i
                          else slot_name slot))
                  unused_slots ;;
           r <-- create obj
                   ("Unused material slot(s): " +:+ join ", " slot_names)
                   (Some INFO)
                   (Some [("unused_slot_indices", VList (map VInt unused_slots));
                          ("unused_slot_names", VList (map VStr slot_names))])
                   (Some "Remove unused material slots or assign them to faces") ;;
           ret (results ++ [r])
         else ret results) ;;
      ret results.

Definition MaterialChecker : BaseChecker :=
  mkChecker "MaterialChecker" MaterialChecker_name
    "Check for missing or improperly assigned materials"
    MaterialChecker_default_severity ["MESH"] true MaterialChecker_check.

(** ** checkers/geometry.py *)

Record GeometryConfig : Type := mkGeometryConfig {
  check_ngons : bool;
  check_small_faces : bool;
  small_face_threshold : Q;
  geometry_max_reported_faces : Z
}.

Definition GeometryConfig_default : GeometryConfig :=
  mkGeometryConfig true true (float_round (1 # 10000)) 10.

Definition GeometryChecker_name : string := "Geometry".
Definition GeometryChecker_default_severity : Severity := WARNING.

(** The first loop of [_check_ngons]; returning early is the [break]. *)
Fixpoint ngon_loop (max_reported_faces : Z) (items : list (Z * MeshPolygon))
    (ngon_indices ngon_vertex_counts : list Z) : list Z * list Z :=
  match items with
  | [] => (ngon_indices, ngon_vertex_counts)
  | (i, poly) :: rest =>
      if 4 <? loop_total poly then
        let ngon_indices := ngon_indices ++ [i] in
        let ngon_vertex_counts := ngon_vertex_counts ++ [loop_total poly] in
        if max_reported_faces <=? len ngon_indices then
          (ngon_indices, ngon_vertex_counts)
        else ngon_loop max_reported_faces rest ngon_indices ngon_vertex_counts
      else ngon_loop max_reported_faces rest ngon_indices ngon_vertex_counts
  end.

(** [sum(1 for x in l if test x)] *)
Definition count_if {A : Type} (test : A -> bool) (l : list A) : Z :=
  fold_left (fun total x => if test x then total + 1 else total) l 0.

Definition _check_ngons (self : GeometryConfig) (obj : Object) (mesh : Mesh)
  : result (option ValidationResult) :=
  let '(ngon_indices, ngon_vertex_counts) :=
    ngon_loop (geometry_max_reported_faces self) (enumerate (polygons mesh)) [] [] in
  if negb (non_empty ngon_indices) then ret None
  else
    let total_ngons := count_if (fun p => 4 <? loop_total p) (polygons mesh) in
    let message :=
      if total_ngons <=? geometry_max_reported_faces self then
        str_int total_ngons +:+ " N-gon(s) found"
      else
        str_int total_ngons +:+ " N-gon(s) found (showing first "
          +:+ str_int (geometry_max_reported_faces self) +:+ ")" in
    r <-- create_result GeometryChecker_name GeometryChecker_default_severity
            obj message (Some WARNING)
            (Some [("total_ngons", VInt total_ngons);
                   ("face_indices", VList (map VInt ngon_indices));
                   ("vertex_counts", VList (map VInt ngon_vertex_counts))])
            (Some "Select N-gons: Edit Mode > Select > All by Trait > Faces by Sides") ;;
    ret (Some r).

(** The first loop of [_check_small_faces]. *)
Fixpoint small_face_loop (threshold : Q) (max_reported_faces : Z)
    (items : list (Z * MeshPolygon))
    (small_face_indices : list Z) (small_face_areas : list Q) : list Z * list Q :=
  match items with
  | [] => (small_face_indices, small_face_areas)
  | (i, poly) :: rest =>
      if Qltb (area poly) threshold then
        let small_face_indices := small_face_indices ++ [i] in
        let small_face_areas := small_face_areas ++ [area poly] in
        if max_reported_faces <=? len small_face_indices then
          (small_face_indices, small_face_areas)
        else small_face_loop threshold max_reported_faces rest
               small_face_indices small_face_areas
      else small_face_loop threshold max_reported_faces rest
             small_face_indices small_face_areas
  end.

Definition _check_small_faces (self : GeometryConfig) (obj : Object) (mesh : Mesh)
  : result (option ValidationResult) :=
  let '(small_face_indices, small_face_areas) :=
    small_face_loop (small_face_threshold self) (geometry_max_reported_faces self)
      (enumerate (polygons mesh)) [] [] in
  if negb (non_empty small_face_indices) then ret None
  else
    let total_small :=
      count_if (fun p => Qltb (area p) (small_face_threshold self)) (polygons mesh) in
    r <-- create_result GeometryChecker_name GeometryChecker_default_severity
            obj (str_int total_small +:+ " extremely small face(s) found") (Some INFO)
            (Some [("total_small_faces", VInt total_small);
                   ("face_indices", VList (map VInt small_face_indices));
                   ("face_areas", VList (map VFloat small_face_areas));
                   ("threshold", VFloat (small_face_threshold self))])
            (Some "Consider merging or dissolving tiny faces") ;;
    ret (Some r).

Definition GeometryChecker_check (self : GeometryConfig) (obj : Object)
  : result (list ValidationResult) :=
  let results := [] in
  if negb (String.eqb (type obj) "MESH") then ret results
  else
    let mesh := data obj in
    results <--
      (if check_ngons self then
         ngon_result <-- _check_ngons self obj mesh ;;
         ret (append_if results ngon_result)
       else ret results) ;;
    results <--
      (if check_small_faces self then
         small_result <-- _check_small_faces self obj mesh ;;
         ret (append_if results small_result)
       else ret results) ;;
    ret results.

Definition GeometryChecker (self : GeometryConfig) : BaseChecker :=
  mkChecker "GeometryChecker" GeometryChecker_name
    "Check for N-gons and problematic geometry"
    GeometryChecker_default_severity ["MESH"] true (GeometryChecker_check self).

Section HostCheckers.
Context `{Host}.

(** ** checkers/transform.py *)

Definition FLOAT_TOLERANCE : Q := float_round (1 # 1000000).

Definition is_nearly_equal (a b tolerance : Q) : bool :=
  Qltb (Qabs (float_sub a b)) tolerance.

Definition is_vector_nearly_equal (vec : Vector) (target : list Q) (tolerance : Q) : bool :=
  forallb (fun '(v, t) => is_nearly_equal v t tolerance)
          (combine (components vec) target).

Record TransformConfig : Type := mkTransformConfig {
  check_scale : bool;
  check_rotation : bool;
  check_negative_scale : bool
}.

Definition TransformConfig_default : TransformConfig :=
  mkTransformConfig true true true.

Definition TransformChecker_name : string := "Transform".
Definition TransformChecker_default_severity : Severity := WARNING.

Definition _check_negative_scale (obj : Object) : result (option ValidationResult) :=
  let scale := scale obj in
  let negative_axes := [] in
  let negative_axes :=
    if Qltb (vx scale) 0 then negative_axes ++ ["X"%string] else negative_axes in
  let negative_axes :=
    if Qltb (vy scale) 0 then negative_axes ++ ["Y"%string] else negative_axes in
  let negative_axes :=
    if Qltb (vz scale) 0 then negative_axes ++ ["Z"%string] else negative_axes in
  if non_empty negative_axes then
    let is_inverted := len negative_axes mod 2 =? 1 in
    r <-- create_result TransformChecker_name TransformChecker_default_severity
            obj ("Negative scale on " +:+ join ", " negative_axes +:+ " axis")
            (Some ERROR)
            (Some [("scale", tuple_of_vector scale);
                   ("negative_axes", VList (map VStr negative_axes));
                   ("normals_inverted", VBool is_inverted)])
            (Some "Apply scale with Ctrl+A > Scale, or use Object > Apply > Scale") ;;
    ret (Some r)
  else ret None.

Definition _check_unapplied_scale (obj : Object) : result (option ValidationResult) :=
  let scale := scale obj in
  if negb (is_vector_nearly_equal scale [1; 1; 1]%Q FLOAT_TOLERANCE) then
    r <-- create_result TransformChecker_name TransformChecker_default_severity
            obj ("Unapplied scale: (" +:+ format_float ".3f" (vx scale) +:+ ", "
                   +:+ format_float ".3f" (vy scale) +:+ ", "
                   +:+ format_float ".3f" (vz scale) +:+ ")")
            (Some WARNING)
            (Some [("scale", tuple_of_vector scale);
                   ("expected", VTuple [VFloat 1; VFloat 1; VFloat 1])])
            (Some "Apply scale with Ctrl+A > Scale") ;;
    ret (Some r)
  else ret None.

Definition _check_unapplied_rotation (obj : Object) : result (option ValidationResult) :=
  let rotation := rotation_euler obj in
  if negb (is_vector_nearly_equal rotation [0; 0; 0]%Q FLOAT_TOLERANCE) then
    let rot_degrees :=
      map (fun r => round_float (float_mul r (float_round (572958 # 10000))) 2)
          (components rotation) in
    d0 <-- getitem rot_degrees 0 ;;
    d1 <-- getitem rot_degrees 1 ;;
    d2 <-- getitem rot_degrees 2 ;;
    r <-- create_result TransformChecker_name TransformChecker_default_severity
            obj ("Unapplied rotation: (" +:+ repr_float d0 +:+ "°, "
                   +:+ repr_float d1 +:+ "°, " +:+ repr_float d2 +:+ "°)")
            (Some INFO)
            (Some [("rotation_euler", tuple_of_vector rotation);
                   ("rotation_degrees", VTuple (map VFloat rot_degrees));
                   ("expected", VTuple [VFloat 0; VFloat 0; VFloat 0])])
            (Some "Apply rotation with Ctrl+A > Rotation (if needed)") ;;
    ret (Some r)
  else ret None.

Definition TransformChecker_check (self : TransformConfig) (obj : Object)
  : result (list ValidationResult) :=
  let results := [] in
  results <--
    (if check_negative_scale self then
       negative_result <-- _check_negative_scale obj ;;
       ret (append_if results negative_result)
     else ret results) ;;
  results <--
    (if check_scale self then
       scale_result <-- _check_unapplied_scale obj ;;
       ret (append_if results scale_result)
     else ret results) ;;
  results <--
    (if check_rotation self then
       rotation_result <-- _check_unapplied_rotation obj ;;
       ret (append_if results rotation_result)
     else ret results) ;;
  ret results.

Definition TransformChecker (self : TransformConfig) : BaseChecker :=
  mkChecker "TransformChecker" TransformChecker_name
    "Check for unapplied transforms and negative scale"
    TransformChecker_default_severity ["MESH"] true (TransformChecker_check self).

(** ** checkers/face_orientation.py *)

(** What [bmesh] holds after [bm.from_mesh(mesh)]: the vertex coordinates,
    and per face its index, the coordinates of its corners and its normal. *)
Record BMFace : Type := mkBMFace {
  face_index : Z;
  face_verts : list Vector;
  face_normal : Vector
}.

Record BMesh : Type := mkBMesh {
  bm_verts : list Vector;
  bm_faces : list BMFace
}.

Definition from_mesh (mesh : Mesh) : BMesh :=
  mkBMesh
    (vertices mesh)
    (map (fun '(i, poly) =>
            mkBMFace i
              (omap (fun k => vertices mesh !! k) (poly_vertices poly))
              (normal poly))
         (enumerate (polygons mesh))).

Definition calc_center_median (face : BMFace) : Vector :=
  vdiv (vsum (face_verts face)) (inject_Z (len (face_verts face))).

(** The test [face.normal.dot(to_center.normalized()) > 0.7]. *)
Definition points_to_center (center : Vector) (face : BMFace) : bool :=
  let face_center := calc_center_median face in
  let to_center := vsub center face_center in
  let dot := dot (face_normal face) (normalized to_center) in
  Qltb (float_round (7 # 10)) dot.

(** The first loop of [_check_inverted_faces]. *)
Fixpoint inverted_loop (max_reported_faces : Z) (center : Vector)
    (faces : list BMFace) (potentially_inverted : list Z) : list Z :=
  match faces with
  | [] => potentially_inverted
  | face :: rest =>
      if points_to_center center face then
        let potentially_inverted := potentially_inverted ++ [face_index face] in
        if max_reported_faces <=? len potentially_inverted then potentially_inverted
        else inverted_loop max_reported_faces center rest potentially_inverted
      else inverted_loop max_reported_faces center rest potentially_inverted
  end.

Definition FaceOrientationChecker_name : string := "Face Orientation".
Definition FaceOrientationChecker_default_severity : Severity := WARNING.
Definition FaceOrientation_max_reported_faces_default : Z := 20.

Definition _check_inverted_faces (max_reported_faces : Z) (obj : Object) (mesh : Mesh)
  : result (option ValidationResult) :=
  let bm := from_mesh mesh in
  if non_empty (bm_verts bm) then
    let center := vdiv (vsum (bm_verts bm)) (inject_Z (len (bm_verts bm))) in
    let potentially_inverted :=
      inverted_loop max_reported_faces center (bm_faces bm) [] in
    if negb (non_empty potentially_inverted) then ret None
    else
      let total_inverted := count_if (points_to_center center) (bm_faces bm) in
      let total_faces := len (bm_faces bm) in
      let inverted_ratio : Q :=
        if 0 <? total_faces then int_truediv total_inverted total_faces
        else 0%Q in
      let create :=
        create_result FaceOrientationChecker_name
          FaceOrientationChecker_default_severity in
      if (Qltb inverted_ratio (float_round (5 # 100)) && (total_inverted <? 5))%bool then
        r <-- create obj
                (str_int total_inverted +:+ " face(s) may have inverted normals")
                (Some INFO)
                (Some [("potentially_inverted_count", VInt total_inverted);
                       ("total_faces", VInt total_faces);
                       ("face_indices", VList (map VInt potentially_inverted));
                       ("inverted_ratio", VFloat (round_float inverted_ratio 3))])
                (Some "Check normals: Viewport Overlays > Face Orientation") ;;
        ret (Some r)
      else
        r <-- create obj
                (str_int total_inverted +:+ " face(s) may have inverted normals ("
                   +:+ format_float ".1%" inverted_ratio +:+ ")")
                (Some WARNING)
                (Some [("potentially_inverted_count", VInt total_inverted);
                       ("total_faces", VInt total_faces);
                       ("face_indices", VList (map VInt potentially_inverted));
                       ("inverted_ratio", VFloat (round_float inverted_ratio 3))])
                (Some "Fix normals: Edit Mode > Mesh > Normals > Recalculate Outside") ;;
        ret (Some r)
  else ret None.

Definition FaceOrientationChecker_check (max_reported_faces : Z) (obj : Object)
  : result (list ValidationResult) :=
  let results := [] in
  if negb (String.eqb (type obj) "MESH") then ret results
  else
    let mesh := data obj in
    if negb (non_empty (polygons mesh)) then ret results
    else
      inverted_result <-- _check_inverted_faces max_reported_faces obj mesh ;;
      ret (append_if results inverted_result).

Definition FaceOrientationChecker (max_reported_faces : Z) : BaseChecker :=
  mkChecker "FaceOrientationChecker" FaceOrientationChecker_name
    "Check for inverted or inconsistent face orientations"
    FaceOrientationChecker_default_severity ["MESH"] true
    (FaceOrientationChecker_check max_reported_faces).

End HostCheckers.

(** ** utils/helpers.py and operators/validate.py *)

(** One entry of [scene.unity_validator_results]. *)
Record ResultItem : Type := mkResultItem {
  item_checker_name : string;
  item_severity : string;
  item_object_name : string;
  item_message : string;
  item_fix_hint : string
}.

(** The part of [bpy] the operator touches, the registry, and the
    operator's reports as [(level, text)] in the order they are made. *)
Record Blender : Type := mkBlender {
  data_objects : list Object;
  selected_objects : list Object;
  registry : CheckerRegistry;
  unity_validator_results : list ResultItem;
  reports : list (string * string)
}.

Inductive OperatorStatus : Type := FINISHED | CANCELLED.

Definition get_mesh_objects (bpy : Blender) (selected_only visible_only : bool)
  : list Object :=
  let source := if selected_only then selected_objects bpy else data_objects bpy in
  fold_left
    (fun objects obj =>
       if negb (String.eqb (type obj) "MESH") then objects
       else if (visible_only && negb (visible obj))%bool then objects
       else objects ++ [obj])
    source [].

Definition report (bpy : Blender) (level text : string) : Blender :=
  mkBlender (data_objects bpy) (selected_objects bpy) (registry bpy)
    (unity_validator_results bpy) (reports bpy ++ [(level, text)]).

(** The state of the double loop: [all_results] and the reports made. *)
Definition loop_state : Type := (list ValidationResult * list (string * string))%type.

(** One iteration of the inner loop, for the pair [(obj, checker)]. *)
Definition run_pair (obj : Object) (st : loop_state) (checker : BaseChecker) : loop_state :=
  let '(all_results, reported) := st in
  if negb (is_supported checker obj) then st
  else if truthy (is_excluded checker obj) then st
  else
    match check checker obj with
    | inr results => (all_results ++ results, reported)
    | inl e =>
        (all_results,
         reported ++ [("WARNING",
                       "Checker '" +:+ checker_display_name checker +:+ "' failed on '"
                         +:+ name obj +:+ "': " +:+ str_exn e)])
    end.

Definition run_object (checkers : list BaseChecker) (st : loop_state) (obj : Object)
  : loop_state :=
  fold_left (run_pair obj) checkers st.

Definition run_all (objects : list Object) (checkers : list BaseChecker)
    (st : loop_state) : loop_state :=
  fold_left (run_object checkers) objects st.

Definition _store_results (bpy : Blender) (results : list ValidationResult) : Blender :=
  let cleared : list ResultItem := [] in
  let items :=
    fold_left
      (fun items result =>
         items ++ [mkResultItem (checker_name result)
                     (Severity_name (severity result))
                     (object_name result)
                     (message result)
                     (match fix_hint result with
                      | Some h => if is_empty h then EmptyString else h
                      | None => EmptyString
                      end)])
      results cleared in
  mkBlender (data_objects bpy) (selected_objects bpy) (registry bpy) items (reports bpy).

Definition summary (all_results : list ValidationResult) : string * string :=
  let error_count := count_if (fun r => Severity_eqb (severity r) ERROR) all_results in
  let warning_count := count_if (fun r => Severity_eqb (severity r) WARNING) all_results in
  let info_count := count_if (fun r => Severity_eqb (severity r) INFO) all_results in
  if 0 <? error_count then
    ("ERROR", "Validation complete: " +:+ str_int error_count +:+ " errors, "
                +:+ str_int warning_count +:+ " warnings, "
                +:+ str_int info_count +:+ " info")
  else if 0 <? warning_count then
    ("WARNING", "Validation complete: " +:+ str_int warning_count +:+ " warnings, "
                  +:+ str_int info_count +:+ " info")
  else if 0 <? info_count then
    ("INFO", "Validation complete: " +:+ str_int info_count +:+ " info items")
  else ("INFO", "Validation complete: No issues found!").

Definition execute (selected_only visible_only : bool) (bpy : Blender)
  : OperatorStatus * Blender :=
  let objects := get_mesh_objects bpy selected_only visible_only in
  if negb (non_empty objects) then
    (CANCELLED, report bpy "WARNING" "No mesh objects to validate")
  else
    let checkers := get_all (registry bpy) in
    if negb (non_empty checkers) then
      (CANCELLED, report bpy "ERROR" "No checkers registered")
    else
      let '(all_results, reported) := run_all objects checkers ([], reports bpy) in
      let bpy :=
        mkBlender (data_objects bpy) (selected_objects bpy) (registry bpy)
          (unity_validator_results bpy) reported in
      let bpy := _store_results bpy all_results in
      let '(level, text) := summary all_results in
      (FINISHED, report bpy level text).

(** ** A host with decimal rendering, for running the checkers

    Floats print as decimals; [normalized] divides by a square root
    taken to twelve decimal places, and maps the zero vector to itself. *)

Fixpoint zeros (n : nat) : string :=
  match n with
  | O => EmptyString
  | S m => "0" +:+ zeros m
  end.

Definition pad_zeros (width : nat) (s : string) : string :=
  zeros (width - String.length s) +:+ s.

Definition format_fixed (digits : nat) (x : Q) : string :=
  let p := 10 ^ Z.of_nat digits in
  let n := round_half_even (x * inject_Z p) in
  let a := Z.abs n in
  (if n <? 0 then "-" else "") +:+ str_int (a / p) +:+ "."
    +:+ pad_zeros digits (str_int (a mod p)).

Definition decimal_format (spec : string) (x : Q) : string :=
  if String.eqb spec ".3f" then format_fixed 3 x
  else if String.eqb spec ".1%" then format_fixed 1 (x * 100) +:+ "%"
  else format_fixed 6 x.

Definition decimal_repr (x : Q) : string :=
  let s := format_fixed 2 x in
  if endswith s "0" then drop_last 1 s else s.

Definition decimal_normalized (v : Vector) : Vector :=
  let len2 := dot v v in
  if Qeq_bool len2 0 then vzero
  else
    let scaled := Qfloor (len2 * inject_Z (10 ^ 24)) in
    vdiv v (inject_Z (Z.sqrt scaled) / inject_Z (10 ^ 12)).

#[global] Instance decimal_host : Host := {
  format_float := decimal_format;
  repr_float := decimal_repr;
  normalized := decimal_normalized
}.


(** ** checkers/uv.py

    The UV checker reads attributes of [obj.data] that [Mesh] does not
    carry.  [UVObject] pairs an object with them: the UV layers, the active
    layer (if any) and the loops of its mesh. *)

Record UVLayer : Type := mkUVLayer {
  uv_name : string;
  uv_data : list (Q * Q)
}.

Record UVObject : Type := mkUVObject {
  uv_obj : Object;
  uv_layers : list UVLayer;
  uv_layers_active : option UVLayer;
  loops : list Z
}.

(** [d[k]] on a dictionary. *)
Definition dict_getitem {V : Type} (d : dict V) (k : string) : result V :=
  match dict_get d k with
  | Some v => ret v
  | None => raise (KeyError k)
  end.

Definition UVChecker_name : string := "UV Map".
Definition UVChecker_default_severity : Severity := ERROR.

Definition _check_uv_validity (mesh : UVObject) : dict value :=
  match uv_layers_active mesh with
  | None => [("is_valid", VBool false); ("reason", VStr "no_active_uv")]
  | Some uv_layer =>
      if negb (non_empty (uv_data uv_layer)) then
        [("is_valid", VBool false); ("reason", VStr "no_uv_data")]
      else
        let expected_loops := len (loops mesh) in
        let actual_loops := len (uv_data uv_layer) in
        if negb (expected_loops =? actual_loops) then
          [("is_valid", VBool false); ("reason", VStr "loop_count_mismatch");
           ("expected", VInt expected_loops); ("actual", VInt actual_loops)]
        else
          [("is_valid", VBool true); ("uv_name", VStr (uv_name uv_layer));
           ("loop_count", VInt actual_loops)]
  end.

Definition _check_uv2 (obj : UVObject) : result (option ValidationResult) :=
  let uv_layers := uv_layers obj in
  if len uv_layers <? 2 then
    r <-- create_result UVChecker_name UVChecker_default_severity (uv_obj obj)
            "No UV2 (lightmap UV) found" (Some INFO)
            (Some [("uv_layer_count", VInt (len uv_layers));
                   ("uv_layer_names", VList (map (fun uv => VStr (uv_name uv)) uv_layers))])
            (Some "Add a second UV map for lightmapping if needed") ;;
    ret (Some r)
  else ret None.

Definition UVChecker_check (check_uv2 : bool) (obj : UVObject)
  : result (list ValidationResult) :=
  let create := create_result UVChecker_name UVChecker_default_severity (uv_obj obj) in
  let results := [] in
  if negb (String.eqb (type (uv_obj obj)) "MESH") then ret results
  else
    if negb (non_empty (uv_layers obj)) then
      r <-- create "No UV map found" (Some ERROR)
              (Some [("uv_layer_count", VInt 0);
                     ("has_polygons", VBool (0 <? len (polygons (data (uv_obj obj)))))])
              (Some "Add a UV map: Edit Mode > UV > Unwrap (U key)") ;;
      ret (results ++ [r])
    else
      let active_uv := uv_layers_active obj in
      results <--
        (match active_uv with
         | None =>
             r <-- create "No active UV map" (Some WARNING)
                     (Some [("uv_layer_count", VInt (len (uv_layers obj)));
                            ("uv_layer_names",
                             VList (map (fun uv => VStr (uv_name uv)) (uv_layers obj)))])
                     (Some "Set an active UV map in Object Data Properties > UV Maps") ;;
             ret (results ++ [r])
         | Some _ => ret results
         end) ;;
      let uv_validity := _check_uv_validity obj in
      is_valid <-- dict_getitem uv_validity "is_valid" ;;
      results <--
        (if negb (truthy is_valid) then
           r <-- create "UV map has incomplete data" (Some WARNING)
                   (Some uv_validity)
                   (Some "Re-unwrap the mesh to regenerate UV data") ;;
           ret (results ++ [r])
         else ret results) ;;
      results <--
        (if check_uv2 then
           uv2_result <-- _check_uv2 obj ;;
           ret (append_if results uv2_result)
         else ret results) ;;
      ret results.

(** ** utils/compat.py and checkers/normals.py

    The normals checker reads, per polygon, only [use_smooth]; of the mesh,
    [use_auto_smooth] (absent from Blender 4.1 on, hence optional) and
    [has_custom_normals]; of the object, its modifiers. *)

Record Modifier : Type := mkModifier {
  mod_type : string;
  node_group : option string
}.

Record ShadedPolygon : Type := mkShadedPolygon { use_smooth : bool }.

Record NormalsObject : Type := mkNormalsObject {
  normals_obj : Object;
  shaded_polygons : list ShadedPolygon;
  use_auto_smooth : option bool;
  has_custom_normals : bool;
  modifiers : list Modifier
}.

(** [bpy.app.version] *)
Definition Version : Type := (Z * Z * Z)%type.

(** [a >= b] on 3-tuples of integers. *)
Definition version_ge (a b : Version) : bool :=
  let '(a0, a1, a2) := a in
  let '(b0, b1, b2) := b in
  if negb (a0 =? b0) then b0 <? a0
  else if negb (a1 =? b1) then b1 <? a1
  else b2 <=? a2.

Definition is_blender_4_1_or_later (version : Version) : bool :=
  version_ge version (4, 1, 0).

Definition has_auto_smooth (version : Version) (mesh : NormalsObject) : bool :=
  if is_blender_4_1_or_later version then has_custom_normals mesh
  else match use_auto_smooth mesh with
       | Some b => b
       | None => false
       end.

(** [needle in s] *)
Fixpoint contains (needle s : string) : bool :=
  if String.prefix needle s then true
  else match s with
       | EmptyString => false
       | String _ rest => contains needle rest
       end.

Record NormalsConfig : Type := mkNormalsConfig {
  check_auto_smooth : bool;
  check_mixed_shading : bool
}.

Definition NormalsConfig_default : NormalsConfig := mkNormalsConfig true true.

Definition NormalsChecker_name : string := "Normals".
Definition NormalsChecker_default_severity : Severity := INFO.

(** The loop of [_has_smooth_by_angle_modifier]: [Some b] is [return b]. *)
Fixpoint _has_smooth_by_angle_modifier (mods : list Modifier) : bool :=
  match mods with
  | [] => false
  | modifier :: rest =>
      if String.eqb (mod_type modifier) "NODES" then
        match node_group modifier with
        | Some group_name =>
            if contains "smooth" (lower group_name) then true
            else _has_smooth_by_angle_modifier rest
        | None => _has_smooth_by_angle_modifier rest
        end
      else _has_smooth_by_angle_modifier rest
  end.

Definition _check_smoothing_legacy (obj : NormalsObject) : result (option ValidationResult) :=
  match use_auto_smooth obj with
  | None => ret None
  | Some use_auto_smooth =>
      if negb use_auto_smooth then
        let has_smooth := existsb use_smooth (shaded_polygons obj) in
        if has_smooth then
          r <-- create_result NormalsChecker_name NormalsChecker_default_severity
                  (normals_obj obj)
                  "Auto Smooth is OFF but object uses smooth shading" (Some INFO)
                  (Some [("use_auto_smooth", VBool false);
                         ("has_smooth_faces", VBool true);
                         ("blender_version", VStr "legacy")])
                  (Some "Enable Auto Smooth: Object > Shade Auto Smooth") ;;
          ret (Some r)
        else ret None
      else ret None
  end.

Definition _check_smoothing_4_1 (obj : NormalsObject) : result (option ValidationResult) :=
  let has_custom := has_custom_normals obj in
  let has_modifier := _has_smooth_by_angle_modifier (modifiers obj) in
  if (negb has_custom && negb has_modifier)%bool then
    let has_smooth := existsb use_smooth (shaded_polygons obj) in
    if has_smooth then
      r <-- create_result NormalsChecker_name NormalsChecker_default_severity
              (normals_obj obj)
              "No custom normals (Auto Smooth not applied)" (Some INFO)
              (Some [("has_custom_normals", VBool false);
                     ("has_smooth_modifier", VBool false);
                     ("has_smooth_faces", VBool true);
                     ("blender_version", VStr "4.1+")])
              (Some "Apply: Object > Shade Auto Smooth, or add Smooth by Angle modifier") ;;
      ret (Some r)
    else ret None
  else ret None.

Definition _check_smoothing (version : Version) (obj : NormalsObject)
  : result (option ValidationResult) :=
  if is_blender_4_1_or_later version then _check_smoothing_4_1 obj
  else _check_smoothing_legacy obj.

Definition _check_mixed_shading (obj : NormalsObject) : result (option ValidationResult) :=
  if negb (non_empty (shaded_polygons obj)) then ret None
  else
    let smooth_count := count_if use_smooth (shaded_polygons obj) in
    let flat_count := len (shaded_polygons obj) - smooth_count in
    if ((0 <? smooth_count) && (0 <? flat_count))%bool then
      let total := len (shaded_polygons obj) in
      let smooth_ratio := int_truediv smooth_count total in
      r <-- create_result NormalsChecker_name NormalsChecker_default_severity
              (normals_obj obj)
              ("Mixed shading: " +:+ str_int smooth_count +:+ " smooth, "
                 +:+ str_int flat_count +:+ " flat faces")
              (Some INFO)
              (Some [("smooth_faces", VInt smooth_count);
                     ("flat_faces", VInt flat_count);
                     ("total_faces", VInt total);
                     ("smooth_ratio", VFloat (round_float smooth_ratio 3))])
              (Some "This may be intentional. To unify: Object > Shade Smooth/Flat") ;;
      ret (Some r)
    else ret None.

Definition NormalsChecker_check (self : NormalsConfig) (version : Version)
    (obj : NormalsObject) : result (list ValidationResult) :=
  let results := [] in
  if negb (String.eqb (type (normals_obj obj)) "MESH") then ret results
  else
    if negb (non_empty (shaded_polygons obj)) then ret results
    else
      results <--
        (if check_auto_smooth self then
           smooth_result <-- _check_smoothing version obj ;;
           ret (append_if results smooth_result)
         else ret results) ;;
      results <--
        (if check_mixed_shading self then
           mixed_result <-- _check_mixed_shading obj ;;
           ret (append_if results mixed_result)
         else ret results) ;;
      ret results.
(** ** Vocabulary of the statements *)

(** A checker class (overriding [check]) that [BaseChecker.__init__]
    accepts. *)
Definition instantiable (cls : BaseChecker) : Prop :=
  is_empty (checker_display_name cls) = false /\ is_empty (description cls) = false.

(** [round(r * 57.2958, 2)], the display value of a rotation component. *)
Definition to_degrees (r : Q) : Q :=
  round_float (float_mul r (float_round (572958 # 10000))) 2.

(** The number of negative components of a scale. *)
Definition negative_axis_count (s : Vector) : Z :=
  count_if (fun c => Qltb c 0) (components s).

(** The capped collection that the three listing loops perform: [f x] is
    appended for each [x] passing [test], and the loop stops as soon as the
    list has reached [max_reported] entries. *)
Fixpoint capped_collect {A B : Type} (test : A -> bool) (f : A -> B)
    (max_reported : Z) (items : list A) (acc : list B) : list B :=
  match items with
  | [] => acc
  | x :: rest =>
      if test x then
        if max_reported <=? len (acc ++ [f x]) then acc ++ [f x]
        else capped_collect test f max_reported rest (acc ++ [f x])
      else capped_collect test f max_reported rest acc
  end.

(** The indices of all polygons that pass [test]. *)
Definition offending_indices (test : MeshPolygon -> bool) (mesh : Mesh) : list Z :=
  map fst (List.filter (fun it => test (snd it)) (enumerate (polygons mesh))).

(** What a truncated listing must look like: no finding when nothing
    offends; otherwise a finding whose [face_indices] are the first
    [max_reported] offending indices and whose [count_key] entry is the
    number of all offending polygons. *)
Definition truncated_listing (res : result (option ValidationResult))
    (count_key : string) (offending : list Z) (max_reported : Z) : Prop :=
  (offending = [] -> res = inr None)
  /\ (offending <> [] ->
      exists r listed,
        res = inr (Some r)
        /\ dict_get (details r) "face_indices" = Some (VList (map VInt listed))
        /\ listed = firstn (Z.to_nat max_reported) offending
        /\ len listed = Z.min (len offending) max_reported
        /\ dict_get (details r) count_key = Some (VInt (len offending))).

Section FaceOrientationVocabulary.
Context `{Host}.

(** The mean position of the vertices. *)
Definition mesh_center (mesh : Mesh) : Vector :=
  vdiv (vsum (vertices mesh)) (inject_Z (len (vertices mesh))).

(** The indices of all faces the orientation heuristic flags. *)
Definition flagged_faces (mesh : Mesh) : list Z :=
  map face_index
      (List.filter (points_to_center (mesh_center mesh)) (bm_faces (from_mesh mesh))).

(** The finding of the face-orientation check for [n] flagged faces out of
    [total], of which [listed] are shown. *)
Definition inverted_faces_finding (obj : Object) (n total : Z) (listed : list Z)
  : ValidationResult :=
  let ratio := int_truediv n total in
  let shown :=
    [("potentially_inverted_count"%string, VInt n);
     ("total_faces"%string, VInt total);
     ("face_indices"%string, VList (map VInt listed));
     ("inverted_ratio"%string, VFloat (round_float ratio 3))] in
  if (Qltb ratio (float_round (5 # 100)) && (n <? 5))%bool then
    mkValidationResult FaceOrientationChecker_name INFO (name obj)
      (str_int n +:+ " face(s) may have inverted normals") shown
      (Some "Check normals: Viewport Overlays > Face Orientation"%string)
  else
    mkValidationResult FaceOrientationChecker_name WARNING (name obj)
      (str_int n +:+ " face(s) may have inverted normals ("
         +:+ format_float ".1%" ratio +:+ ")") shown
      (Some "Fix normals: Edit Mode > Mesh > Normals > Recalculate Outside"%string).

End FaceOrientationVocabulary.

(** A mesh that has polygons has vertices. *)
Definition faces_have_vertices (mesh : Mesh) : Prop :=
  polygons mesh <> [] -> vertices mesh <> [].

(** The entry [_store_results] writes for one result. *)
Definition item_of (result : ValidationResult) : ResultItem :=
  mkResultItem (checker_name result) (Severity_name (severity result))
    (object_name result) (message result)
    (match fix_hint result with Some h => h | None => EmptyString end).

(** What the double loop contributes when started from nothing: the results
    and the fault reports of running [checkers] over [objects]. *)
Definition results_of (objects : list Object) (checkers : list BaseChecker)
  : list ValidationResult :=
  fst (run_all objects checkers ([], [])).

Definition faults_of (objects : list Object) (checkers : list BaseChecker)
  : list (string * string) :=
  snd (run_all objects checkers ([], [])).

(** The report made when [checker] raises [e] on [obj]. *)
Definition fault_report (checker : BaseChecker) (obj : Object) (e : exn)
  : string * string :=
  ("WARNING"%string,
   "Checker '" +:+ checker_display_name checker +:+ "' failed on '" +:+ name obj
     +:+ "': " +:+ str_exn e).

(** ** Concrete inputs used by the examples below *)

Definition flagged_with_short_key : Object :=
  mkObject "Cube" "MESH" (mkVector 1 1 1) (mkVector 0 0 0) (mkMesh [] []) []
    {[ "exclude_material"%string := VBool true ]} false true.

Definition renamed_transform_class : BaseChecker :=
  mkChecker "Transform" "Transform (strict)" "Check transforms strictly"
    ERROR ["MESH"] false (TransformChecker_check TransformConfig_default).

Definition mirrored_x : Object :=
  mkObject "MirrorX" "MESH" (mkVector (-1) 1 1) (mkVector 0 0 0) (mkMesh [] []) []
    ∅ false true.

Definition mirrored_xy : Object :=
  mkObject "MirrorXY" "MESH" (mkVector (-1) (-1) 1) (mkVector 0 0 0) (mkMesh [] []) []
    ∅ false true.

(** Single-precision components next to the tolerance: the scale is nine
    units in the last place above 1 (about 1.00000107) and the rotation is
    [2^-20] (about 0.00000095). *)
Definition nudged : Object :=
  mkObject "Nudged" "MESH" (mkVector (8388617 # 8388608) 1 1)
    (mkVector (1 # 1048576) 0 0) (mkMesh [] []) [] ∅ false true.

Definition one_unused_slot_no_polygons : Object :=
  mkObject "Empty" "MESH" (mkVector 1 1 1) (mkVector 0 0 0) (mkMesh [] [])
    [mkMaterialSlot "Steel" (Some "Steel"%string)] ∅ false true.

Definition one_unused_slot : Object :=
  mkObject "Plate" "MESH" (mkVector 1 1 1) (mkVector 0 0 0)
    (mkMesh [mkVector 0 0 0; mkVector 1 0 0; mkVector 0 1 0]
            [mkMeshPolygon 3 (1 # 2) 1 [0; 1; 2]%nat (mkVector 0 0 1)])
    [mkMaterialSlot "Steel" (Some "Steel"%string)] ∅ false true.

Definition two_empty_slots : Object :=
  mkObject "Bare" "MESH" (mkVector 1 1 1) (mkVector 0 0 0)
    (mkMesh [mkVector 0 0 0; mkVector 1 0 0; mkVector 0 1 0]
            [mkMeshPolygon 3 (1 # 2) 0 [0; 1; 2]%nat (mkVector 0 0 1)])
    [mkMaterialSlot "" None; mkMaterialSlot "" None] ∅ false true.

(** Four vertices; a triangle on the first three whose normal points at the
    fourth (towards the centre of the mesh) or away from it. *)
Definition spike_vertices : list Vector :=
  [mkVector 0 0 0; mkVector 1 0 0; mkVector 0 1 0; mkVector 0 0 3].

Definition inward_face : MeshPolygon :=
  mkMeshPolygon 3 (1 # 2) 0 [0; 1; 2]%nat (mkVector 0 0 1).

Definition outward_face : MeshPolygon :=
  mkMeshPolygon 3 (1 # 2) 0 [0; 1; 2]%nat (mkVector 0 0 (-1)).

Definition reversed_mesh (reversed total : nat) : Mesh :=
  mkMesh spike_vertices
    (repeat inward_face reversed ++ repeat outward_face (total - reversed)).

Definition reversed_object (reversed total : nat) : Object :=
  mkObject "Sphere" "MESH" (mkVector 1 1 1) (mkVector 0 0 0)
    (reversed_mesh reversed total) [] ∅ false true.

(** Three tiny pentagons, all facing the centre. *)
Definition tiny_pentagon : MeshPolygon :=
  mkMeshPolygon 5 (1 # 100000) 0 [0; 1; 2]%nat (mkVector 0 0 1).

Definition pentagon_mesh : Mesh :=
  mkMesh spike_vertices [tiny_pentagon; tiny_pentagon; tiny_pentagon].

Definition pentagon_object : Object :=
  mkObject "Fan" "MESH" (mkVector 1 1 1) (mkVector 0 0 0) pentagon_mesh [] ∅ false true.

Definition cap_two : GeometryConfig := mkGeometryConfig true true (1 # 10000) 2.
Definition cap_zero : GeometryConfig := mkGeometryConfig true true (1 # 10000) 0.

(** A checker whose [check] builds a result with an empty message, which
    [ValidationResult.__post_init__] rejects. *)
Definition BrokenChecker_check (obj : Object) : result (list ValidationResult) :=
  r <-- create_result "Broken" WARNING obj "" None None None ;;
  ret [r].

Definition BrokenChecker : BaseChecker :=
  mkChecker "BrokenChecker" "Broken" "Always fails" WARNING ["MESH"] true
    BrokenChecker_check.

Definition three_checkers : CheckerRegistry :=
  match
    (r1 <-- register (TransformChecker TransformConfig_default) registry_empty ;;
     r2 <-- register BrokenChecker r1 ;;
     register MaterialChecker r2)
  with
  | inr reg => reg
  | inl _ => registry_empty
  end.

Definition two_object_scene : Blender :=
  mkBlender [mirrored_x; one_unused_slot] [] three_checkers [] [].

(** ** Further vocabulary *)

(** Whether a class overrides [check], and its class attributes [name] and
    [description]. *)
Definition overrides_check (checker_class : CheckerClass) : bool :=
  match checker_class with
  | Concrete _ => true
  | Abstract _ _ _ => false
  end.

Definition name_of (checker_class : CheckerClass) : string :=
  match checker_class with
  | Concrete cls => checker_display_name cls
  | Abstract _ abstract_name _ => abstract_name
  end.

Definition description_of (checker_class : CheckerClass) : string :=
  match checker_class with
  | Concrete cls => description cls
  | Abstract _ _ abstract_description => abstract_description
  end.

(** The registries a session can reach: from the empty one by registering,
    unregistering and clearing. *)
Inductive reachable : CheckerRegistry -> Prop :=
| reachable_empty : reachable registry_empty
| reachable_register (checker_class : CheckerClass) (reg reg' : CheckerRegistry) :
    reachable reg -> register checker_class reg = inr reg' -> reachable reg'
| reachable_unregister (k : string) (reg : CheckerRegistry) :
    reachable reg -> reachable (snd (unregister k reg))
| reachable_clear (reg : CheckerRegistry) :
    reachable reg -> reachable (clear reg).

(** The shape every reachable registry has. *)
Definition registry_shape (reg : CheckerRegistry) : Prop :=
  NoDup (dict_keys (_checkers reg))
  /\ Forall (fun kv => fst kv = get_id (snd kv)) (_checkers reg)
  /\ dict_keys (_checker_classes reg) = dict_keys (_checkers reg).


(** What one pair adds to the run: the results of [check] when the pair is
    supported, not excluded and [check] returns; one fault report when it
    raises. *)
Definition pair_results (obj : Object) (checker : BaseChecker) : list ValidationResult :=
  if (is_supported checker obj && negb (truthy (is_excluded checker obj)))%bool then
    match check checker obj with
    | inr results => results
    | inl _ => []
    end
  else [].

Definition pair_faults (obj : Object) (checker : BaseChecker) : list (string * string) :=
  if (is_supported checker obj && negb (truthy (is_excluded checker obj)))%bool then
    match check checker obj with
    | inr _ => []
    | inl e => [fault_report checker obj e]
    end
  else [].

(** ** Further concrete inputs *)

Definition registry_after (c : BaseChecker) (reg : CheckerRegistry) : CheckerRegistry :=
  match register c reg with
  | inr reg' => reg'
  | inl _ => reg
  end.

Definition one_checker : CheckerRegistry :=
  registry_after (TransformChecker TransformConfig_default) registry_empty.

Definition two_checkers : CheckerRegistry := registry_after BrokenChecker one_checker.

(** A subclass that defines neither [check] nor [name]. *)
Definition unfinished_class : CheckerClass :=
  Abstract "DraftChecker" "" "Work in progress".

(** A transform whose components are doubles but not single-precision
    values: the scale is the double [1.000001], the rotation the double
    [-9e-7]. *)
Definition within_tolerance : Object :=
  mkObject "Applied" "MESH" (mkVector (float_round (1000001 # 1000000)) 1 1)
    (mkVector 0 0 (float_round (-9 # 10000000))) (mkMesh [] []) [] ∅ false true.

Definition flagged_with_long_key : Object :=
  mkObject "Cube" "MESH" (mkVector 1 1 1) (mkVector 0 0 0) (mkMesh [] []) []
    {[ "unity_validator_exclude_broken"%string := VInt 1 ]} false true.

Definition unwrapped_layer : UVLayer :=
  mkUVLayer "UVMap" [(0, 0); (1, 0); (0, 1)]%Q.

Definition plate_without_active_uv : UVObject :=
  mkUVObject one_unused_slot [unwrapped_layer] None [0; 1; 2].

Definition plate_with_stale_uv : UVObject :=
  mkUVObject one_unused_slot [unwrapped_layer] (Some unwrapped_layer) [0; 1; 2; 3].

Definition half_smooth_cube : NormalsObject :=
  mkNormalsObject one_unused_slot
    [mkShadedPolygon true; mkShadedPolygon false; mkShadedPolygon false]
    (Some false) false [].

(** * Properties *)

(** ** Basic facts about the preliminaries *)

Lemma Qltb_lt (a b : Q) : Qltb a b = true <-> (a < b)%Q.
Proof.
  unfold Qltb. rewrite negb_true_iff. split.
  - intros Hf. apply Qnot_le_lt. intros Hle.
    apply Qle_bool_iff in Hle. congruence.
  - intros Hlt. destruct (Qle_bool b a) eqn:E; [|reflexivity].
    apply Qle_bool_iff in E. exfalso. apply (Qlt_not_le _ _ Hlt E).
Qed.

Lemma Qltb_ge (a b : Q) : Qltb a b = false <-> (b <= a)%Q.
Proof.
  unfold Qltb. rewrite negb_false_iff. apply Qle_bool_iff.
Qed.

(** ** Powers of two *)

Lemma pow2_pos (e : Z) : (0 < 2 ^ e)%Q.
Proof. apply Qpower_0_lt. reflexivity. Qed.

Lemma pow2_add (a b : Z) : (2 ^ (a + b) == 2 ^ a * 2 ^ b)%Q.
Proof. apply Qpower_plus. discriminate. Qed.

Lemma pow2_sub (a b : Z) : (2 ^ (a - b) == 2 ^ a / 2 ^ b)%Q.
Proof. apply Qpower_minus. discriminate. Qed.

Lemma pow2_le (a b : Z) : a <= b -> (2 ^ a <= 2 ^ b)%Q.
Proof. intros Hab. apply Qpower_le_compat_l; [exact Hab | discriminate]. Qed.

Lemma pow2_lt (a b : Z) : a < b -> (2 ^ a < 2 ^ b)%Q.
Proof. intros Hab. apply Qpower_lt_compat_l; [exact Hab | reflexivity]. Qed.

Lemma pow2_lt_inv (a b : Z) : (2 ^ a < 2 ^ b)%Q -> a < b.
Proof. intros Hab. apply (Qpower_lt_compat_l_inv 2); [exact Hab | reflexivity]. Qed.

Lemma pow2_le_inv (a b : Z) : (2 ^ a <= 2 ^ b)%Q -> a <= b.
Proof. intros Hab. apply (Qpower_le_compat_l_inv 2); [exact Hab | reflexivity]. Qed.

Lemma pow2_Z (e : Z) : 0 <= e -> (2 ^ e == inject_Z (2 ^ e))%Q.
Proof. intros He. rewrite Zpower_Qpower by exact He. reflexivity. Qed.

Lemma pow2_succ (e : Z) : (2 ^ (e + 1) == 2 * 2 ^ e)%Q.
Proof. rewrite pow2_add. change (2 ^ 1)%Q with 2%Q. ring. Qed.

(** ** The binade of a positive rational *)

Lemma binade_spec (q : Q) :
  (0 < q)%Q -> (2 ^ binade q <= q)%Q /\ (q < 2 ^ (binade q + 1))%Q.
Proof.
  intros Hq. unfold binade.
  destruct q as [n d]. simpl Qnum. simpl Qden.
  assert (Hn : 0 < n) by (unfold Qlt in Hq; simpl in Hq; lia).
  set (a := Z.log2 n). set (b := Z.log2 (Z.pos d)).
  destruct (Z.log2_spec n Hn) as [Hna Hna'].
  destruct (Z.log2_spec (Z.pos d) ltac:(lia)) as [Hdb Hdb'].
  fold a in Hna, Hna'. fold b in Hdb, Hdb'.
  assert (Ha0 : 0 <= a) by apply Z.log2_nonneg.
  assert (Hb0 : 0 <= b) by apply Z.log2_nonneg.
  rewrite <- Z.add_1_r in Hna', Hdb'.
  rewrite Zle_Qle in Hna, Hdb. rewrite Zlt_Qlt in Hna', Hdb'.
  rewrite <- pow2_Z in Hna, Hdb, Hna', Hdb' by lia.
  rewrite pow2_succ in Hna', Hdb'.
  set (N := inject_Z n) in *. set (D := inject_Z (Z.pos d)) in *.
  assert (HD : (0 < D)%Q) by (unfold D; change 0%Q with (inject_Z 0);
                               rewrite <- Zlt_Qlt; lia).
  assert (Hq' : (n # d == N / D)%Q) by apply Qmake_Qdiv.
  assert (Hab : (2 ^ a == 2 ^ (a - b) * 2 ^ b)%Q).
  { rewrite <- pow2_add. replace (a - b + b) with a by lia. reflexivity. }
  pose proof (pow2_pos (a - b)) as HX.
  set (X := (2 ^ (a - b))%Q) in *. set (B := (2 ^ b)%Q) in *. set (A := (2 ^ a)%Q) in *.
  assert (H1 : (X * B <= X * D)%Q) by (apply Qmult_le_l; assumption).
  assert (H2 : (X * D < X * (2 * B))%Q) by (apply Qmult_lt_l; assumption).
  destruct (Qle_bool X (n # d)) eqn:E.
  - apply Qle_bool_iff in E. split; [exact E|].
    rewrite Hq', pow2_succ. fold X.
    apply Qlt_shift_div_r; [exact HD|]. lra.
  - assert (E' : (n # d < X)%Q).
    { apply Qnot_le_lt. intros Hle. apply Qle_bool_iff in Hle. congruence. }
    replace (a - b - 1 + 1) with (a - b) by lia. fold X. split; [|exact E'].
    rewrite Hq'. apply Qle_shift_div_l; [exact HD|].
    assert (HX2 : (X == 2 * 2 ^ (a - b - 1))%Q).
    { unfold X. rewrite <- pow2_succ. replace (a - b - 1 + 1) with (a - b) by lia.
      reflexivity. }
    set (Y := (2 ^ (a - b - 1))%Q) in *.
    assert (H3 : (X * D == 2 * (Y * D))%Q) by (rewrite HX2; ring).
    lra.
Qed.

Lemma binade_unique (q : Q) (k : Z) :
  (2 ^ k <= q)%Q -> (q < 2 ^ (k + 1))%Q -> binade q = k.
Proof.
  intros Hlo Hhi.
  assert (Hq : (0 < q)%Q) by (eapply Qlt_le_trans; [apply (pow2_pos k) | exact Hlo]).
  destruct (binade_spec q Hq) as [Hlo' Hhi'].
  assert (H1 : k < binade q + 1).
  { apply pow2_lt_inv. eapply Qle_lt_trans; eassumption. }
  assert (H2 : binade q < k + 1).
  { apply pow2_lt_inv. eapply Qle_lt_trans; eassumption. }
  lia.
Qed.

Lemma binade_comp (q q' : Q) : (0 < q)%Q -> (q == q')%Q -> binade q = binade q'.
Proof.
  intros Hq Heq. symmetry. destruct (binade_spec q Hq) as [Hlo Hhi].
  apply binade_unique; rewrite <- Heq; assumption.
Qed.

(** ** Rounding to the nearest integer *)

Lemma round_half_even_cases (x : Q) :
  round_half_even x = Qfloor x \/ round_half_even x = Qfloor x + 1.
Proof.
  unfold round_half_even.
  destruct (Qltb _ _); [left; reflexivity|].
  destruct (Qltb _ _); [right; reflexivity|].
  destruct (Z.even _); [left | right]; reflexivity.
Qed.

Lemma round_half_even_comp (x y : Q) : (x == y)%Q -> round_half_even x = round_half_even y.
Proof.
  intros Hxy. unfold round_half_even.
  assert (Hf : Qfloor x = Qfloor y) by (rewrite Hxy; reflexivity).
  rewrite Hf.
  assert (H1 : Qltb (x - inject_Z (Qfloor y)) (1 # 2) = Qltb (y - inject_Z (Qfloor y)) (1 # 2)).
  { destruct (Qltb (y - inject_Z (Qfloor y)) (1 # 2)) eqn:E.
    - apply Qltb_lt. apply Qltb_lt in E. rewrite Hxy. exact E.
    - apply Qltb_ge. apply Qltb_ge in E. rewrite Hxy. exact E. }
  assert (H2 : Qltb (1 # 2) (x - inject_Z (Qfloor y)) = Qltb (1 # 2) (y - inject_Z (Qfloor y))).
  { destruct (Qltb (1 # 2) (y - inject_Z (Qfloor y))) eqn:E.
    - apply Qltb_lt. apply Qltb_lt in E. rewrite Hxy. exact E.
    - apply Qltb_ge. apply Qltb_ge in E. rewrite Hxy. exact E. }
  rewrite H1, H2. reflexivity.
Qed.

Lemma round_half_even_Z (z : Z) : round_half_even (inject_Z z) = z.
Proof.
  unfold round_half_even. rewrite Qfloor_Z.
  assert (H1 : Qltb (inject_Z z - inject_Z z) (1 # 2) = true).
  { apply Qltb_lt. lra. }
  rewrite H1. reflexivity.
Qed.

Lemma round_half_even_close (y : Q) :
  (Qabs (inject_Z (round_half_even y) - y) <= 1 # 2)%Q.
Proof.
  unfold round_half_even.
  pose proof (Qfloor_le y) as Hlo. pose proof (Qlt_floor y) as Hhi.
  rewrite inject_Z_plus in Hhi.
  change (inject_Z 1) with 1%Q in Hhi.
  set (f := Qfloor y) in *.
  apply Qabs_Qle_condition.
  destruct (Qltb (y - inject_Z f) (1 # 2)) eqn:E1.
  - apply Qltb_lt in E1. split; lra.
  - apply Qltb_ge in E1.
    destruct (Qltb (1 # 2) (y - inject_Z f)) eqn:E2.
    + rewrite inject_Z_plus. change (inject_Z 1) with 1%Q. split; lra.
    + apply Qltb_ge in E2. destruct (Z.even f).
      * split; lra.
      * rewrite inject_Z_plus. change (inject_Z 1) with 1%Q. split; lra.
Qed.

Lemma round_half_even_ge (x : Q) (z : Z) :
  (inject_Z z <= x)%Q -> z <= round_half_even x.
Proof.
  intros Hz. apply Qfloor_resp_le in Hz. rewrite Qfloor_Z in Hz.
  destruct (round_half_even_cases x) as [-> | ->]; lia.
Qed.

Lemma round_half_even_le (x : Q) (z : Z) :
  (x <= inject_Z z)%Q -> round_half_even x <= z.
Proof.
  intros Hz. pose proof (Qfloor_resp_le _ _ Hz) as Hf. rewrite Qfloor_Z in Hf.
  destruct (Z.eq_dec (Qfloor x) z) as [Heq | Hne].
  - assert (Hx : (x == inject_Z z)%Q).
    { apply Qle_antisym; [exact Hz|]. rewrite <- Heq. apply Qfloor_le. }
    rewrite (round_half_even_comp _ _ Hx), round_half_even_Z. lia.
  - destruct (round_half_even_cases x) as [-> | ->]; lia.
Qed.

Lemma round_half_even_mono (x y : Q) :
  (x <= y)%Q -> round_half_even x <= round_half_even y.
Proof.
  intros Hxy. pose proof (Qfloor_resp_le _ _ Hxy) as Hf.
  destruct (Z.eq_dec (Qfloor x) (Qfloor y)) as [Heq | Hne].
  - unfold round_half_even. rewrite Heq. set (f := Qfloor y).
    destruct (Qltb (x - inject_Z f) (1 # 2)) eqn:X1;
      destruct (Qltb (y - inject_Z f) (1 # 2)) eqn:Y1;
      destruct (Qltb (1 # 2) (x - inject_Z f)) eqn:X2;
      destruct (Qltb (1 # 2) (y - inject_Z f)) eqn:Y2;
      destruct (Z.even f); try lia;
      rewrite ?Qltb_lt, ?Qltb_ge in *; exfalso; lra.
  - assert (Hlt : Qfloor x + 1 <= Qfloor y) by lia.
    assert (Hy : Qfloor y <= round_half_even y).
    { destruct (round_half_even_cases y) as [-> | ->]; lia. }
    destruct (round_half_even_cases x) as [-> | ->]; lia.
Qed.

(** ** Rounding to a binary format *)

Lemma grid_shift (z e u : Z) :
  u <= e -> (inject_Z z * 2 ^ e == inject_Z (z * 2 ^ (e - u)) * 2 ^ u)%Q.
Proof.
  intros Hue. rewrite inject_Z_mult, <- pow2_Z by lia.
  rewrite <- Qmult_assoc, <- pow2_add. replace (e - u + u) with e by lia. reflexivity.
Qed.

Lemma Qabs_nonzero (q : Q) : ~ (q == 0)%Q -> (0 < Qabs q)%Q.
Proof.
  intros Hq. destruct (Qlt_le_dec 0 (Qabs q)) as [Hlt | Hle]; [exact Hlt|].
  exfalso. apply Hq. pose proof (Qabs_nonneg q) as Hge.
  assert (Hz : (Qabs q == 0)%Q) by (apply Qle_antisym; assumption).
  apply Qabs_Qle_condition in Hle. lra.
Qed.

Section RoundBinary.
Variables prec emin : Z.
Hypothesis Hprec : 1 <= prec.

Lemma round_binary_nonzero (q : Q) :
  ~ (q == 0)%Q ->
  round_binary prec emin q
  = (inject_Z (round_half_even (q / 2 ^ ulp_exponent prec emin q))
     * 2 ^ ulp_exponent prec emin q)%Q.
Proof using Hprec.
  intros Hq. unfold round_binary.
  destruct (Qeq_bool q 0) eqn:E; [|reflexivity].
  apply Qeq_bool_iff in E. contradiction.
Qed.

Lemma round_binary_zero (q : Q) : (q == 0)%Q -> round_binary prec emin q = 0%Q.
Proof using Hprec.
  intros Hq. unfold round_binary. apply Qeq_bool_iff in Hq. rewrite Hq. reflexivity.
Qed.

Lemma ulp_exponent_comp (q q' : Q) :
  ~ (q == 0)%Q -> (q == q')%Q -> ulp_exponent prec emin q = ulp_exponent prec emin q'.
Proof using Hprec.
  intros Hq Heq. unfold ulp_exponent.
  rewrite (binade_comp (Qabs q) (Qabs q')); [reflexivity | |].
  - apply Qabs_nonzero, Hq.
  - rewrite Heq. reflexivity.
Qed.

Lemma round_binary_comp (q q' : Q) :
  (q == q')%Q -> (round_binary prec emin q == round_binary prec emin q')%Q.
Proof using Hprec.
  intros Heq. destruct (Qeq_dec q 0) as [Hz | Hnz].
  - rewrite (round_binary_zero q Hz), (round_binary_zero q'); [reflexivity|].
    rewrite <- Heq. exact Hz.
  - assert (Hnz' : ~ (q' == 0)%Q) by (rewrite <- Heq; exact Hnz).
    rewrite (round_binary_nonzero q Hnz), (round_binary_nonzero q' Hnz').
    rewrite <- (ulp_exponent_comp q q' Hnz Heq).
    rewrite (round_half_even_comp (q / 2 ^ ulp_exponent prec emin q)
               (q' / 2 ^ ulp_exponent prec emin q)); [reflexivity|].
    apply Qdiv_comp; [exact Heq | reflexivity].
Qed.

Lemma round_binary_ge_grid (q : Q) (z e : Z) :
  ~ (q == 0)%Q -> ulp_exponent prec emin q <= e ->
  (inject_Z z * 2 ^ e <= q)%Q -> (inject_Z z * 2 ^ e <= round_binary prec emin q)%Q.
Proof using Hprec.
  intros Hq Hue Hz. rewrite (round_binary_nonzero q Hq).
  set (u := ulp_exponent prec emin q) in *.
  rewrite (grid_shift z e u Hue) in *.
  pose proof (pow2_pos u) as Hu.
  apply Qmult_le_compat_r; [|apply Qlt_le_weak, Hu].
  rewrite <- Zle_Qle. apply round_half_even_ge.
  apply Qle_shift_div_l; assumption.
Qed.

Lemma round_binary_le_grid (q : Q) (z e : Z) :
  ~ (q == 0)%Q -> ulp_exponent prec emin q <= e ->
  (q <= inject_Z z * 2 ^ e)%Q -> (round_binary prec emin q <= inject_Z z * 2 ^ e)%Q.
Proof using Hprec.
  intros Hq Hue Hz. rewrite (round_binary_nonzero q Hq).
  set (u := ulp_exponent prec emin q) in *.
  rewrite (grid_shift z e u Hue) in *.
  pose proof (pow2_pos u) as Hu.
  apply Qmult_le_compat_r; [|apply Qlt_le_weak, Hu].
  rewrite <- Zle_Qle. apply round_half_even_le.
  apply Qle_shift_div_r; assumption.
Qed.

(** A value [m * 2^e] with fewer than [prec] digits is left unchanged. *)
Lemma round_binary_exact (q : Q) (m e : Z) :
  (q == inject_Z m * 2 ^ e)%Q -> (Qabs (inject_Z m) < 2 ^ prec)%Q -> emin <= e ->
  (round_binary prec emin q == q)%Q.
Proof using Hprec.
  intros Hq Hm He. destruct (Qeq_dec q 0) as [Hz | Hnz].
  - rewrite (round_binary_zero q Hz), Hz. reflexivity.
  - assert (Hue : ulp_exponent prec emin q <= e).
    { destruct (binade_spec (Qabs q) (Qabs_nonzero q Hnz)) as [Hlo _].
      assert (Hlt : (Qabs q < 2 ^ (prec + e))%Q).
      { rewrite Hq, Qabs_Qmult, (Qabs_pos (2 ^ e)), pow2_add
          by (apply Qlt_le_weak, pow2_pos).
        apply Qmult_lt_compat_r; [apply pow2_pos | exact Hm]. }
      assert (Hb : binade (Qabs q) < prec + e).
      { apply pow2_lt_inv. eapply Qle_lt_trans; eassumption. }
      unfold ulp_exponent. lia. }
    apply Qle_antisym.
    + rewrite Hq at 2. apply round_binary_le_grid; [exact Hnz | exact Hue|].
      rewrite Hq. apply Qle_refl.
    + rewrite Hq at 1. apply round_binary_ge_grid; [exact Hnz | exact Hue|].
      rewrite Hq. apply Qle_refl.
Qed.

Lemma round_binary_ge_pow2 (q : Q) (k : Z) :
  emin <= k -> (2 ^ k <= q)%Q -> (2 ^ k <= round_binary prec emin q)%Q.
Proof using Hprec.
  intros Hk Hq.
  assert (Hpos : (0 < q)%Q) by (eapply Qlt_le_trans; [apply (pow2_pos k) | exact Hq]).
  assert (Hnz : ~ (q == 0)%Q) by (intros Hz; rewrite Hz in Hpos; inversion Hpos).
  assert (Habs : (Qabs q == q)%Q) by (apply Qabs_pos, Qlt_le_weak, Hpos).
  destruct (binade_spec (Qabs q) (Qabs_nonzero q Hnz)) as [Hlo Hhi].
  set (b := binade (Qabs q)) in *.
  rewrite Habs in Hlo, Hhi.
  assert (Hkb : k <= b).
  { assert (k < b + 1) by (apply pow2_lt_inv; eapply Qle_lt_trans; eassumption). lia. }
  apply Qle_trans with (2 ^ b)%Q; [apply pow2_le, Hkb|].
  rewrite <- (Qmult_1_l (2 ^ b)). change 1%Q with (inject_Z 1).
  apply round_binary_ge_grid; [exact Hnz | unfold ulp_exponent; fold b; lia|].
  change (inject_Z 1) with 1%Q. rewrite Qmult_1_l. exact Hlo.
Qed.

Lemma round_binary_le_neg_pow2 (q : Q) (k : Z) :
  emin <= k -> (q <= - 2 ^ k)%Q -> (round_binary prec emin q <= - 2 ^ k)%Q.
Proof using Hprec.
  intros Hk Hq. pose proof (pow2_pos k) as Hpk.
  assert (Hneg : (q < 0)%Q) by lra.
  assert (Hnz : ~ (q == 0)%Q) by (intros Hz; rewrite Hz in Hneg; inversion Hneg).
  assert (Habs : (Qabs q == - q)%Q) by (apply Qabs_neg, Qlt_le_weak, Hneg).
  destruct (binade_spec (Qabs q) (Qabs_nonzero q Hnz)) as [Hlo Hhi].
  set (b := binade (Qabs q)) in *.
  rewrite Habs in Hlo, Hhi.
  assert (Hkb : k <= b).
  { assert (k < b + 1).
    { apply pow2_lt_inv. eapply Qle_lt_trans; [|exact Hhi]. lra. }
    lia. }
  pose proof (pow2_le k b Hkb) as Hle.
  apply Qle_trans with (- 2 ^ b)%Q; [|lra].
  assert (Heq : (- 2 ^ b == inject_Z (-1) * 2 ^ b)%Q).
  { change (inject_Z (-1)) with (-1)%Q. ring. }
  rewrite Heq.
  apply round_binary_le_grid; [exact Hnz | unfold ulp_exponent; fold b; lia|].
  rewrite <- Heq. lra.
Qed.

Lemma round_binary_abs_ge (q : Q) (k : Z) :
  emin <= k -> (2 ^ k <= Qabs q)%Q -> (2 ^ k <= Qabs (round_binary prec emin q))%Q.
Proof using Hprec.
  intros Hk Hq. destruct (Qlt_le_dec q 0) as [Hneg | Hpos].
  - rewrite Qabs_neg in Hq by (apply Qlt_le_weak, Hneg).
    assert (Hr : (round_binary prec emin q <= - 2 ^ k)%Q).
    { apply round_binary_le_neg_pow2; [exact Hk | lra]. }
    pose proof (pow2_pos k) as Hpk.
    rewrite Qabs_neg by lra. lra.
  - rewrite Qabs_pos in Hq by exact Hpos.
    pose proof (round_binary_ge_pow2 q k Hk Hq) as Hr.
    pose proof (pow2_pos k) as Hpk.
    rewrite Qabs_pos by lra. exact Hr.
Qed.

Lemma round_binary_le_pow2 (q : Q) (k : Z) :
  emin <= k -> (0 <= q)%Q -> (q <= 2 ^ k)%Q -> (round_binary prec emin q <= 2 ^ k)%Q.
Proof using Hprec.
  intros Hk Hq0 Hq. destruct (Qeq_dec q 0) as [Hz | Hnz].
  - rewrite (round_binary_zero q Hz). apply Qlt_le_weak, pow2_pos.
  - assert (Habs : (Qabs q == q)%Q) by (apply Qabs_pos, Hq0).
    destruct (binade_spec (Qabs q) (Qabs_nonzero q Hnz)) as [Hlo Hhi].
    set (b := binade (Qabs q)) in *.
    rewrite Habs in Hlo, Hhi.
    assert (Hbk : b <= k) by (apply pow2_le_inv; eapply Qle_trans; eassumption).
    rewrite <- (Qmult_1_l (2 ^ k)). change 1%Q with (inject_Z 1).
    apply round_binary_le_grid; [exact Hnz | unfold ulp_exponent; fold b; lia|].
    change (inject_Z 1) with 1%Q. rewrite Qmult_1_l. exact Hq.
Qed.

Lemma round_binary_nonneg (q : Q) : (0 <= q)%Q -> (0 <= round_binary prec emin q)%Q.
Proof using Hprec.
  intros Hq. destruct (Qeq_dec q 0) as [Hz | Hnz].
  - rewrite (round_binary_zero q Hz). apply Qle_refl.
  - rewrite (round_binary_nonzero q Hnz).
    pose proof (pow2_pos (ulp_exponent prec emin q)) as Hu.
    apply Qmult_le_0_compat; [|apply Qlt_le_weak, Hu].
    change 0%Q with (inject_Z 0). rewrite <- Zle_Qle.
    apply round_half_even_ge. change (inject_Z 0) with 0%Q.
    apply Qle_shift_div_l; [exact Hu|]. lra.
Qed.

(** The rounding error is at most half a unit in the last place. *)
Lemma round_binary_error (q : Q) (k : Z) :
  (Qabs q < 2 ^ k)%Q -> emin <= k - prec ->
  (Qabs (round_binary prec emin q - q) <= 2 ^ (k - prec - 1))%Q.
Proof using Hprec.
  intros Hq Hk. pose proof (pow2_pos (k - prec - 1)) as Hp.
  assert (Hhalf : (2 ^ (k - prec) == 2 * 2 ^ (k - prec - 1))%Q).
  { rewrite <- pow2_succ. replace (k - prec - 1 + 1) with (k - prec) by lia.
    reflexivity. }
  destruct (Qeq_dec q 0) as [Hz | Hnz].
  - rewrite (round_binary_zero q Hz), Hz.
    set (P := (2 ^ (k - prec - 1))%Q) in *.
    rewrite Qabs_pos by lra. lra.
  - rewrite (round_binary_nonzero q Hnz).
    destruct (binade_spec (Qabs q) (Qabs_nonzero q Hnz)) as [Hlo _].
    assert (Hb : binade (Qabs q) < k).
    { apply pow2_lt_inv. eapply Qle_lt_trans; eassumption. }
    assert (Hu : ulp_exponent prec emin q <= k - prec) by (unfold ulp_exponent; lia).
    set (u := ulp_exponent prec emin q) in *.
    pose proof (pow2_pos u) as Hpu. pose proof (pow2_le u (k - prec) Hu) as Hle.
    pose proof (round_half_even_close (q / 2 ^ u)) as Hc.
    set (r := inject_Z (round_half_even (q / 2 ^ u))) in *.
    assert (Heq : (r * 2 ^ u - q == (r - q / 2 ^ u) * 2 ^ u)%Q).
    { field. intros Hz. rewrite Hz in Hpu. inversion Hpu. }
    rewrite Heq, Qabs_Qmult, (Qabs_pos (2 ^ u)) by lra.
    apply Qle_trans with ((1 # 2) * 2 ^ u)%Q.
    + apply Qmult_le_compat_r; [exact Hc | lra].
    + lra.
Qed.

Lemma round_binary_mono (x y : Q) :
  (0 < x)%Q -> (x <= y)%Q -> (round_binary prec emin x <= round_binary prec emin y)%Q.
Proof using Hprec.
  intros Hx Hxy.
  assert (Hy : (0 < y)%Q) by lra.
  assert (Hxz : ~ (x == 0)%Q) by (intros Hz; rewrite Hz in Hx; inversion Hx).
  assert (Hyz : ~ (y == 0)%Q) by (intros Hz; rewrite Hz in Hy; inversion Hy).
  assert (Hax : (Qabs x == x)%Q) by (apply Qabs_pos; lra).
  assert (Hay : (Qabs y == y)%Q) by (apply Qabs_pos; lra).
  destruct (binade_spec (Qabs x) (Qabs_nonzero x Hxz)) as [Hxlo Hxhi].
  destruct (binade_spec (Qabs y) (Qabs_nonzero y Hyz)) as [Hylo Hyhi].
  assert (Hb : binade (Qabs x) <= binade (Qabs y)).
  { assert (binade (Qabs x) < binade (Qabs y) + 1).
    { apply pow2_lt_inv. eapply Qle_lt_trans; [exact Hxlo|]. lra. }
    lia. }
  destruct (Z.eq_dec (ulp_exponent prec emin x) (ulp_exponent prec emin y)) as [Hu | Hu].
  - rewrite (round_binary_nonzero x Hxz), (round_binary_nonzero y Hyz), Hu.
    set (u := ulp_exponent prec emin y). pose proof (pow2_pos u) as Hpu.
    apply Qmult_le_compat_r; [|lra].
    rewrite <- Zle_Qle. apply round_half_even_mono.
    apply Qmult_le_compat_r; [exact Hxy|].
    apply Qlt_le_weak, Qinv_lt_0_compat, Hpu.
  - unfold ulp_exponent in Hu.
    set (bx := binade (Qabs x)) in *. set (by' := binade (Qabs y)) in *.
    rewrite Hax in Hxlo, Hxhi. rewrite Hay in Hylo, Hyhi.
    assert (Hlt : bx < by') by lia.
    assert (Hemin : emin <= by') by lia.
    apply Qle_trans with (2 ^ by')%Q.
    + apply round_binary_le_pow2; [exact Hemin | lra|].
      apply Qle_trans with (2 ^ (bx + 1))%Q; [lra | apply pow2_le; lia].
    + apply round_binary_ge_pow2; assumption.
Qed.

(** What [is_binary] says: the value is [m * 2^e] with [|m| < 2^prec] and
    [e] its unit in the last place. *)
Lemma is_binary_grid (q : Q) :
  is_binary prec emin q = true ->
  exists m : Z,
    (q == inject_Z m * 2 ^ ulp_exponent prec emin q)%Q
    /\ (~ (q == 0)%Q -> (Qabs (inject_Z m) < 2 ^ prec)%Q).
Proof using Hprec.
  unfold is_binary. intros Hb. apply Qeq_bool_iff in Hb.
  destruct (Qeq_dec q 0) as [Hz | Hnz].
  - exists 0. split; [|contradiction].
    change (inject_Z 0) with 0%Q. rewrite Qmult_0_l. exact Hz.
  - rewrite (round_binary_nonzero q Hnz) in Hb.
    set (u := ulp_exponent prec emin q) in *.
    exists (round_half_even (q / 2 ^ u)). split; [symmetry; exact Hb|].
    intros _. set (m := inject_Z (round_half_even (q / 2 ^ u))) in *.
    pose proof (pow2_pos u) as Hpu.
    destruct (binade_spec (Qabs q) (Qabs_nonzero q Hnz)) as [_ Hhi].
    assert (Hu : binade (Qabs q) + 1 <= prec + u) by (unfold u, ulp_exponent; lia).
    pose proof (pow2_le _ _ Hu) as Hle. rewrite (pow2_add prec) in Hle.
    assert (Habs : (Qabs q == Qabs m * 2 ^ u)%Q).
    { rewrite <- Hb, Qabs_Qmult, (Qabs_pos (2 ^ u)) by lra. reflexivity. }
    set (b := binade (Qabs q)) in *.
    rewrite Habs in Hhi.
    apply Qnot_le_lt. intros Hge.
    assert (H1 : (2 ^ prec * 2 ^ u <= Qabs m * 2 ^ u)%Q).
    { apply Qmult_le_compat_r; [exact Hge | lra]. }
    apply (Qlt_irrefl (Qabs m * 2 ^ u)).
    eapply Qlt_le_trans; [exact Hhi|]. eapply Qle_trans; [exact Hle | exact H1].
Qed.

End RoundBinary.

(** ** Float arithmetic of the checkers *)

Lemma FLOAT_TOLERANCE_value :
  (FLOAT_TOLERANCE == 4722366482869645 # 4722366482869645213696)%Q.
Proof. vm_compute. reflexivity. Qed.

Lemma pow2_m19 : (2 ^ (-19) == 1 # 524288)%Q.
Proof. reflexivity. Qed.

Lemma pow2_m20 : (2 ^ (-20) == 1 # 1048576)%Q.
Proof. reflexivity. Qed.

(** Subtracting 1 from a float close to 1 is exact (Sterbenz). *)
Lemma float_sub_near_one (prec emin : Z) (c : Q) :
  1 <= prec <= 53 -> -1074 <= emin <= 0 ->
  is_binary prec emin c = true ->
  (Qabs (c - 1) < 2 ^ (-19))%Q ->
  (float_sub c 1 == c - 1)%Q.
Proof.
  intros Hprec Hemin Hc Hnear.
  destruct (is_binary_grid prec emin ltac:(lia) c Hc) as [m [Hm _]].
  rewrite pow2_m19 in Hnear. apply Qabs_Qlt_condition in Hnear as [Hlo Hhi].
  assert (Hnz : ~ (c == 0)%Q) by (intros Hz; rewrite Hz in Hlo; lra).
  assert (Habs : (Qabs c == c)%Q) by (apply Qabs_pos; lra).
  assert (Hb : -1 <= binade (Qabs c) <= 0).
  { destruct (binade_spec (Qabs c) (Qabs_nonzero c Hnz)) as [Hblo Hbhi].
    set (b := binade (Qabs c)) in *. rewrite Habs in Hblo, Hbhi.
    assert (H1 : b < 1).
    { apply pow2_lt_inv. eapply Qle_lt_trans; [exact Hblo|].
      change (2 ^ 1)%Q with 2%Q. lra. }
    assert (H2 : -1 < b + 1).
    { apply pow2_lt_inv. eapply Qle_lt_trans; [|exact Hbhi].
      change (2 ^ (-1))%Q with (1 # 2)%Q. lra. }
    lia. }
  set (u := ulp_exponent prec emin c) in *.
  assert (Hu : -53 <= u <= 0) by (unfold u, ulp_exponent; lia).
  pose proof (pow2_pos u) as Hpu.
  assert (Hk : (c - 1 == inject_Z (m - 2 ^ (- u)) * 2 ^ u)%Q).
  { unfold Z.sub. rewrite inject_Z_plus, inject_Z_opp, <- pow2_Z by lia.
    rewrite Qmult_plus_distr_l, <- Hm.
    assert (H1 : (- 2 ^ (- u) * 2 ^ u == - 1)%Q).
    { rewrite Qpower_opp. field. intros Hz. rewrite Hz in Hpu. inversion Hpu. }
    rewrite H1. ring. }
  unfold float_sub, float_round.
  apply (round_binary_exact 53 (-1074) ltac:(lia) (c - 1) (m - 2 ^ (- u)) u);
    [exact Hk | | lia].
  set (k := inject_Z (m - 2 ^ (- u))) in *.
  assert (Hklt : (Qabs k * 2 ^ u < 2 ^ (-19))%Q).
  { rewrite <- (Qabs_pos (2 ^ u)), <- Qabs_Qmult, <- Hk by lra.
    rewrite pow2_m19. apply Qabs_Qlt_condition. split; lra. }
  apply Qlt_le_trans with (2 ^ (-19 - u))%Q.
  - rewrite pow2_sub. apply Qlt_shift_div_l; assumption.
  - apply pow2_le. lia.
Qed.

(** Subtracting 0 from a float is exact. *)
Lemma float_sub_zero (prec emin : Z) (c : Q) :
  1 <= prec <= 53 -> -1074 <= emin ->
  is_binary prec emin c = true ->
  (float_sub c 0 == c)%Q.
Proof.
  intros Hprec Hemin Hc.
  destruct (is_binary_grid prec emin ltac:(lia) c Hc) as [m [Hm Hbound]].
  assert (Hc0 : (c - 0 == c)%Q) by ring.
  unfold float_sub, float_round.
  destruct (Qeq_dec c 0) as [Hz | Hnz].
  - rewrite (round_binary_zero 53 (-1074) ltac:(lia) (c - 0)); [symmetry; exact Hz|].
    rewrite Hc0. exact Hz.
  - rewrite <- Hc0 at 2.
    apply (round_binary_exact 53 (-1074) ltac:(lia) (c - 0) m (ulp_exponent prec emin c)).
    + rewrite Hc0. exact Hm.
    + eapply Qlt_le_trans; [apply Hbound, Hnz | apply pow2_le; lia].
    + unfold ulp_exponent. lia.
Qed.

Lemma float_sub_far (a b : Q) (k : Z) :
  -1074 <= k -> (2 ^ k <= Qabs (a - b))%Q -> (2 ^ k <= Qabs (float_sub a b))%Q.
Proof.
  intros Hk Hfar. unfold float_sub, float_round.
  apply round_binary_abs_ge; [lia | exact Hk | exact Hfar].
Qed.

(** For a float, the tolerance test against 1 and against 0 is the exact
    comparison. *)
Lemma is_nearly_equal_one (prec emin : Z) (c : Q) :
  1 <= prec <= 53 -> -1074 <= emin <= 0 ->
  is_binary prec emin c = true ->
  is_nearly_equal c 1 FLOAT_TOLERANCE = true <-> (Qabs (c - 1) < FLOAT_TOLERANCE)%Q.
Proof.
  intros Hprec Hemin Hc. unfold is_nearly_equal. rewrite Qltb_lt.
  pose proof FLOAT_TOLERANCE_value as Ht. pose proof pow2_m19 as H19.
  destruct (Qlt_le_dec (Qabs (c - 1)) (2 ^ (-19))) as [Hnear | Hfar].
  - rewrite (float_sub_near_one prec emin c Hprec Hemin Hc Hnear). reflexivity.
  - pose proof (float_sub_far c 1 (-19) ltac:(lia) Hfar) as Hfar'.
    rewrite Ht. split; intros Hlt; exfalso; lra.
Qed.

Lemma is_nearly_equal_zero (prec emin : Z) (c : Q) :
  1 <= prec <= 53 -> -1074 <= emin ->
  is_binary prec emin c = true ->
  is_nearly_equal c 0 FLOAT_TOLERANCE = true <-> (Qabs (c - 0) < FLOAT_TOLERANCE)%Q.
Proof.
  intros Hprec Hemin Hc. unfold is_nearly_equal. rewrite Qltb_lt.
  rewrite (float_sub_zero prec emin c Hprec Hemin Hc).
  assert (Hc0 : (c - 0 == c)%Q) by ring. rewrite Hc0. reflexivity.
Qed.

(** Single-precision values around the tolerance: none deviates from 1 or
    from 0 by an amount between [2^-20] and the decimal [10^-6], where the
    tolerance lies. *)
Lemma float32_gap_at_one (c : Q) :
  is_float32 c = true -> (Qabs (c - 1) <= 1 # 1000000)%Q -> (Qabs (c - 1) <= 2 ^ (-20))%Q.
Proof.
  intros Hc Hnear. rewrite pow2_m20.
  destruct (is_binary_grid 24 (-149) ltac:(lia) c Hc) as [m [Hm _]].
  apply Qabs_Qle_condition in Hnear as [Hlo Hhi].
  assert (Hnz : ~ (c == 0)%Q) by (intros Hz; rewrite Hz in Hlo; lra).
  assert (Habs : (Qabs c == c)%Q) by (apply Qabs_pos; lra).
  apply Qabs_Qle_condition.
  destruct (Qlt_le_dec c 1) as [Hlt | Hge].
  - assert (Hb : binade (Qabs c) = -1).
    { apply binade_unique; rewrite Habs.
      - change (2 ^ (-1))%Q with (1 # 2)%Q. lra.
      - change (2 ^ (-1 + 1))%Q with 1%Q. exact Hlt. }
    unfold ulp_exponent in Hm. rewrite Hb in Hm.
    change (2 ^ Z.max (-1 - (24 - 1)) (-149))%Q with (1 # 16777216)%Q in Hm.
    assert (H1 : (inject_Z 16777199 < inject_Z m)%Q)
      by (change (inject_Z 16777199) with 16777199%Q; lra).
    assert (H2 : (inject_Z m < inject_Z 16777217)%Q)
      by (change (inject_Z 16777217) with 16777217%Q; lra).
    rewrite <- Zlt_Qlt in H1, H2.
    assert (H3 : (inject_Z 16777200 <= inject_Z m)%Q) by (rewrite <- Zle_Qle; lia).
    assert (H4 : (inject_Z m <= inject_Z 16777216)%Q) by (rewrite <- Zle_Qle; lia).
    change (inject_Z 16777200) with 16777200%Q in H3.
    change (inject_Z 16777216) with 16777216%Q in H4.
    split; lra.
  - assert (Hb : binade (Qabs c) = 0).
    { apply binade_unique; rewrite Habs.
      - change (2 ^ 0)%Q with 1%Q. exact Hge.
      - change (2 ^ (0 + 1))%Q with 2%Q. lra. }
    unfold ulp_exponent in Hm. rewrite Hb in Hm.
    change (2 ^ Z.max (0 - (24 - 1)) (-149))%Q with (1 # 8388608)%Q in Hm.
    assert (H1 : (inject_Z 8388599 < inject_Z m)%Q)
      by (change (inject_Z 8388599) with 8388599%Q; lra).
    assert (H2 : (inject_Z m < inject_Z 8388617)%Q)
      by (change (inject_Z 8388617) with 8388617%Q; lra).
    rewrite <- Zlt_Qlt in H1, H2.
    assert (H3 : (inject_Z 8388600 <= inject_Z m)%Q) by (rewrite <- Zle_Qle; lia).
    assert (H4 : (inject_Z m <= inject_Z 8388616)%Q) by (rewrite <- Zle_Qle; lia).
    change (inject_Z 8388600) with 8388600%Q in H3.
    change (inject_Z 8388616) with 8388616%Q in H4.
    split; lra.
Qed.

Lemma float32_gap_at_zero (c : Q) :
  is_float32 c = true -> (Qabs c <= 1 # 1000000)%Q ->
  (Qabs c <= 8796093 # 8796093022208)%Q.
Proof.
  intros Hc Hnear.
  destruct (Qlt_le_dec (Qabs c) (2 ^ (-20))) as [Hsmall | Hbig].
  - rewrite pow2_m20 in Hsmall. lra.
  - destruct (is_binary_grid 24 (-149) ltac:(lia) c Hc) as [m [Hm _]].
    assert (Hb : binade (Qabs c) = -20).
    { apply binade_unique; [exact Hbig|].
      change (2 ^ (-20 + 1))%Q with (1 # 524288)%Q. lra. }
    unfold ulp_exponent in Hm. rewrite Hb in Hm.
    change (2 ^ Z.max (-20 - (24 - 1)) (-149))%Q with (1 # 8796093022208)%Q in Hm.
    assert (Habs : (Qabs c == inject_Z (Z.abs m) * (1 # 8796093022208))%Q).
    { rewrite Hm, Qabs_Qmult. reflexivity. }
    rewrite Habs in *.
    assert (H2 : (inject_Z (Z.abs m) < inject_Z 8796094)%Q)
      by (change (inject_Z 8796094) with 8796094%Q; lra).
    rewrite <- Zlt_Qlt in H2.
    assert (H4 : (inject_Z (Z.abs m) <= inject_Z 8796093)%Q) by (rewrite <- Zle_Qle; lia).
    change (inject_Z 8796093) with 8796093%Q in H4. lra.
Qed.

Lemma round_ndigits_close (x : Q) (ndigits : nat) :
  (Qabs (round_ndigits x ndigits - x)
   <= (1 # 2) / inject_Z (10 ^ Z.of_nat ndigits))%Q.
Proof.
  unfold round_ndigits.
  set (p := inject_Z (10 ^ Z.of_nat ndigits)).
  assert (Hp : (0 < p)%Q).
  { unfold p. change 0%Q with (inject_Z 0). rewrite <- Zlt_Qlt.
    apply Z.pow_pos_nonneg; lia. }
  pose proof (round_half_even_close (x * p)) as Hc.
  set (r := inject_Z (round_half_even (x * p))) in *.
  assert (Heq : (r / p - x == (r - x * p) / p)%Q).
  { field. intros Hz. rewrite Hz in Hp. apply (Qlt_irrefl 0). exact Hp. }
  rewrite Heq. unfold Qdiv. rewrite Qabs_Qmult.
  assert (Hinv : (0 <= / p)%Q) by (apply Qlt_le_weak, Qinv_lt_0_compat, Hp).
  rewrite (Qabs_pos (/ p)) by exact Hinv.
  apply Qmult_le_compat_r; assumption.
Qed.

(** ** Ratios: [a / b] on [int]s followed by [round(x, 3)] *)

Lemma float_round_unit (r : Q) :
  (0 <= r)%Q -> (r <= 1)%Q ->
  (0 <= float_round r)%Q /\ (float_round r <= 1)%Q
  /\ (Qabs (float_round r - r) <= 1 # 9007199254740992)%Q.
Proof.
  intros H0 H1. unfold float_round. split; [|split].
  - apply round_binary_nonneg; [lia | exact H0].
  - apply (round_binary_le_pow2 53 (-1074) ltac:(lia) r 0); [lia | exact H0 | exact H1].
  - apply (round_binary_error 53 (-1074) ltac:(lia) r 1); [|lia].
    rewrite Qabs_pos by exact H0. change (2 ^ 1)%Q with 2%Q. lra.
Qed.

(** The ratio a finding reports: the double nearest to a multiple [k/1000],
    itself the multiple nearest to the double [a / b]. *)
Lemma reported_ratio (r : Q) :
  (0 <= r)%Q -> (r <= 1)%Q ->
  exists k : Z,
    0 <= k <= 1000
    /\ round_float (float_round r) 3 = float_round (inject_Z k / 1000)
    /\ (Qabs (inject_Z k / 1000 - r) <= (1 # 2000) + (1 # 9007199254740992))%Q
    /\ (Qabs (round_float (float_round r) 3 - r)
        <= (1 # 2000) + (1 # 4503599627370496))%Q.
Proof.
  intros H0 H1.
  destruct (float_round_unit r H0 H1) as [Hq0 [Hq1 Hqe]].
  set (q := float_round r) in *.
  pose proof (round_ndigits_close q 3) as Hx.
  unfold round_float. unfold round_ndigits in *.
  change (inject_Z (10 ^ Z.of_nat 3)) with 1000%Q in *.
  set (k := round_half_even (q * 1000)) in *.
  assert (Hk0 : 0 <= k).
  { apply round_half_even_ge. change (inject_Z 0) with 0%Q. lra. }
  assert (Hk1 : k <= 1000).
  { apply round_half_even_le. change (inject_Z 1000) with 1000%Q. lra. }
  assert (Hx0 : (0 <= inject_Z k / 1000)%Q).
  { apply Qle_shift_div_l; [reflexivity|]. rewrite Qmult_0_l.
    change 0%Q with (inject_Z 0). rewrite <- Zle_Qle. exact Hk0. }
  assert (Hx1 : (inject_Z k / 1000 <= 1)%Q).
  { apply Qle_shift_div_r; [reflexivity|]. rewrite Qmult_1_l.
    change 1000%Q with (inject_Z 1000). rewrite <- Zle_Qle. exact Hk1. }
  destruct (float_round_unit _ Hx0 Hx1) as [_ [_ Hye]].
  set (x := (inject_Z k / 1000)%Q) in *.
  set (y := float_round x) in *.
  exists k. split; [lia|]. split; [reflexivity|].
  change ((1 # 2) / 1000)%Q with (1 # 2000)%Q in Hx.
  apply Qabs_Qle_condition in Hqe, Hx, Hye.
  fold x. split; apply Qabs_Qle_condition; split; lra.
Qed.

Lemma ratio_unit (n total : Z) :
  0 <= n <= total -> 0 < total ->
  (0 <= inject_Z n / inject_Z total)%Q /\ (inject_Z n / inject_Z total <= 1)%Q.
Proof.
  intros Hn Ht.
  assert (Htot : (0 < inject_Z total)%Q).
  { change 0%Q with (inject_Z 0). rewrite <- Zlt_Qlt. exact Ht. }
  split.
  - apply Qle_shift_div_l; [exact Htot|]. rewrite Qmult_0_l.
    change 0%Q with (inject_Z 0). rewrite <- Zle_Qle. lia.
  - apply Qle_shift_div_r; [exact Htot|]. rewrite Qmult_1_l.
    rewrite <- Zle_Qle. lia.
Qed.

(** The test [ratio < 0.05] on the double [a / b] agrees with the exact
    comparison whenever fewer than five faces are counted. *)
Lemma ratio_at_least_threshold (n total : Z) :
  0 < total -> (5 # 100 <= inject_Z n / inject_Z total)%Q ->
  Qltb (int_truediv n total) (float_round (5 # 100)) = false.
Proof.
  intros Ht Hr. apply Qltb_ge. unfold int_truediv, float_round.
  apply round_binary_mono; [lia | reflexivity | exact Hr].
Qed.

Lemma ratio_below_threshold (n total : Z) :
  0 <= n < 5 -> 0 < total -> (inject_Z n / inject_Z total < 5 # 100)%Q ->
  Qltb (int_truediv n total) (float_round (5 # 100)) = true.
Proof.
  intros Hn Ht Hr. apply Qltb_lt.
  assert (Htot : (0 < inject_Z total)%Q).
  { change 0%Q with (inject_Z 0). rewrite <- Zlt_Qlt. exact Ht. }
  assert (Hz : 20 * n < total).
  { assert (Hmul : (inject_Z n < (5 # 100) * inject_Z total)%Q).
    { assert (Heq : (inject_Z n == inject_Z n / inject_Z total * inject_Z total)%Q).
      { field. intros Hz. rewrite Hz in Htot. inversion Htot. }
      rewrite Heq at 1. apply Qmult_lt_compat_r; assumption. }
    assert (H1 : (inject_Z (20 * n) < inject_Z total)%Q).
    { rewrite inject_Z_mult. change (inject_Z 20) with 20%Q. lra. }
    rewrite <- Zlt_Qlt in H1. exact H1. }
  assert (Hle : (inject_Z n / inject_Z total <= 4 # 81)%Q).
  { apply Qle_shift_div_r; [exact Htot|].
    assert (H1 : (inject_Z (81 * n) <= inject_Z (4 * total))%Q)
      by (rewrite <- Zle_Qle; lia).
    rewrite !inject_Z_mult in H1.
    change (inject_Z 81) with 81%Q in H1. change (inject_Z 4) with 4%Q in H1. lra. }
  destruct (ratio_unit n total ltac:(lia) Ht) as [Hr0 Hr1].
  destruct (float_round_unit _ Hr0 Hr1) as [_ [_ He]].
  unfold int_truediv.
  set (r := (inject_Z n / inject_Z total)%Q) in *.
  set (q := float_round r) in *.
  assert (Hd : (float_round (5 # 100) == 7205759403792794 # 144115188075855872)%Q)
    by (vm_compute; reflexivity).
  rewrite Hd. apply Qabs_Qle_condition in He. lra.
Qed.

(** ** The tolerance test on single-precision components *)

Lemma float32_scale_tolerance (c eps : Q) :
  is_float32 c = true ->
  (FLOAT_TOLERANCE <= eps)%Q -> (eps <= 1 # 1000000)%Q ->
  is_nearly_equal c 1 FLOAT_TOLERANCE = true <-> (Qabs (c - 1) <= eps)%Q.
Proof.
  intros Hc Hlo Hhi.
  rewrite (is_nearly_equal_one 24 (-149) c ltac:(lia) ltac:(lia) Hc).
  pose proof FLOAT_TOLERANCE_value as Ht. split.
  - intros Hlt. apply Qlt_le_weak. eapply Qlt_le_trans; eassumption.
  - intros Hle.
    assert (Hgap : (Qabs (c - 1) <= 2 ^ (-20))%Q).
    { apply float32_gap_at_one; [exact Hc|]. eapply Qle_trans; eassumption. }
    rewrite pow2_m20 in Hgap. rewrite Ht. lra.
Qed.

Lemma float32_rotation_tolerance (c eps : Q) :
  is_float32 c = true ->
  (FLOAT_TOLERANCE <= eps)%Q -> (eps <= 1 # 1000000)%Q ->
  is_nearly_equal c 0 FLOAT_TOLERANCE = true <-> (Qabs (c - 0) <= eps)%Q.
Proof.
  intros Hc Hlo Hhi.
  rewrite (is_nearly_equal_zero 24 (-149) c ltac:(lia) ltac:(lia) Hc).
  assert (Hc0 : (c - 0 == c)%Q) by ring. rewrite Hc0.
  pose proof FLOAT_TOLERANCE_value as Ht. split.
  - intros Hlt. apply Qlt_le_weak. eapply Qlt_le_trans; eassumption.
  - intros Hle.
    assert (Hgap : (Qabs c <= 8796093 # 8796093022208)%Q).
    { apply float32_gap_at_zero; [exact Hc|]. eapply Qle_trans; eassumption. }
    rewrite Ht. lra.
Qed.

Lemma is_nearly_equal_false (a b tol : Q) :
  is_nearly_equal a b tol = false <-> ~ is_nearly_equal a b tol = true.
Proof. destruct (is_nearly_equal a b tol); split; congruence. Qed.

Lemma Forall_iff_on {A : Type} (P Q1 Q2 : A -> Prop) (l : list A) :
  Forall P l -> (forall x, P x -> (Q1 x <-> Q2 x)) ->
  (Forall Q1 l <-> Forall Q2 l).
Proof.
  intros HP Hiff. induction HP as [|x l Hx _ IH]; [split; constructor|].
  rewrite !Forall_cons, IH, (Hiff x Hx). reflexivity.
Qed.

Lemma Exists_iff_on {A : Type} (P Q1 Q2 : A -> Prop) (l : list A) :
  Forall P l -> (forall x, P x -> (Q1 x <-> Q2 x)) ->
  (Exists Q1 l <-> Exists Q2 l).
Proof.
  intros HP Hiff. induction HP as [|x l Hx _ IH].
  - split; intros Hx; inversion Hx.
  - rewrite !Exists_cons, IH, (Hiff x Hx). reflexivity.
Qed.

Lemma create_result_ok (self_name : string) (dflt : Severity) (obj : Object)
    (msg : string) (sev : Severity) (det : dict value) (hint : option string) :
  is_empty self_name = false ->
  is_empty msg = false ->
  create_result self_name dflt obj msg (Some sev) (Some det) hint
  = ret (mkValidationResult self_name sev (name obj) msg det hint).
Proof.
  intros Hn Hm. unfold create_result, ValidationResult_new.
  rewrite Hn, Hm. reflexivity.
Qed.

Lemma str_int_nonempty (i : Z) : is_empty (str_int i) = false.
Proof.
  unfold str_int. destruct (Z.to_int i) as [d | d]; simpl.
  - destruct d; reflexivity.
  - reflexivity.
Qed.

Lemma is_empty_app_l (s t : string) : is_empty s = false -> is_empty (s +:+ t) = false.
Proof. destruct s; simpl; [discriminate | reflexivity]. Qed.

Lemma count_message_nonempty (i : Z) (t : string) : is_empty (str_int i +:+ t) = false.
Proof. apply is_empty_app_l, str_int_nonempty. Qed.

(** ** core/result.py *)

(** C7, as stated, fails: a result whose [object_name] is the empty string
    is constructed without error. *)
Lemma ValidationResult_empty_object_name_constructs :
  ValidationResult_new "Transform" WARNING "" "Unapplied scale" [] None
  = inr (mkValidationResult "Transform" WARNING "" "Unapplied scale" [] None)
  /\ ~ (exists e, ValidationResult_new "Transform" WARNING "" "Unapplied scale" [] None
                 = inl e).
Proof.
  split; [reflexivity|]. intros [e He]. discriminate He.
Qed.

(** C7 (amended): constructing a [ValidationResult] raises exactly when
    [checker_name] or [message] is empty; otherwise it returns the record of
    its arguments, whose [checker_name] and [message] are therefore
    non-empty.  [object_name] is not inspected. *)
Theorem ValidationResult_post_init
    (cn : string) (sev : Severity) (on msg : string) (det : dict value)
    (hint : option string) :
  ((exists e, ValidationResult_new cn sev on msg det hint = inl e)
   <-> (cn = EmptyString \/ msg = EmptyString))
  /\ (forall r, ValidationResult_new cn sev on msg det hint = inr r ->
              r = mkValidationResult cn sev on msg det hint
              /\ checker_name r <> EmptyString /\ message r <> EmptyString).
Proof.
  unfold ValidationResult_new.
  destruct cn as [|c cn']; simpl.
  - split.
    + split; [intros _; left; reflexivity | intros _; eexists; reflexivity].
    + intros r Hr. discriminate Hr.
  - destruct msg as [|m msg']; simpl.
    + split.
      * split; [intros _; right; reflexivity | intros _; eexists; reflexivity].
      * intros r Hr. discriminate Hr.
    + split.
      * split.
        -- intros [e He]. discriminate He.
        -- intros [Hc | Hm]; discriminate.
      * intros r Hr. injection Hr as <-. simpl. repeat split; discriminate.
Qed.

(** ** core/base_checker.py *)

(** C6, as stated, fails: a truthy flag under [exclude_material] does not
    exclude the material checker, which supports exclusion. *)
Lemma is_excluded_ignores_short_key :
  supports_exclusion MaterialChecker = true
  /\ get_id MaterialChecker = "material"%string
  /\ custom_properties flagged_with_short_key !! ("exclude_" +:+ get_id MaterialChecker)
     = Some (VBool true)
  /\ truthy (VBool true) = true
  /\ is_excluded MaterialChecker flagged_with_short_key = VBool false.
Proof. vm_compute. repeat split. Qed.

(** C6 (amended): [is_excluded] is truthy exactly when the checker supports
    exclusion and the custom properties hold a truthy value under
    [unity_validator_exclude_<checker id>]; a checker that does not support
    exclusion returns [False]. *)
Theorem is_excluded_spec (self : BaseChecker) (obj : Object) :
  (truthy (is_excluded self obj) = true
   <-> supports_exclusion self = true
       /\ exists v, custom_properties obj !! ("unity_validator_exclude_" +:+ get_id self)
                    = Some v
                  /\ truthy v = true)
  /\ (supports_exclusion self = false -> is_excluded self obj = VBool false).
Proof.
  unfold is_excluded, obj_get.
  destruct (supports_exclusion self); simpl.
  - split; [|discriminate].
    destruct (custom_properties obj !! _) as [v|] eqn:E.
    + split.
      * intros Hv. split; [reflexivity|]. exists v. split; [reflexivity | exact Hv].
      * intros [_ [v' [Hv' Ht]]]. injection Hv' as <-. exact Ht.
    + split.
      * simpl. discriminate.
      * intros [_ [v' [Hv' _]]]. discriminate Hv'.
  - split; [|reflexivity]. split.
    + discriminate.
    + intros [Hf _]. discriminate Hf.
Qed.

(** ** core/registry.py *)

Lemma dict_setitem_fresh {V : Type} (d : dict V) (k : string) (v : V) :
  dict_get d k = None -> dict_setitem d k v = d ++ [(k, v)].
Proof.
  induction d as [|[k' v'] d IH]; simpl; intros Hget; [reflexivity|].
  destruct (String.eqb k' k); [discriminate Hget|].
  rewrite IH by exact Hget. reflexivity.
Qed.

Lemma dict_setitem_present {V : Type} (d1 d2 : dict V) (k : string) (v v' : V) :
  dict_get d1 k = None ->
  dict_setitem (d1 ++ (k, v) :: d2) k v' = d1 ++ (k, v') :: d2.
Proof.
  induction d1 as [|[k1 v1] d1 IH]; simpl; intros Hget.
  - rewrite String.eqb_refl. reflexivity.
  - destruct (String.eqb k1 k); [discriminate Hget|].
    rewrite IH by exact Hget. reflexivity.
Qed.

Lemma dict_get_app {V : Type} (d1 d2 : dict V) (k : string) :
  dict_get (d1 ++ d2) k
  = match dict_get d1 k with Some v => Some v | None => dict_get d2 k end.
Proof.
  induction d1 as [|[k1 v1] d1 IH]; simpl; [reflexivity|].
  destruct (String.eqb k1 k); [reflexivity | exact IH].
Qed.

Lemma dict_setitem_split {V : Type} (d : dict V) (k : string) (v : V) :
  exists d1 d2,
    dict_setitem d k v = d1 ++ (k, v) :: d2 /\ dict_get d1 k = None.
Proof.
  induction d as [|[k' v'] d IH]; simpl.
  - exists [], []. split; reflexivity.
  - destruct (String.eqb k' k) eqn:E.
    + apply String.eqb_eq in E. subst k'.
      exists [], d. split; reflexivity.
    + destruct IH as [d1 [d2 [Hset Hget]]].
      exists ((k', v') :: d1), d2. simpl. rewrite E, Hset. split; [reflexivity | exact Hget].
Qed.

Lemma dict_get_setitem_other {V : Type} (d : dict V) (k k' : string) (v : V) :
  k <> k' -> dict_get (dict_setitem d k v) k' = dict_get d k'.
Proof.
  intros Hne. induction d as [|[k1 v1] d IH]; simpl.
  - destruct (String.eqb k k') eqn:E; [|reflexivity].
    apply String.eqb_eq in E. contradiction.
  - destruct (String.eqb k1 k) eqn:E1; simpl.
    + apply String.eqb_eq in E1. subst k1.
      destruct (String.eqb k k') eqn:E; [|reflexivity].
      apply String.eqb_eq in E. contradiction.
    + destruct (String.eqb k1 k'); [reflexivity | exact IH].
Qed.

Lemma BaseChecker_init_ok (cls : BaseChecker) :
  instantiable cls -> BaseChecker_init cls = ret cls.
Proof.
  intros [Hn Hd]. unfold BaseChecker_init. rewrite Hn, Hd. reflexivity.
Qed.

Lemma register_ok (c : BaseChecker) (reg : CheckerRegistry) :
  instantiable c ->
  exists reg',
    register c reg = inr reg'
    /\ _checkers reg' = dict_setitem (_checkers reg) (get_id c) c
    /\ (dict_contains (_checkers reg) (get_id c) = true ->
        In ("WARNING"%string,
            "Checker '" +:+ get_id c +:+ "' already registered, overwriting")
           (logged reg')).
Proof.
  intros Hc. unfold register, instantiate. rewrite (BaseChecker_init_ok c Hc). simpl.
  eexists. split; [reflexivity|]. simpl. split; [reflexivity|].
  intros Hin. rewrite Hin. apply in_or_app. left. apply in_or_app. right.
  left. reflexivity.
Qed.

(** C10: let [a] and [a'] share an id that differs from the id of [b],
    and let the id of [b] be new to the registry.  After [register(a)],
    [register(b)], [register(a')], the enumeration of ids is what it was
    before the third call, the overwrite has been logged as a warning, and
    [get_all()] is what it was with [a'] in the place of [a]: [a'] comes
    before [b], which is last. *)
Theorem register_duplicate_keeps_position
    (a b a' : BaseChecker) (reg : CheckerRegistry) :
  instantiable a -> instantiable b -> instantiable a' ->
  get_id a' = get_id a ->
  get_id b <> get_id a ->
  dict_get (_checkers reg) (get_id b) = None ->
  exists r2 r3 before between,
    (r1 <-- register a reg ;; register b r1) = inr r2
    /\ register a' r2 = inr r3
    /\ get_all r2 = before ++ a :: between ++ [b]
    /\ get_all r3 = before ++ a' :: between ++ [b]
    /\ get_ids r3 = get_ids r2
    /\ In ("WARNING"%string,
           "Checker '" +:+ get_id a +:+ "' already registered, overwriting")
          (logged r3).
Proof.
  intros Ha Hb Ha' Hid Hne Hfb.
  destruct (register_ok a reg Ha) as [r1 [E1 [C1 _]]].
  destruct (register_ok b r1 Hb) as [r2 [E2 [C2 _]]].
  destruct (register_ok a' r2 Ha') as [r3 [E3 [C3 W3]]].
  destruct (dict_setitem_split (_checkers reg) (get_id a) a) as [d1 [d2 [Hsplit Hd1]]].
  rewrite Hsplit in C1.
  assert (Hb1 : dict_get (_checkers r1) (get_id b) = None).
  { rewrite C1, <- Hsplit, dict_get_setitem_other by congruence. exact Hfb. }
  rewrite dict_setitem_fresh in C2 by exact Hb1.
  rewrite C1 in C2. rewrite <- app_assoc in C2. simpl in C2.
  assert (Hin : dict_contains (_checkers r2) (get_id a') = true).
  { rewrite C2, Hid. unfold dict_contains. rewrite dict_get_app, Hd1. simpl.
    rewrite String.eqb_refl. reflexivity. }
  specialize (W3 Hin). rewrite Hid in W3.
  rewrite C2, Hid in C3.
  rewrite dict_setitem_present in C3 by exact Hd1.
  exists r2, r3, (dict_values d1), (dict_values d2).
  rewrite E1. simpl. split; [exact E2|]. split; [exact E3|].
  unfold get_all, get_ids, dict_values, dict_keys. rewrite C2, C3.
  rewrite !map_app. simpl. rewrite !map_app. simpl.
  repeat split. exact W3.
Qed.

Lemma register_duplicate_keeps_position_witness :
  exists r2 r3 before between,
    (r1 <-- register (TransformChecker TransformConfig_default) registry_empty ;;
     register MaterialChecker r1) = inr r2
    /\ register renamed_transform_class r2 = inr r3
    /\ get_all r2
       = before ++ TransformChecker TransformConfig_default :: between ++ [MaterialChecker]
    /\ get_all r3 = before ++ renamed_transform_class :: between ++ [MaterialChecker]
    /\ get_ids r3 = get_ids r2
    /\ In ("WARNING"%string,
           "Checker '" +:+ get_id (TransformChecker TransformConfig_default)
             +:+ "' already registered, overwriting")
          (logged r3).
Proof.
  apply (register_duplicate_keeps_position
           (TransformChecker TransformConfig_default) MaterialChecker
           renamed_transform_class registry_empty).
  - split; reflexivity.
  - split; reflexivity.
  - split; reflexivity.
  - reflexivity.
  - vm_compute. discriminate.
  - reflexivity.
Defined.

Example reregistration_order :
  exists r3,
    (r1 <-- register (TransformChecker TransformConfig_default) registry_empty ;;
     r2 <-- register MaterialChecker r1 ;;
     register renamed_transform_class r2) = inr r3
    /\ get_all r3 = [renamed_transform_class; MaterialChecker]
    /\ get_ids r3 = ["transform"; "material"]%string.
Proof.
  eexists. split; [reflexivity|]. split; reflexivity.
Qed.

(** ** checkers/transform.py *)

Section TransformProperties.
Context `{Host}.

Lemma is_vector_nearly_equal_Forall (vec : Vector) (t tol : Q) :
  is_vector_nearly_equal vec [t; t; t] tol = true
  <-> Forall (fun c => is_nearly_equal c t tol = true) (components vec).
Proof.
  unfold is_vector_nearly_equal, components. simpl.
  rewrite !andb_true_iff, !Forall_cons.
  split.
  - intros [Hx [Hy [Hz _]]]. repeat split; try assumption. constructor.
  - intros [Hx [Hy [Hz _]]]. repeat split; assumption.
Qed.

Lemma is_vector_nearly_equal_Exists (vec : Vector) (t tol : Q) :
  is_vector_nearly_equal vec [t; t; t] tol = false
  <-> Exists (fun c => is_nearly_equal c t tol = false) (components vec).
Proof.
  unfold is_vector_nearly_equal, components. simpl.
  rewrite !andb_false_iff, !Exists_cons. split.
  - intros [Hx | [Hy | [Hz | Hf]]]; auto. discriminate Hf.
  - intros [Hx | [Hy | [Hz | Hf]]]; auto. inversion Hf.
Qed.

Lemma _check_unapplied_scale_eq (obj : Object) :
  _check_unapplied_scale obj
  = if is_vector_nearly_equal (scale obj) [1; 1; 1]%Q FLOAT_TOLERANCE then ret None
    else ret (Some (mkValidationResult TransformChecker_name WARNING (name obj)
                      ("Unapplied scale: (" +:+ format_float ".3f" (vx (scale obj))
                         +:+ ", " +:+ format_float ".3f" (vy (scale obj))
                         +:+ ", " +:+ format_float ".3f" (vz (scale obj)) +:+ ")")
                      [("scale", tuple_of_vector (scale obj));
                       ("expected", VTuple [VFloat 1; VFloat 1; VFloat 1])]
                      (Some "Apply scale with Ctrl+A > Scale"))).
Proof.
  unfold _check_unapplied_scale.
  destruct (is_vector_nearly_equal _ _ _); reflexivity.
Qed.

Lemma _check_unapplied_rotation_eq (obj : Object) :
  _check_unapplied_rotation obj
  = if is_vector_nearly_equal (rotation_euler obj) [0; 0; 0]%Q FLOAT_TOLERANCE
    then ret None
    else
      let rot_degrees := map to_degrees (components (rotation_euler obj)) in
      ret (Some (mkValidationResult TransformChecker_name INFO (name obj)
                   ("Unapplied rotation: ("
                      +:+ repr_float (to_degrees (vx (rotation_euler obj)))
                      +:+ "°, "
                      +:+ repr_float (to_degrees (vy (rotation_euler obj)))
                      +:+ "°, "
                      +:+ repr_float (to_degrees (vz (rotation_euler obj)))
                      +:+ "°)")
                   [("rotation_euler", tuple_of_vector (rotation_euler obj));
                    ("rotation_degrees", VTuple (map VFloat rot_degrees));
                    ("expected", VTuple [VFloat 0; VFloat 0; VFloat 0])]
                   (Some "Apply rotation with Ctrl+A > Rotation (if needed)"))).
Proof.
  unfold _check_unapplied_rotation.
  destruct (is_vector_nearly_equal _ _ _); reflexivity.
Qed.

(** C4: let the components of the scale and of the rotation be
    single-precision values, as the host stores them, and let [eps] be the
    tolerance 1e-6, read as the double [FLOAT_TOLERANCE] of the code, as the
    decimal [10^-6], or as anything in between.  The unapplied-scale finding
    is absent exactly when every scale component differs from 1 by at most
    [eps], and present (as a WARNING) exactly when some component differs by
    more than [eps]; likewise for the unapplied-rotation finding (an INFO)
    and 0.  Although the code compares with [<], a deviation of exactly
    [eps] never triggers the finding: no single-precision value deviates
    from 1 or from 0 by an amount between [FLOAT_TOLERANCE] and [10^-6]. *)
Theorem unapplied_transform_tolerance (obj : Object) (eps : Q) :
  Forall (fun c => is_float32 c = true) (components (scale obj)) ->
  Forall (fun c => is_float32 c = true) (components (rotation_euler obj)) ->
  (FLOAT_TOLERANCE <= eps)%Q -> (eps <= 1 # 1000000)%Q ->
  (_check_unapplied_scale obj = inr None
   <-> Forall (fun c => (Qabs (c - 1) <= eps)%Q) (components (scale obj)))
  /\ ((exists r, _check_unapplied_scale obj = inr (Some r) /\ severity r = WARNING)
      <-> Exists (fun c => (eps < Qabs (c - 1))%Q) (components (scale obj)))
  /\ (_check_unapplied_rotation obj = inr None
      <-> Forall (fun c => (Qabs (c - 0) <= eps)%Q)
                 (components (rotation_euler obj)))
  /\ ((exists r, _check_unapplied_rotation obj = inr (Some r) /\ severity r = INFO)
      <-> Exists (fun c => (eps < Qabs (c - 0))%Q)
                 (components (rotation_euler obj))).
Proof.
  intros Hs Hr Hlo Hhi.
  assert (HsF : is_vector_nearly_equal (scale obj) [1; 1; 1]%Q FLOAT_TOLERANCE = true
                <-> Forall (fun c => (Qabs (c - 1) <= eps)%Q) (components (scale obj))).
  { rewrite is_vector_nearly_equal_Forall. apply (Forall_iff_on _ _ _ _ Hs).
    intros c Hc. apply float32_scale_tolerance; assumption. }
  assert (HsE : is_vector_nearly_equal (scale obj) [1; 1; 1]%Q FLOAT_TOLERANCE = false
                <-> Exists (fun c => (eps < Qabs (c - 1))%Q) (components (scale obj))).
  { rewrite is_vector_nearly_equal_Exists. apply (Exists_iff_on _ _ _ _ Hs).
    intros c Hc. rewrite is_nearly_equal_false.
    rewrite (float32_scale_tolerance c eps Hc Hlo Hhi).
    split; [apply Qnot_le_lt | apply Qlt_not_le]. }
  assert (HrF : is_vector_nearly_equal (rotation_euler obj) [0; 0; 0]%Q FLOAT_TOLERANCE = true
                <-> Forall (fun c => (Qabs (c - 0) <= eps)%Q)
                           (components (rotation_euler obj))).
  { rewrite is_vector_nearly_equal_Forall. apply (Forall_iff_on _ _ _ _ Hr).
    intros c Hc. apply float32_rotation_tolerance; assumption. }
  assert (HrE : is_vector_nearly_equal (rotation_euler obj) [0; 0; 0]%Q FLOAT_TOLERANCE = false
                <-> Exists (fun c => (eps < Qabs (c - 0))%Q)
                           (components (rotation_euler obj))).
  { rewrite is_vector_nearly_equal_Exists. apply (Exists_iff_on _ _ _ _ Hr).
    intros c Hc. rewrite is_nearly_equal_false.
    rewrite (float32_rotation_tolerance c eps Hc Hlo Hhi).
    split; [apply Qnot_le_lt | apply Qlt_not_le]. }
  rewrite _check_unapplied_scale_eq, _check_unapplied_rotation_eq.
  rewrite <- HsF, <- HsE, <- HrF, <- HrE.
  destruct (is_vector_nearly_equal (scale obj) _ _);
    destruct (is_vector_nearly_equal (rotation_euler obj) _ _); cbv zeta;
    repeat split; try reflexivity; try discriminate;
    try (intros [r [Hr' _]]; discriminate Hr');
    try (intros _; eexists; split; reflexivity).
Qed.

End TransformProperties.

Lemma unapplied_transform_tolerance_witness :
  (_check_unapplied_scale nudged = inr None
   <-> Forall (fun c => (Qabs (c - 1) <= 1 # 1000000)%Q) (components (scale nudged)))
  /\ ((exists r, _check_unapplied_scale nudged = inr (Some r) /\ severity r = WARNING)
      <-> Exists (fun c => (1 # 1000000 < Qabs (c - 1))%Q) (components (scale nudged)))
  /\ (_check_unapplied_rotation nudged = inr None
      <-> Forall (fun c => (Qabs (c - 0) <= 1 # 1000000)%Q)
                 (components (rotation_euler nudged)))
  /\ ((exists r, _check_unapplied_rotation nudged = inr (Some r) /\ severity r = INFO)
      <-> Exists (fun c => (1 # 1000000 < Qabs (c - 0))%Q)
                 (components (rotation_euler nudged))).
Proof.
  apply (unapplied_transform_tolerance nudged (1 # 1000000)).
  - repeat (constructor; [vm_compute; reflexivity|]). constructor.
  - repeat (constructor; [vm_compute; reflexivity|]). constructor.
  - vm_compute. discriminate.
  - vm_compute. discriminate.
Defined.

(** Single-precision components on either side of the tolerance: a scale
    nine units in the last place above 1 is reported, a rotation of [2^-20]
    is not. *)
Example nudged_transform :
  exists w,
    TransformChecker_check TransformConfig_default nudged = inr [w]
    /\ severity w = WARNING
    /\ message w = "Unapplied scale: (1.000, 1.000, 1.000)"%string.
Proof.
  eexists. split; [vm_compute; reflexivity|]. split; reflexivity.
Qed.

(** On doubles that are not single-precision values the boundary is that of
    the code: the double [1.000001] is within the tolerance of 1 because the
    subtraction gives less than the double [1e-6], and the double [1e-6]
    itself is not within the tolerance of 0. *)
Example tolerance_on_doubles :
  is_nearly_equal (float_round (1000001 # 1000000)) 1 FLOAT_TOLERANCE = true
  /\ is_nearly_equal FLOAT_TOLERANCE 0 FLOAT_TOLERANCE = false
  /\ is_float32 FLOAT_TOLERANCE = false
  /\ is_float32 (float_round (1000001 # 1000000)) = false.
Proof. repeat split; vm_compute; reflexivity. Qed.

Section NegativeScale.
Context `{Host}.

Lemma _check_negative_scale_eq (obj : Object) :
  _check_negative_scale obj
  = let negative_axes :=
      (if Qltb (vx (scale obj)) 0 then ["X"%string] else [])
        ++ (if Qltb (vy (scale obj)) 0 then ["Y"%string] else [])
        ++ (if Qltb (vz (scale obj)) 0 then ["Z"%string] else []) in
    if non_empty negative_axes then
      ret (Some (mkValidationResult TransformChecker_name ERROR (name obj)
                   ("Negative scale on " +:+ join ", " negative_axes +:+ " axis")
                   [("scale", tuple_of_vector (scale obj));
                    ("negative_axes", VList (map VStr negative_axes));
                    ("normals_inverted", VBool (len negative_axes mod 2 =? 1))]
                   (Some "Apply scale with Ctrl+A > Scale, or use Object > Apply > Scale")))
    else ret None.
Proof.
  unfold _check_negative_scale.
  destruct (Qltb (vx (scale obj)) 0), (Qltb (vy (scale obj)) 0),
    (Qltb (vz (scale obj)) 0); reflexivity.
Qed.

Lemma negative_axis_count_pos (s : Vector) :
  Exists (fun c => (c < 0)%Q) (components s) -> 0 < negative_axis_count s.
Proof.
  unfold negative_axis_count, count_if, components. simpl.
  rewrite !Exists_cons, <- !Qltb_lt.
  intros [Hx | [Hy | [Hz | Hnil]]]; [| | |inversion Hnil].
  - rewrite Hx. destruct (Qltb (vy s) 0), (Qltb (vz s) 0); lia.
  - rewrite Hy. destruct (Qltb (vx s) 0), (Qltb (vz s) 0); lia.
  - rewrite Hz. destruct (Qltb (vx s) 0), (Qltb (vy s) 0); lia.
Qed.

(** The findings that follow the negative-scale finding in [check]. *)
Lemma transform_rest_has_no_parity (self : TransformConfig) (obj : Object)
    (results : list ValidationResult) :
  exists rest,
    (results <--
       (if check_scale self then
          scale_result <-- _check_unapplied_scale obj ;;
          ret (append_if results scale_result)
        else ret results) ;;
     results <--
       (if check_rotation self then
          rotation_result <-- _check_unapplied_rotation obj ;;
          ret (append_if results rotation_result)
        else ret results) ;;
     ret results) = inr (results ++ rest)
    /\ Forall (fun r' => dict_get (details r') "normals_inverted" = None) rest.
Proof.
  rewrite _check_unapplied_scale_eq, _check_unapplied_rotation_eq.
  destruct (is_vector_nearly_equal (scale obj) _ _);
    destruct (is_vector_nearly_equal (rotation_euler obj) _ _);
    destruct (check_scale self), (check_rotation self);
    cbv zeta; unfold bind, ret, append_if;
    rewrite <- ?app_assoc;
    (eexists; split;
     [ first [ reflexivity | apply (f_equal inr); symmetry; apply app_nil_r ]
     | repeat constructor ]).
Qed.

(** C3: when some scale component is negative, [check] starts with exactly
    one negative-scale finding, of severity ERROR whatever the number of
    negative axes; its [normals_inverted] detail is [True] exactly when the
    number of negative axes is odd; no other finding of the checker carries
    that detail. *)
Theorem negative_scale_parity (self : TransformConfig) (obj : Object) :
  check_negative_scale self = true ->
  Exists (fun c => (c < 0)%Q) (components (scale obj)) ->
  exists r rest,
    _check_negative_scale obj = inr (Some r)
    /\ TransformChecker_check self obj = inr (r :: rest)
    /\ severity r = ERROR
    /\ dict_get (details r) "normals_inverted"
       = Some (VBool (Z.odd (negative_axis_count (scale obj))))
    /\ Forall (fun r' => dict_get (details r') "normals_inverted" = None) rest.
Proof.
  intros Hcfg Hneg. apply negative_axis_count_pos in Hneg.
  unfold TransformChecker_check. rewrite Hcfg.
  rewrite _check_negative_scale_eq.
  unfold negative_axis_count, count_if, components in *.
  simpl in Hneg. cbn [fold_left map Z.odd].
  destruct (Qltb (vx (scale obj)) 0), (Qltb (vy (scale obj)) 0),
    (Qltb (vz (scale obj)) 0); simpl in Hneg; try lia;
    cbv zeta; simpl non_empty; cbv iota;
    (match goal with
     | |- context [ret (Some ?r0)] =>
         destruct (transform_rest_has_no_parity self obj [r0]) as [rest [Hrest Hall]];
         exists r0, rest; split; [reflexivity|]; split;
         [ exact Hrest | repeat split; exact Hall ]
     end).
Qed.

End NegativeScale.

Lemma negative_scale_parity_witness :
  (exists r rest,
     _check_negative_scale mirrored_x = inr (Some r)
     /\ TransformChecker_check TransformConfig_default mirrored_x = inr (r :: rest)
     /\ severity r = ERROR
     /\ dict_get (details r) "normals_inverted"
        = Some (VBool (Z.odd (negative_axis_count (scale mirrored_x))))
     /\ Forall (fun r' => dict_get (details r') "normals_inverted" = None) rest)
  /\ Z.odd (negative_axis_count (scale mirrored_x)) = true.
Proof.
  split.
  - apply (negative_scale_parity TransformConfig_default mirrored_x).
    + reflexivity.
    + left. reflexivity.
  - vm_compute. reflexivity.
Defined.

Example negative_scale_two_axes :
  exists r rest,
    TransformChecker_check TransformConfig_default mirrored_xy = inr (r :: rest)
    /\ severity r = ERROR
    /\ message r = "Negative scale on X, Y axis"%string
    /\ dict_get (details r) "normals_inverted" = Some (VBool false).
Proof.
  eexists. eexists. split; [vm_compute; reflexivity|]. repeat split.
Qed.

(** ** checkers/materials.py *)

Lemma enumerate_from_indices {A : Type} (l : list A) (start : Z) :
  map fst (enumerate_from start l)
  = map (fun k => start + Z.of_nat k) (seq 0 (length l)).
Proof.
  revert start. induction l as [|x l IH]; intros start; simpl; [reflexivity|].
  f_equal; [lia|].
  rewrite IH, <- seq_shift, map_map.
  apply map_ext. intros k. lia.
Qed.

Lemma find_empty_loop_all_empty (items : list (Z * MaterialSlot)) (acc : list Z) :
  Forall (fun it => material (snd it) = None) items ->
  fold_left
    (fun empty '(i, slot) =>
       match material slot with
       | None => empty ++ [i]
       | Some _ => empty
       end) items acc
  = acc ++ map fst items.
Proof.
  revert acc. induction items as [|[i slot] items IH]; intros acc Hall; simpl.
  - symmetry. apply app_nil_r.
  - apply Forall_cons in Hall as [Hhd Htl]. simpl in Hhd. rewrite Hhd.
    rewrite IH by exact Htl. rewrite <- app_assoc. reflexivity.
Qed.

Lemma find_unused_loop_all_empty (used : gset Z) (items : list (Z * MaterialSlot))
    (acc : list Z) :
  Forall (fun it => material (snd it) = None) items ->
  fold_left
    (fun unused '(i, slot) =>
       match material slot with
       | Some _ => if bool_decide (i ∈ used) then unused else unused ++ [i]
       | None => unused
       end) items acc
  = acc.
Proof.
  revert acc. induction items as [|[i slot] items IH]; intros acc Hall; simpl.
  - reflexivity.
  - apply Forall_cons in Hall as [Hhd Htl]. simpl in Hhd. rewrite Hhd.
    apply IH. exact Htl.
Qed.

Lemma enumerate_from_snd {A : Type} (P : A -> Prop) (l : list A) (start : Z) :
  Forall P l -> Forall (fun it => P (snd it)) (enumerate_from start l).
Proof.
  revert start. induction l as [|x l IH]; intros start Hall; simpl.
  - constructor.
  - apply Forall_cons in Hall as [Hhd Htl]. constructor; [exact Hhd | apply IH, Htl].
Qed.

Lemma forallb_all_empty (slots : list MaterialSlot) :
  Forall (fun s => material s = None) slots ->
  forallb (fun slot => match material slot with None => true | Some _ => false end)
          slots = true.
Proof.
  induction 1 as [|s slots Hs _ IH]; simpl; [reflexivity|].
  rewrite Hs. exact IH.
Qed.

(** C9: a mesh object that has material slots, all of them empty, gets
    exactly two findings from the material checker, in this order: a
    WARNING whose [empty_slot_indices] are all the slot indices
    [0, ..., n-1], and an ERROR saying that all material slots are empty. *)
Theorem all_slots_empty_two_findings (obj : Object) :
  type obj = "MESH"%string ->
  material_slots obj <> [] ->
  Forall (fun s => material s = None) (material_slots obj) ->
  exists w e,
    MaterialChecker_check obj = inr [w; e]
    /\ severity w = WARNING
    /\ dict_get (details w) "empty_slot_indices"
       = Some (VList (map VInt (map Z.of_nat (seq 0 (length (material_slots obj))))))
    /\ severity e = ERROR
    /\ message e = "All material slots are empty"%string.
Proof.
  intros Htype Hslots Hall.
  unfold MaterialChecker_check. rewrite Htype. simpl String.eqb. cbv iota.
  simpl negb at 1. cbv iota.
  assert (Hempty : _find_empty_slots obj
                   = map Z.of_nat (seq 0 (length (material_slots obj)))).
  { unfold _find_empty_slots, enumerate.
    rewrite find_empty_loop_all_empty
      by (apply (enumerate_from_snd (fun s => material s = None)); exact Hall).
    simpl. rewrite enumerate_from_indices. apply map_ext. intros k. lia. }
  assert (Hunused : _find_unused_slots obj (data obj) = []).
  { unfold _find_unused_slots. destruct (negb (non_empty _)); [reflexivity|].
    apply find_unused_loop_all_empty.
    apply (enumerate_from_snd (fun s => material s = None)). exact Hall. }
  rewrite Hempty, Hunused, (forallb_all_empty _ Hall).
  destruct (material_slots obj) as [|s0 slots] eqn:Es; [congruence|].
  cbv zeta. simpl non_empty. cbv iota. simpl negb. cbv iota.
  assert (Hlen : (0 <? len (s0 :: slots)) = true).
  { apply Z.ltb_lt. unfold len. simpl length. lia. }
  rewrite Hlen. simpl andb. cbv iota.
  eexists. eexists. split; [reflexivity|]. repeat split.
Qed.

Lemma all_slots_empty_two_findings_witness :
  exists w e,
    MaterialChecker_check two_empty_slots = inr [w; e]
    /\ severity w = WARNING
    /\ dict_get (details w) "empty_slot_indices"
       = Some (VList (map VInt (map Z.of_nat
                                  (seq 0 (length (material_slots two_empty_slots))))))
    /\ severity e = ERROR
    /\ message e = "All material slots are empty"%string.
Proof.
  apply (all_slots_empty_two_findings two_empty_slots).
  - reflexivity.
  - discriminate.
  - repeat constructor.
Defined.

Lemma used_indices_spec (polys : list MeshPolygon) (used0 : gset Z) (i : Z) :
  i ∈ fold_left (fun used poly => used ∪ {[ material_index poly ]}) polys used0
  <-> i ∈ used0 \/ Exists (fun p => material_index p = i) polys.
Proof.
  revert used0. induction polys as [|p polys IH]; intros used0; simpl.
  - split; [intros Hi; left; exact Hi | intros [Hi | Hex]; [exact Hi | inversion Hex]].
  - rewrite IH, Exists_cons, elem_of_union, elem_of_singleton.
    split.
    + intros [[Hi | Hp] | Hex]; auto.
    + intros [Hi | [Hp | Hex]]; auto.
Qed.

(** C8, as stated, fails: with one slot holding a material and a mesh
    without polygons (so that no polygon refers to the slot), the material
    checker returns no finding at all. *)
Lemma unused_slot_needs_polygons :
  type one_unused_slot_no_polygons = "MESH"%string
  /\ (exists slot m, material_slots one_unused_slot_no_polygons = [slot]
                     /\ material slot = Some m)
  /\ Forall (fun p => material_index p <> 0) (polygons (data one_unused_slot_no_polygons))
  /\ MaterialChecker_check one_unused_slot_no_polygons = inr [].
Proof.
  split; [reflexivity|]. split; [eexists; eexists; split; reflexivity|].
  split; [constructor|]. vm_compute. reflexivity.
Qed.

(** C8 (amended): for a mesh object with at least one polygon, exactly one
    material slot, that slot holding a material, and no polygon whose
    [material_index] is 0, the material checker returns exactly one finding:
    the INFO finding that lists slot 0 as unused. *)
Theorem single_unused_slot_info (obj : Object) (slot : MaterialSlot) (m : string) :
  type obj = "MESH"%string ->
  material_slots obj = [slot] ->
  material slot = Some m ->
  polygons (data obj) <> [] ->
  Forall (fun p => material_index p <> 0) (polygons (data obj)) ->
  exists r,
    MaterialChecker_check obj = inr [r]
    /\ severity r = INFO
    /\ dict_get (details r) "unused_slot_indices" = Some (VList [VInt 0])
    /\ message r
       = ("Unused material slot(s): "
            +:+ (if is_empty (slot_name slot) then "Slot 0" else slot_name slot))%string.
Proof.
  intros Htype Hslots Hmat Hpolys Hidx.
  assert (Hunused : _find_unused_slots obj (data obj) = [0]).
  { unfold _find_unused_slots. rewrite Hslots.
    destruct (polygons (data obj)) as [|p polys] eqn:Ep; [congruence|].
    simpl non_empty. simpl negb. cbv iota. cbv zeta.
    unfold enumerate. simpl enumerate_from.
    set (used := fold_left _ (p :: polys) ∅).
    simpl. rewrite Hmat.
    rewrite bool_decide_eq_false_2; [reflexivity|].
    intros Hin. apply used_indices_spec in Hin as [Hin | Hex].
    - apply not_elem_of_empty in Hin. exact Hin.
    - apply Exists_exists in Hex as [q [Hq Hq0]].
      rewrite Forall_forall in Hidx. exact (Hidx q Hq Hq0). }
  unfold MaterialChecker_check. rewrite Htype, Hunused.
  unfold _find_empty_slots. rewrite Hslots.
  unfold enumerate. simpl. rewrite Hmat. simpl.
  destruct (is_empty (slot_name slot)) eqn:En; simpl.
  - eexists. split; [reflexivity|]. repeat split.
  - eexists. split; [reflexivity|]. repeat split.
Qed.

Lemma single_unused_slot_info_witness :
  exists r,
    MaterialChecker_check one_unused_slot = inr [r]
    /\ severity r = INFO
    /\ dict_get (details r) "unused_slot_indices" = Some (VList [VInt 0])
    /\ message r
       = ("Unused material slot(s): "
            +:+ (if is_empty (slot_name (mkMaterialSlot "Steel" (Some "Steel"%string)))
                 then "Slot 0"
                 else slot_name (mkMaterialSlot "Steel" (Some "Steel"%string))))%string.
Proof.
  apply (single_unused_slot_info one_unused_slot
           (mkMaterialSlot "Steel" (Some "Steel"%string)) "Steel").
  - reflexivity.
  - reflexivity.
  - reflexivity.
  - discriminate.
  - repeat constructor. simpl. lia.
Defined.

(** ** Truncated listings (checkers/geometry.py, checkers/face_orientation.py) *)

Lemma len_app {A : Type} (l1 l2 : list A) : len (l1 ++ l2) = len l1 + len l2.
Proof. unfold len. rewrite length_app. lia. Qed.

Lemma capped_collect_spec {A B : Type} (test : A -> bool) (f : A -> B)
    (K : Z) (items : list A) (acc : list B) :
  len acc < K ->
  capped_collect test f K items acc
  = acc ++ firstn (Z.to_nat (K - len acc)) (map f (List.filter test items)).
Proof.
  revert acc. induction items as [|x items IH]; intros acc Hlt; simpl.
  - rewrite firstn_nil. symmetry. apply app_nil_r.
  - destruct (test x) eqn:Ex; [|apply IH; exact Hlt].
    simpl map.
    replace (Z.to_nat (K - len acc)) with (S (Z.to_nat (K - len acc - 1))) by lia.
    simpl firstn.
    destruct (K <=? len (acc ++ [f x])) eqn:Ecap.
    + apply Z.leb_le in Ecap. rewrite len_app in Ecap. unfold len in Ecap at 2.
      simpl in Ecap.
      replace (Z.to_nat (K - len acc - 1)) with O by lia. reflexivity.
    + apply Z.leb_gt in Ecap. rewrite IH by exact Ecap.
      rewrite len_app. unfold len at 2. simpl length.
      rewrite <- app_assoc. simpl.
      do 3 f_equal. lia.
Qed.

Lemma capped_listing_length {B : Type} (K : Z) (offending : list B) :
  1 <= K ->
  len (firstn (Z.to_nat K) offending) = Z.min (len offending) K.
Proof.
  intros HK. unfold len. rewrite length_firstn. lia.
Qed.

Lemma count_if_filter {A : Type} (test : A -> bool) (l : list A) :
  count_if test l = len (List.filter test l).
Proof.
  unfold count_if.
  assert (Hgen : forall a,
             fold_left (fun total x => if test x then total + 1 else total) l a
             = a + len (List.filter test l)).
  { induction l as [|x l IH]; intros a; simpl.
    - unfold len. simpl. lia.
    - rewrite IH. destruct (test x); [|reflexivity].
      unfold len. simpl length. lia. }
  rewrite Hgen. lia.
Qed.

Lemma filter_enumerate_length {A : Type} (test : A -> bool) (l : list A) (start : Z) :
  length (List.filter (fun it => test (snd it)) (enumerate_from start l))
  = length (List.filter test l).
Proof.
  revert start. induction l as [|x l IH]; intros start; simpl; [reflexivity|].
  destruct (test x); simpl; rewrite IH; reflexivity.
Qed.

Lemma count_if_offending (test : MeshPolygon -> bool) (mesh : Mesh) :
  count_if test (polygons mesh) = len (offending_indices test mesh).
Proof.
  rewrite count_if_filter. unfold offending_indices, enumerate, len.
  rewrite length_map, filter_enumerate_length. reflexivity.
Qed.

Lemma ngon_loop_collect (K : Z) (items : list (Z * MeshPolygon)) (idx cnt : list Z) :
  fst (ngon_loop K items idx cnt)
  = capped_collect (fun it => 4 <? loop_total (snd it)) fst K items idx.
Proof.
  revert idx cnt. induction items as [|[i poly] items IH]; intros idx cnt; simpl.
  - reflexivity.
  - destruct (4 <? loop_total poly); [|apply IH].
    destruct (K <=? len (idx ++ [i])); [reflexivity | apply IH].
Qed.

Lemma small_face_loop_collect (threshold : Q) (K : Z)
    (items : list (Z * MeshPolygon)) (idx : list Z) (areas : list Q) :
  fst (small_face_loop threshold K items idx areas)
  = capped_collect (fun it => Qltb (area (snd it)) threshold) fst K items idx.
Proof.
  revert idx areas. induction items as [|[i poly] items IH]; intros idx areas; simpl.
  - reflexivity.
  - destruct (Qltb (area poly) threshold); [|apply IH].
    destruct (K <=? len (idx ++ [i])); [reflexivity | apply IH].
Qed.

Lemma non_empty_firstn {A : Type} (K : Z) (l : list A) :
  1 <= K -> non_empty (firstn (Z.to_nat K) l) = non_empty l.
Proof.
  intros HK. destruct l as [|x l]; [rewrite firstn_nil; reflexivity|].
  replace (Z.to_nat K) with (S (Z.to_nat (K - 1))) by lia. reflexivity.
Qed.

Lemma non_empty_true {A : Type} (l : list A) : non_empty l = true <-> l <> [].
Proof. destruct l; simpl; split; congruence. Qed.

Lemma _check_ngons_listing (self : GeometryConfig) (obj : Object) (mesh : Mesh) :
  1 <= geometry_max_reported_faces self ->
  truncated_listing (_check_ngons self obj mesh) "total_ngons"
    (offending_indices (fun p => 4 <? loop_total p) mesh)
    (geometry_max_reported_faces self).
Proof.
  intros HK. unfold _check_ngons.
  pose proof (ngon_loop_collect (geometry_max_reported_faces self)
                (enumerate (polygons mesh)) [] []) as Hloop.
  destruct (ngon_loop _ _ [] []) as [ngon_indices ngon_vertex_counts].
  simpl fst in Hloop.
  rewrite capped_collect_spec in Hloop by (unfold len; simpl; lia).
  simpl app in Hloop. unfold len at 1 in Hloop. simpl length in Hloop.
  rewrite Z.sub_0_r in Hloop.
  fold (offending_indices (fun p => 4 <? loop_total p) mesh) in Hloop.
  rewrite count_if_offending.
  set (offending := offending_indices _ mesh) in *.
  subst ngon_indices. rewrite non_empty_firstn by exact HK.
  split.
  - intros Hnil. rewrite Hnil. reflexivity.
  - intros Hne. apply non_empty_true in Hne. rewrite Hne. simpl negb. cbv iota.
    destruct (len offending <=? geometry_max_reported_faces self);
      (rewrite create_result_ok by (reflexivity || apply count_message_nonempty);
       eexists; eexists; split; [reflexivity|];
       split; [reflexivity|]; split; [reflexivity|];
       split; [apply capped_listing_length; exact HK | reflexivity]).
Qed.

Lemma _check_small_faces_listing (self : GeometryConfig) (obj : Object) (mesh : Mesh) :
  1 <= geometry_max_reported_faces self ->
  truncated_listing (_check_small_faces self obj mesh) "total_small_faces"
    (offending_indices (fun p => Qltb (area p) (small_face_threshold self)) mesh)
    (geometry_max_reported_faces self).
Proof.
  intros HK. unfold _check_small_faces.
  pose proof (small_face_loop_collect (small_face_threshold self)
                (geometry_max_reported_faces self)
                (enumerate (polygons mesh)) [] []) as Hloop.
  destruct (small_face_loop _ _ _ [] []) as [small_face_indices small_face_areas].
  simpl fst in Hloop.
  rewrite capped_collect_spec in Hloop by (unfold len; simpl; lia).
  simpl app in Hloop. unfold len at 1 in Hloop. simpl length in Hloop.
  rewrite Z.sub_0_r in Hloop.
  fold (offending_indices (fun p => Qltb (area p) (small_face_threshold self)) mesh)
    in Hloop.
  rewrite count_if_offending.
  set (offending := offending_indices _ mesh) in *.
  subst small_face_indices. rewrite non_empty_firstn by exact HK.
  split.
  - intros Hnil. rewrite Hnil. reflexivity.
  - intros Hne. apply non_empty_true in Hne. rewrite Hne. simpl negb. cbv iota.
    rewrite create_result_ok by (reflexivity || apply count_message_nonempty).
    eexists; eexists; split; [reflexivity|];
      split; [reflexivity|]; split; [reflexivity|];
      split; [apply capped_listing_length; exact HK | reflexivity].
Qed.

Lemma capped_collect_non_empty {A B : Type} (test : A -> bool) (f : A -> B)
    (K : Z) (items : list A) (acc : list B) :
  non_empty (capped_collect test f K items acc)
  = (non_empty acc || non_empty (List.filter test items))%bool.
Proof.
  assert (Hsnoc : forall (l : list B) (y : B), non_empty (l ++ [y]) = true).
  { intros l y. destruct l; reflexivity. }
  revert acc. induction items as [|x items IH]; intros acc; simpl.
  - rewrite orb_false_r. reflexivity.
  - destruct (test x) eqn:Ex; [|apply IH].
    simpl non_empty at 3. rewrite orb_true_r.
    destruct (K <=? len (acc ++ [f x])); [apply Hsnoc|].
    rewrite IH, Hsnoc. reflexivity.
Qed.

Lemma enumerate_from_length {A : Type} (l : list A) (start : Z) :
  length (enumerate_from start l) = length l.
Proof.
  revert start. induction l as [|x l IH]; intros start; simpl; [reflexivity|].
  rewrite IH. reflexivity.
Qed.

Section FaceOrientationProperties.
Context `{Host}.

Lemma inverted_loop_collect (K : Z) (center : Vector) (faces : list BMFace)
    (acc : list Z) :
  inverted_loop K center faces acc
  = capped_collect (points_to_center center) face_index K faces acc.
Proof.
  revert acc. induction faces as [|face faces IH]; intros acc; simpl.
  - reflexivity.
  - destruct (points_to_center center face); [|apply IH].
    destruct (K <=? len (acc ++ [face_index face])); [reflexivity | apply IH].
Qed.

Lemma bm_faces_length (mesh : Mesh) :
  len (bm_faces (from_mesh mesh)) = len (polygons mesh).
Proof.
  unfold from_mesh, len, enumerate. simpl.
  rewrite length_map, enumerate_from_length. reflexivity.
Qed.

Lemma flagged_faces_within (mesh : Mesh) :
  len (flagged_faces mesh) <= len (polygons mesh).
Proof.
  rewrite <- bm_faces_length. unfold flagged_faces, len.
  rewrite length_map. apply Nat2Z.inj_le. apply List.filter_length_le.
Qed.

Lemma _check_inverted_faces_eq (K : Z) (obj : Object) (mesh : Mesh) :
  vertices mesh <> [] ->
  _check_inverted_faces K obj mesh
  = if non_empty (flagged_faces mesh) then
      ret (Some (inverted_faces_finding obj (len (flagged_faces mesh))
                   (len (polygons mesh))
                   (capped_collect (points_to_center (mesh_center mesh)) face_index K
                      (bm_faces (from_mesh mesh)) [])))
    else ret None.
Proof.
  intros Hverts. unfold _check_inverted_faces.
  change (bm_verts (from_mesh mesh)) with (vertices mesh).
  fold (mesh_center mesh).
  destruct (vertices mesh) as [|v vs] eqn:Ev; [congruence|].
  simpl non_empty at 1. cbv iota. clear Ev Hverts v vs. cbv zeta.
  rewrite inverted_loop_collect, capped_collect_non_empty. simpl orb.
  rewrite count_if_filter, bm_faces_length.
  replace (len (List.filter (points_to_center (mesh_center mesh))
                  (bm_faces (from_mesh mesh))))
    with (len (flagged_faces mesh))
    by (unfold flagged_faces, len; rewrite length_map; reflexivity).
  replace (non_empty (List.filter (points_to_center (mesh_center mesh))
                        (bm_faces (from_mesh mesh))))
    with (non_empty (flagged_faces mesh))
    by (unfold flagged_faces;
        destruct (List.filter _ (bm_faces (from_mesh mesh))); reflexivity).
  destruct (non_empty (flagged_faces mesh)) eqn:Hflag; [|reflexivity].
  simpl negb. cbv iota.
  assert (Htotal : (0 <? len (polygons mesh)) = true).
  { apply Z.ltb_lt. pose proof (flagged_faces_within mesh) as Hle.
    destruct (flagged_faces mesh); [discriminate Hflag|].
    unfold len in Hle at 1. simpl length in Hle. lia. }
  rewrite Htotal. unfold inverted_faces_finding. cbv zeta.
  destruct (Qltb _ _ && _)%bool;
    rewrite create_result_ok by (reflexivity || apply count_message_nonempty);
    reflexivity.
Qed.

End FaceOrientationProperties.

(** C5, as stated, fails for a cap of 0: the first offending polygon is
    appended before the cap is tested, so the listing has one index where
    [min(count, 0)] is 0. *)
Lemma listing_with_cap_zero :
  geometry_max_reported_faces cap_zero = 0
  /\ len (offending_indices (fun p => 4 <? loop_total p) pentagon_mesh) = 3
  /\ exists r,
       _check_ngons cap_zero pentagon_object pentagon_mesh = inr (Some r)
       /\ dict_get (details r) "face_indices" = Some (VList (map VInt [0]))
       /\ len [0] <> Z.min 3 0
       /\ message r = "3 N-gon(s) found (showing first 0)"%string.
Proof.
  split; [reflexivity|]. split; [reflexivity|].
  eexists. split; [vm_compute; reflexivity|].
  split; [reflexivity|]. split; [vm_compute; discriminate | reflexivity].
Qed.

(** C5 (amended): for every mesh and every reporting cap [K >= 1], each of
    the n-gon, small-face and face-orientation checks emits a finding
    exactly when some polygon offends; the index list of the finding is the
    first [K] offending indices, of length [min(count, K)], and the count
    reported beside it is the number of all offending polygons. *)
Theorem truncated_listing_invariant `{Host}
    (self : GeometryConfig) (K : Z) (obj : Object) (mesh : Mesh) :
  1 <= geometry_max_reported_faces self ->
  1 <= K ->
  faces_have_vertices mesh ->
  truncated_listing (_check_ngons self obj mesh) "total_ngons"
    (offending_indices (fun p => 4 <? loop_total p) mesh)
    (geometry_max_reported_faces self)
  /\ truncated_listing (_check_small_faces self obj mesh) "total_small_faces"
       (offending_indices (fun p => Qltb (area p) (small_face_threshold self)) mesh)
       (geometry_max_reported_faces self)
  /\ truncated_listing (_check_inverted_faces K obj mesh) "potentially_inverted_count"
       (flagged_faces mesh) K.
Proof.
  intros Hself HK Hwf.
  split; [apply _check_ngons_listing; exact Hself|].
  split; [apply _check_small_faces_listing; exact Hself|].
  assert (Hcases : polygons mesh = [] \/ polygons mesh <> []).
  { destruct (polygons mesh); [left; reflexivity | right; discriminate]. }
  destruct Hcases as [Ep | Hp].
  - assert (Hnone : flagged_faces mesh = []).
    { unfold flagged_faces, from_mesh. rewrite Ep. reflexivity. }
    rewrite Hnone. split; [|congruence]. intros _.
    unfold _check_inverted_faces.
    destruct (non_empty (bm_verts (from_mesh mesh))); [|reflexivity].
    cbv zeta. rewrite inverted_loop_collect.
    assert (Hfaces : bm_faces (from_mesh mesh) = []).
    { unfold from_mesh. rewrite Ep. reflexivity. }
    rewrite Hfaces. reflexivity.
  - assert (Hverts : vertices mesh <> []) by exact (Hwf Hp).
    rewrite (_check_inverted_faces_eq K obj mesh Hverts).
    rewrite capped_collect_spec by (unfold len; simpl; lia).
    simpl app. unfold len at 3. simpl length. rewrite Z.sub_0_r.
    fold (flagged_faces mesh).
    split.
    + intros Hnil. rewrite Hnil. reflexivity.
    + intros Hne. apply non_empty_true in Hne. rewrite Hne.
      exists (inverted_faces_finding obj (len (flagged_faces mesh))
                (len (polygons mesh))
                (firstn (Z.to_nat K) (flagged_faces mesh))).
      exists (firstn (Z.to_nat K) (flagged_faces mesh)).
      split; [reflexivity|].
      unfold inverted_faces_finding. cbv zeta.
      destruct (Qltb _ _ && _)%bool;
        (split; [reflexivity|]; split; [reflexivity|];
         split; [apply capped_listing_length; exact HK | reflexivity]).
Qed.

Lemma truncated_listing_invariant_witness :
  truncated_listing (_check_ngons cap_two pentagon_object pentagon_mesh) "total_ngons"
    (offending_indices (fun p => 4 <? loop_total p) pentagon_mesh)
    (geometry_max_reported_faces cap_two)
  /\ truncated_listing (_check_small_faces cap_two pentagon_object pentagon_mesh)
       "total_small_faces"
       (offending_indices (fun p => Qltb (area p) (small_face_threshold cap_two))
          pentagon_mesh)
       (geometry_max_reported_faces cap_two)
  /\ truncated_listing (_check_inverted_faces 2 pentagon_object pentagon_mesh)
       "potentially_inverted_count" (flagged_faces pentagon_mesh) 2.
Proof.
  apply (truncated_listing_invariant cap_two 2 pentagon_object pentagon_mesh).
  - vm_compute. discriminate.
  - lia.
  - intros _. discriminate.
Defined.

Example pentagon_listing :
  exists a b c,
    GeometryChecker_check cap_two pentagon_object = inr [a; b]
    /\ FaceOrientationChecker_check 2 pentagon_object = inr [c]
    /\ dict_get (details a) "face_indices" = Some (VList [VInt 0; VInt 1])
    /\ dict_get (details a) "total_ngons" = Some (VInt 3)
    /\ dict_get (details b) "face_indices" = Some (VList [VInt 0; VInt 1])
    /\ dict_get (details b) "total_small_faces" = Some (VInt 3)
    /\ dict_get (details c) "face_indices" = Some (VList [VInt 0; VInt 1])
    /\ dict_get (details c) "potentially_inverted_count" = Some (VInt 3).
Proof.
  do 3 eexists. split; [vm_compute; reflexivity|].
  split; [vm_compute; reflexivity|]. repeat split.
Qed.

(** ** The severity policy of checkers/face_orientation.py *)

(** C2: when the heuristic flags [n >= 1] of the [total] polygons of a mesh
    object, [check] returns a single finding; with [r = n / total] its
    severity is INFO if [n < 5] and [r < 0.05], and WARNING otherwise; its
    details hold [n] itself, [total], and the ratio to three decimal places:
    the double [round(n / total, 3)], which differs from [r] by at most
    [0.0005 + 2^-52]. *)
Theorem face_orientation_severity `{Host} (K : Z) (obj : Object) :
  type obj = "MESH"%string ->
  faces_have_vertices (data obj) ->
  flagged_faces (data obj) <> [] ->
  let n := len (flagged_faces (data obj)) in
  let total := len (polygons (data obj)) in
  let r := (inject_Z n / inject_Z total)%Q in
  exists f ratio,
    FaceOrientationChecker_check K obj = inr [f]
    /\ (n < 5 /\ (r < 5 # 100)%Q -> severity f = INFO)
    /\ (~ (n < 5 /\ (r < 5 # 100)%Q) -> severity f = WARNING)
    /\ dict_get (details f) "potentially_inverted_count" = Some (VInt n)
    /\ dict_get (details f) "total_faces" = Some (VInt total)
    /\ dict_get (details f) "inverted_ratio" = Some (VFloat ratio)
    /\ ratio = round_float (int_truediv n total) 3
    /\ (Qabs (ratio - r) <= (1 # 2000) + (1 # 4503599627370496))%Q.
Proof.
  intros Htype Hwf Hflag n total r.
  assert (Hpolys : polygons (data obj) <> []).
  { intros Ep. apply Hflag. unfold flagged_faces, from_mesh. rewrite Ep. reflexivity. }
  assert (Hn : 0 < n).
  { unfold n. destruct (flagged_faces (data obj)); [congruence|].
    unfold len. simpl length. lia. }
  pose proof (flagged_faces_within (data obj)) as Hle. fold n total in Hle.
  assert (Htotal : 0 < total) by lia.
  destruct (ratio_unit n total ltac:(lia) Htotal) as [Hr0 Hr1]. fold r in Hr0, Hr1.
  destruct (reported_ratio r Hr0 Hr1) as [_ [_ [_ [_ Hclose]]]].
  unfold FaceOrientationChecker_check. rewrite Htype. simpl String.eqb.
  simpl negb at 1. cbv iota. cbv zeta.
  apply non_empty_true in Hpolys. rewrite Hpolys. simpl negb. cbv iota.
  apply non_empty_true in Hpolys.
  rewrite (_check_inverted_faces_eq K obj (data obj) (Hwf Hpolys)).
  apply non_empty_true in Hflag. rewrite Hflag.
  unfold bind, ret, append_if. simpl app.
  eexists. exists (round_float (int_truediv n total) 3). split; [reflexivity|].
  unfold inverted_faces_finding. cbv zeta. fold n total.
  destruct (Qltb (int_truediv n total) (float_round (5 # 100))) eqn:Er;
    destruct (n <? 5) eqn:En; simpl andb; cbv iota;
    simpl severity; simpl details;
    (split; [|split; [|split; [reflexivity|]; split; [reflexivity|];
                       split; [reflexivity|]; split; [reflexivity | exact Hclose]]]).
  all: try (intros _; reflexivity).
  all: try (intros [Hn5 Hr5]; exfalso).
  all: try (intros Hnot; exfalso; apply Hnot; split).
  all: try (apply Z.ltb_lt; exact En).
  all: try (apply Z.ltb_ge in En; lia).
  - apply Qnot_le_lt. intros Hge.
    rewrite (ratio_at_least_threshold n total Htotal Hge) in Er. discriminate Er.
  - rewrite (ratio_below_threshold n total ltac:(lia) Htotal Hr5) in Er. discriminate Er.
Qed.

Lemma face_orientation_severity_witness :
  exists f ratio,
    FaceOrientationChecker_check FaceOrientation_max_reported_faces_default
      (reversed_object 4 200) = inr [f]
    /\ (len (flagged_faces (data (reversed_object 4 200))) < 5
        /\ (inject_Z (len (flagged_faces (data (reversed_object 4 200))))
            / inject_Z (len (polygons (data (reversed_object 4 200)))) < 5 # 100)%Q
        -> severity f = INFO)
    /\ (~ (len (flagged_faces (data (reversed_object 4 200))) < 5
           /\ (inject_Z (len (flagged_faces (data (reversed_object 4 200))))
               / inject_Z (len (polygons (data (reversed_object 4 200)))) < 5 # 100)%Q)
        -> severity f = WARNING)
    /\ dict_get (details f) "potentially_inverted_count"
       = Some (VInt (len (flagged_faces (data (reversed_object 4 200)))))
    /\ dict_get (details f) "total_faces"
       = Some (VInt (len (polygons (data (reversed_object 4 200)))))
    /\ dict_get (details f) "inverted_ratio" = Some (VFloat ratio)
    /\ ratio
       = round_float
           (int_truediv (len (flagged_faces (data (reversed_object 4 200))))
                        (len (polygons (data (reversed_object 4 200))))) 3
    /\ (Qabs (ratio
              - inject_Z (len (flagged_faces (data (reversed_object 4 200))))
                / inject_Z (len (polygons (data (reversed_object 4 200)))))
        <= (1 # 2000) + (1 # 4503599627370496))%Q.
Proof.
  apply (face_orientation_severity FaceOrientation_max_reported_faces_default
           (reversed_object 4 200)).
  - reflexivity.
  - intros _. discriminate.
  - vm_compute. discriminate.
Defined.

(** The two meshes of the ratio policy: 4 of 200 polygons reversed, and 20
    of 200; the ratios reported are the doubles [0.02] and [0.1]. *)
Example four_of_two_hundred :
  exists f,
    FaceOrientationChecker_check FaceOrientation_max_reported_faces_default
      (reversed_object 4 200) = inr [f]
    /\ severity f = INFO
    /\ dict_get (details f) "potentially_inverted_count" = Some (VInt 4)
    /\ dict_get (details f) "total_faces" = Some (VInt 200)
    /\ dict_get (details f) "inverted_ratio" = Some (VFloat (float_round (2 # 100))).
Proof.
  eexists. split; [vm_compute; reflexivity|]. repeat split.
Qed.

Example twenty_of_two_hundred :
  exists f,
    FaceOrientationChecker_check FaceOrientation_max_reported_faces_default
      (reversed_object 20 200) = inr [f]
    /\ severity f = WARNING
    /\ dict_get (details f) "potentially_inverted_count" = Some (VInt 20)
    /\ dict_get (details f) "total_faces" = Some (VInt 200)
    /\ dict_get (details f) "inverted_ratio" = Some (VFloat (float_round (1 # 10)))
    /\ message f = "20 face(s) may have inverted normals (10.0%)"%string.
Proof.
  eexists. split; [vm_compute; reflexivity|]. repeat split.
Qed.

(** Ratios that fall between two multiples of 0.001 are rounded as the
    double is, not as the fraction: [1 / 80] is the double just above 0.0125
    and is reported as 0.013, and [1 / 16], which is exact, goes to the even
    neighbour 0.062. *)
Example ratio_rounding_at_ties :
  round_float (int_truediv 1 80) 3 = float_round (13 # 1000)
  /\ round_float (int_truediv 3 80) 3 = float_round (37 # 1000)
  /\ round_float (int_truediv 1 16) 3 = float_round (62 # 1000).
Proof. repeat split; vm_compute; reflexivity. Qed.

(** ** operators/validate.py *)

Lemma run_pair_shift (obj : Object) (checker : BaseChecker)
    (rs : list ValidationResult) (rp : list (string * string)) :
  run_pair obj (rs, rp) checker
  = (rs ++ fst (run_pair obj ([], []) checker),
     rp ++ snd (run_pair obj ([], []) checker)).
Proof.
  unfold run_pair.
  destruct (negb (is_supported checker obj)); simpl;
    [rewrite !app_nil_r; reflexivity|].
  destruct (truthy (is_excluded checker obj)); simpl;
    [rewrite !app_nil_r; reflexivity|].
  destruct (check checker obj) as [e | results]; simpl;
    rewrite ?app_nil_r; reflexivity.
Qed.

Lemma run_object_shift (checkers : list BaseChecker) (obj : Object)
    (rs : list ValidationResult) (rp : list (string * string)) :
  run_object checkers (rs, rp) obj
  = (rs ++ fst (run_object checkers ([], []) obj),
     rp ++ snd (run_object checkers ([], []) obj)).
Proof.
  unfold run_object. revert rs rp.
  induction checkers as [|c checkers IH]; intros rs rp; cbn [fold_left].
  - simpl. rewrite !app_nil_r. reflexivity.
  - rewrite (run_pair_shift obj c rs rp).
    rewrite IH.
    destruct (run_pair obj ([], []) c) as [rs1 rp1]. cbn [fst snd].
    rewrite (IH rs1 rp1). cbn [fst snd]. rewrite !app_assoc. reflexivity.
Qed.

Lemma run_all_shift (objects : list Object) (checkers : list BaseChecker)
    (rs : list ValidationResult) (rp : list (string * string)) :
  run_all objects checkers (rs, rp)
  = (rs ++ results_of objects checkers, rp ++ faults_of objects checkers).
Proof.
  unfold results_of, faults_of, run_all. revert rs rp.
  induction objects as [|o objects IH]; intros rs rp; cbn [fold_left].
  - simpl. rewrite !app_nil_r. reflexivity.
  - rewrite (run_object_shift checkers o rs rp). rewrite IH.
    destruct (run_object checkers ([], []) o) as [rs1 rp1]. cbn [fst snd].
    rewrite (IH rs1 rp1). cbn [fst snd]. rewrite !app_assoc. reflexivity.
Qed.

Lemma results_of_app (objs1 objs2 : list Object) (checkers : list BaseChecker) :
  results_of (objs1 ++ objs2) checkers
  = results_of objs1 checkers ++ results_of objs2 checkers
  /\ faults_of (objs1 ++ objs2) checkers
     = faults_of objs1 checkers ++ faults_of objs2 checkers.
Proof.
  unfold results_of at 1, faults_of at 1, run_all.
  rewrite fold_left_app. fold (run_all objs1 checkers ([], [])).
  rewrite (run_all_shift objs1 checkers [] []). simpl app.
  fold (run_all objs2 checkers (results_of objs1 checkers, faults_of objs1 checkers)).
  rewrite run_all_shift. split; reflexivity.
Qed.

Lemma results_of_checkers_app (obj : Object) (cs1 cs2 : list BaseChecker) :
  results_of [obj] (cs1 ++ cs2) = results_of [obj] cs1 ++ results_of [obj] cs2
  /\ faults_of [obj] (cs1 ++ cs2) = faults_of [obj] cs1 ++ faults_of [obj] cs2.
Proof.
  unfold results_of, faults_of, run_all. cbn [fold_left].
  unfold run_object. rewrite fold_left_app.
  fold (run_object cs1 ([], []) obj).
  destruct (run_object cs1 ([], []) obj) as [rs1 rp1].
  fold (run_object cs2 (rs1, rp1) obj). rewrite run_object_shift.
  split; reflexivity.
Qed.

Lemma _store_results_items (bpy : Blender) (results : list ValidationResult) :
  unity_validator_results (_store_results bpy results) = map item_of results
  /\ reports (_store_results bpy results) = reports bpy.
Proof.
  unfold _store_results. simpl. split; [|reflexivity].
  assert (Hgen : forall items,
             fold_left
               (fun items result =>
                  items ++ [mkResultItem (checker_name result)
                              (Severity_name (severity result))
                              (object_name result) (message result)
                              (match fix_hint result with
                               | Some h => if is_empty h then EmptyString else h
                               | None => EmptyString
                               end)])
               results items
             = items ++ map item_of results).
  { induction results as [|r results IH]; intros items; simpl.
    - symmetry. apply app_nil_r.
    - rewrite IH, <- app_assoc. simpl. do 2 f_equal.
      unfold item_of. f_equal.
      destruct (fix_hint r) as [h|]; [|reflexivity].
      destruct h; reflexivity. }
  apply Hgen.
Qed.

Lemma non_empty_middle {A : Type} (l1 l2 : list A) (x : A) :
  non_empty (l1 ++ x :: l2) = true.
Proof. destruct l1; reflexivity. Qed.

Lemma failing_pair_alone (obj : Object) (c : BaseChecker) (e : exn) :
  is_supported c obj = true ->
  truthy (is_excluded c obj) = false ->
  check c obj = inl e ->
  forall st, run_pair obj st c = (fst st, snd st ++ [fault_report c obj e]).
Proof.
  intros Hsup Hexc Hraise [rs rp]. unfold run_pair.
  rewrite Hsup, Hexc, Hraise. reflexivity.
Qed.

(** C1: when [check] raises on a pair [(obj, c)] that is supported and not
    excluded, the iteration for that pair leaves the collected results as
    they are and reports one WARNING naming the checker and the object; the
    operator still finishes; what it stores is exactly what the checkers
    before and after [c] produce on [obj] and what all checkers produce on
    the other objects, and its reports are theirs, the fault's, and the
    final summary. *)
Theorem fault_isolation (selected_only visible_only : bool) (bpy : Blender)
    (objs1 objs2 : list Object) (obj : Object)
    (cs1 cs2 : list BaseChecker) (c : BaseChecker) (e : exn) :
  get_mesh_objects bpy selected_only visible_only = objs1 ++ obj :: objs2 ->
  get_all (registry bpy) = cs1 ++ c :: cs2 ->
  is_supported c obj = true ->
  truthy (is_excluded c obj) = false ->
  check c obj = inl e ->
  let checkers := cs1 ++ c :: cs2 in
  let all_results :=
    results_of objs1 checkers ++ results_of [obj] cs1
      ++ results_of [obj] cs2 ++ results_of objs2 checkers in
  (forall st, run_pair obj st c = (fst st, snd st ++ [fault_report c obj e]))
  /\ exists bpy',
       execute selected_only visible_only bpy = (FINISHED, bpy')
       /\ unity_validator_results bpy' = map item_of all_results
       /\ reports bpy'
          = reports bpy ++ faults_of objs1 checkers ++ faults_of [obj] cs1
              ++ [fault_report c obj e]
              ++ faults_of [obj] cs2 ++ faults_of objs2 checkers
              ++ [summary all_results].
Proof.
  intros Hobjs Hcheckers Hsup Hexc Hraise checkers all_results.
  pose proof (failing_pair_alone obj c e Hsup Hexc Hraise) as Hpair.
  split; [exact Hpair|].
  assert (Hone : results_of [obj] [c] = [] /\ faults_of [obj] [c] = [fault_report c obj e]).
  { unfold results_of, faults_of, run_all, run_object. cbn [fold_left].
    rewrite Hpair. split; reflexivity. }
  destruct Hone as [Hone_r Hone_f].
  assert (Hres : results_of (objs1 ++ obj :: objs2) checkers = all_results
                 /\ faults_of (objs1 ++ obj :: objs2) checkers
                    = faults_of objs1 checkers ++ faults_of [obj] cs1
                        ++ [fault_report c obj e]
                        ++ faults_of [obj] cs2 ++ faults_of objs2 checkers).
  { destruct (results_of_app objs1 (obj :: objs2) checkers) as [R1 F1].
    destruct (results_of_app [obj] objs2 checkers) as [R2 F2].
    simpl app in R2, F2.
    destruct (results_of_checkers_app obj cs1 (c :: cs2)) as [R3 F3].
    destruct (results_of_checkers_app obj [c] cs2) as [R4 F4].
    simpl app in R4, F4. fold checkers in R3, F3.
    rewrite R1, F1, R2, F2, R3, F3, R4, F4, Hone_r, Hone_f.
    unfold all_results. rewrite <- !app_assoc. split; reflexivity. }
  destruct Hres as [Hres Hfaults].
  unfold execute. rewrite Hobjs, Hcheckers, !non_empty_middle.
  simpl negb. cbv iota. fold checkers.
  rewrite (run_all_shift (objs1 ++ obj :: objs2) checkers [] (reports bpy)).
  rewrite Hres, Hfaults. simpl app at 1.
  destruct (summary all_results) as [level text].
  eexists. split; [reflexivity|].
  unfold report. cbn [unity_validator_results reports].
  split.
  - apply _store_results_items.
  - unfold _store_results. cbn [reports]. rewrite <- ?app_assoc. reflexivity.
Qed.

Lemma fault_isolation_witness :
  (forall st,
     run_pair mirrored_x st BrokenChecker
     = (fst st,
        snd st ++ [fault_report BrokenChecker mirrored_x
                     (ValueError "message cannot be empty")]))
  /\ exists bpy',
       execute false true two_object_scene = (FINISHED, bpy')
       /\ unity_validator_results bpy'
          = map item_of
              (results_of []
                 ([TransformChecker TransformConfig_default]
                    ++ BrokenChecker :: [MaterialChecker])
                 ++ results_of [mirrored_x] [TransformChecker TransformConfig_default]
                 ++ results_of [mirrored_x] [MaterialChecker]
                 ++ results_of [one_unused_slot]
                      ([TransformChecker TransformConfig_default]
                         ++ BrokenChecker :: [MaterialChecker]))
       /\ reports bpy'
          = reports two_object_scene
              ++ faults_of []
                   ([TransformChecker TransformConfig_default]
                      ++ BrokenChecker :: [MaterialChecker])
              ++ faults_of [mirrored_x] [TransformChecker TransformConfig_default]
              ++ [fault_report BrokenChecker mirrored_x
                    (ValueError "message cannot be empty")]
              ++ faults_of [mirrored_x] [MaterialChecker]
              ++ faults_of [one_unused_slot]
                   ([TransformChecker TransformConfig_default]
                      ++ BrokenChecker :: [MaterialChecker])
              ++ [summary
                    (results_of []
                       ([TransformChecker TransformConfig_default]
                          ++ BrokenChecker :: [MaterialChecker])
                       ++ results_of [mirrored_x]
                            [TransformChecker TransformConfig_default]
                       ++ results_of [mirrored_x] [MaterialChecker]
                       ++ results_of [one_unused_slot]
                            ([TransformChecker TransformConfig_default]
                               ++ BrokenChecker :: [MaterialChecker]))].
Proof.
  apply (fault_isolation false true two_object_scene [] [one_unused_slot] mirrored_x
           [TransformChecker TransformConfig_default] [MaterialChecker]
           BrokenChecker (ValueError "message cannot be empty")).
  - reflexivity.
  - reflexivity.
  - reflexivity.
  - reflexivity.
  - reflexivity.
Defined.

(** The same scene, evaluated: the broken checker costs one warning per
    object and nothing else. *)
Example two_object_run :
  fst (execute false true two_object_scene) = FINISHED
  /\ map (fun i => (item_object_name i, item_severity i))
         (unity_validator_results (snd (execute false true two_object_scene)))
     = [("MirrorX", "ERROR"); ("MirrorX", "WARNING"); ("MirrorX", "ERROR");
        ("Plate", "INFO")]%string
  /\ reports (snd (execute false true two_object_scene))
     = [("WARNING", "Checker 'Broken' failed on 'MirrorX': message cannot be empty");
        ("WARNING", "Checker 'Broken' failed on 'Plate': message cannot be empty");
        ("ERROR", "Validation complete: 2 errors, 1 warnings, 1 info")]%string.
Proof.
  split; [vm_compute; reflexivity|].
  split; vm_compute; reflexivity.
Qed.

(** * Further properties *)

(** ** core/registry.py: lookups, removal and the shape of the catalogue *)

Lemma dict_get_setitem_same {V : Type} (d : dict V) (k : string) (v : V) :
  dict_get (dict_setitem d k v) k = Some v.
Proof.
  induction d as [|[k' v'] d IH]; simpl.
  - rewrite String.eqb_refl. reflexivity.
  - destruct (String.eqb k' k) eqn:E; simpl; rewrite E; [reflexivity | exact IH].
Qed.

Lemma dict_get_None_keys {V : Type} (d : dict V) (k : string) :
  dict_get d k = None <-> k ∉ dict_keys d.
Proof.
  induction d as [|[k' v'] d IH]; simpl.
  - split; [intros _; apply not_elem_of_nil | reflexivity].
  - rewrite not_elem_of_cons. destruct (String.eqb k' k) eqn:E.
    + apply String.eqb_eq in E. subst k'. split; [discriminate|].
      intros [Hn _]. congruence.
    + apply String.eqb_neq in E. rewrite IH. split.
      * intros Hn. split; [congruence | exact Hn].
      * intros [_ Hn]. exact Hn.
Qed.

Lemma dict_keys_setitem {V : Type} (d : dict V) (k : string) (v : V) :
  dict_keys (dict_setitem d k v)
  = if dict_contains d k then dict_keys d else dict_keys d ++ [k].
Proof.
  unfold dict_contains.
  induction d as [|[k' v'] d IH]; simpl; [reflexivity|].
  destruct (String.eqb k' k) eqn:E; simpl; [reflexivity|].
  rewrite IH. destruct (dict_get d k); reflexivity.
Qed.

Lemma dict_contains_false_keys {V : Type} (d : dict V) (k : string) :
  dict_contains d k = false <-> k ∉ dict_keys d.
Proof.
  rewrite <- dict_get_None_keys. unfold dict_contains.
  destruct (dict_get d k); split; congruence.
Qed.

Lemma dict_keys_setitem_NoDup {V : Type} (d : dict V) (k : string) (v : V) :
  NoDup (dict_keys d) -> NoDup (dict_keys (dict_setitem d k v)).
Proof.
  intros Hnd. rewrite dict_keys_setitem.
  destruct (dict_contains d k) eqn:E; [exact Hnd|].
  apply dict_contains_false_keys in E.
  apply NoDup_app. split; [exact Hnd|]. split.
  - intros x Hx Hk. apply list_elem_of_singleton in Hk. subst x. exact (E Hx).
  - apply NoDup_singleton.
Qed.

Lemma dict_keys_delitem_NoDup {V : Type} (d : dict V) (k : string) :
  NoDup (dict_keys d) ->
  NoDup (dict_keys (dict_delitem d k))
  /\ (forall k', k' ∈ dict_keys (dict_delitem d k) -> k' ∈ dict_keys d).
Proof.
  induction d as [|[k' v'] d IH]; simpl; intros Hnd.
  - split; [constructor | intros k0 Hk0; exact Hk0].
  - apply NoDup_cons in Hnd as [Hk' Hnd].
    destruct (String.eqb k' k) eqn:E; simpl.
    + split; [exact Hnd | intros k0 Hk0; apply elem_of_cons; right; exact Hk0].
    + destruct (IH Hnd) as [IHnd IHsub]. split.
      * apply NoDup_cons. split; [|exact IHnd].
        intros Hin. apply Hk'. apply IHsub. exact Hin.
      * intros k0 Hk0. apply elem_of_cons in Hk0 as [-> | Hk0];
          apply elem_of_cons; [left; reflexivity | right; apply IHsub; exact Hk0].
Qed.

Lemma dict_get_delitem_same {V : Type} (d : dict V) (k : string) :
  NoDup (dict_keys d) -> dict_get (dict_delitem d k) k = None.
Proof.
  induction d as [|[k' v'] d IH]; simpl; intros Hnd; [reflexivity|].
  apply NoDup_cons in Hnd as [Hk' Hnd].
  destruct (String.eqb k' k) eqn:E; simpl.
  - apply String.eqb_eq in E. subst k'. apply dict_get_None_keys. exact Hk'.
  - rewrite E. apply IH. exact Hnd.
Qed.

Lemma dict_get_delitem_other {V : Type} (d : dict V) (k k' : string) :
  k <> k' -> dict_get (dict_delitem d k) k' = dict_get d k'.
Proof.
  intros Hne. induction d as [|[k1 v1] d IH]; simpl; [reflexivity|].
  destruct (String.eqb k1 k) eqn:E; simpl.
  - apply String.eqb_eq in E. subst k1.
    destruct (String.eqb k k') eqn:E'; [|reflexivity].
    apply String.eqb_eq in E'. contradiction.
  - destruct (String.eqb k1 k'); [reflexivity | exact IH].
Qed.

Lemma dict_keys_delitem {V W : Type} (d : dict V) (d' : dict W) (k : string) :
  dict_keys d' = dict_keys d ->
  dict_keys (dict_delitem d' k) = dict_keys (dict_delitem d k).
Proof.
  revert d'. induction d as [|[k1 v1] d IH]; intros [|[k2 v2] d'] Hk; simpl in *;
    try discriminate; [reflexivity|].
  injection Hk as -> Hk.
  destruct (String.eqb k1 k); simpl; [exact Hk|].
  f_equal. apply IH. exact Hk.
Qed.

Lemma dict_keys_setitem_same {V W : Type} (d : dict V) (d' : dict W)
    (k : string) (v : V) (w : W) :
  dict_keys d' = dict_keys d ->
  dict_keys (dict_setitem d' k w) = dict_keys (dict_setitem d k v).
Proof.
  revert d'. induction d as [|[k1 v1] d IH]; intros [|[k2 v2] d'] Hk; simpl in *;
    try discriminate; [reflexivity|].
  injection Hk as -> Hk.
  destruct (String.eqb k1 k); simpl; [f_equal; exact Hk|].
  f_equal. apply IH. exact Hk.
Qed.

Lemma dict_delitem_length {V : Type} (d : dict V) (k : string) :
  dict_contains d k = true -> len (dict_delitem d k) = len d - 1.
Proof.
  unfold dict_contains, len.
  induction d as [|[k1 v1] d IH]; simpl; [discriminate|].
  destruct (String.eqb k1 k); simpl; intros Hc; [lia|].
  specialize (IH Hc). lia.
Qed.

Lemma dict_setitem_length {V : Type} (d : dict V) (k : string) (v : V) :
  len (dict_setitem d k v) = if dict_contains d k then len d else len d + 1.
Proof.
  unfold dict_contains, len.
  induction d as [|[k1 v1] d IH]; simpl; [reflexivity|].
  destruct (String.eqb k1 k); simpl; [reflexivity|].
  destruct (dict_get d k); lia.
Qed.

Lemma dict_setitem_ids {V : Type} (f : V -> string) (d : dict V) (k : string) (v : V) :
  Forall (fun kv => fst kv = f (snd kv)) d ->
  k = f v ->
  Forall (fun kv => fst kv = f (snd kv)) (dict_setitem d k v).
Proof.
  intros Hall Hk. induction d as [|[k1 v1] d IH]; simpl.
  - repeat constructor. exact Hk.
  - apply Forall_cons in Hall as [H1 Hall].
    destruct (String.eqb k1 k) eqn:E.
    + apply String.eqb_eq in E. subst k1. constructor; [exact Hk | exact Hall].
    + constructor; [exact H1 | apply IH; exact Hall].
Qed.

Lemma dict_delitem_ids {V : Type} (f : V -> string) (d : dict V) (k : string) :
  Forall (fun kv => fst kv = f (snd kv)) d ->
  Forall (fun kv => fst kv = f (snd kv)) (dict_delitem d k).
Proof.
  intros Hall. induction d as [|[k1 v1] d IH]; simpl; [constructor|].
  apply Forall_cons in Hall as [H1 Hall].
  destruct (String.eqb k1 k); [exact Hall|].
  constructor; [exact H1 | apply IH; exact Hall].
Qed.

Lemma register_inv (checker_class : CheckerClass) (reg reg' : CheckerRegistry) :
  register checker_class reg = inr reg' ->
  exists c,
    checker_class = Concrete c
    /\ instantiable c
    /\ _checkers reg' = dict_setitem (_checkers reg) (get_id c) c
    /\ _checker_classes reg'
       = dict_setitem (_checker_classes reg) (get_id c) checker_class.
Proof.
  destruct checker_class as [c | cn n d]; [|discriminate].
  unfold register, instantiate, BaseChecker_init, instantiable.
  destruct (is_empty (checker_display_name c)) eqn:En; [discriminate|].
  destruct (is_empty (description c)) eqn:Ed; [discriminate|].
  simpl. intros Hr. injection Hr as <-. simpl. exists c.
  split; [reflexivity|]. split; [split; assumption|]. split; reflexivity.
Qed.

Lemma reachable_shape (reg : CheckerRegistry) : reachable reg -> registry_shape reg.
Proof.
  induction 1 as [| checker_class reg reg' _ IH Hreg | k reg _ IH | reg _ IH].
  - repeat split; constructor.
  - destruct IH as [Hnd [Hids Hkeys]].
    destruct (register_inv checker_class reg reg' Hreg) as [c [_ [_ [Hc Hcls]]]].
    unfold registry_shape. rewrite Hc, Hcls. split; [|split].
    + apply dict_keys_setitem_NoDup. exact Hnd.
    + apply dict_setitem_ids; [exact Hids | reflexivity].
    + apply dict_keys_setitem_same. exact Hkeys.
  - destruct IH as [Hnd [Hids Hkeys]].
    unfold unregister. destruct (dict_contains (_checkers reg) k); simpl.
    + split; [|split].
      * apply dict_keys_delitem_NoDup. exact Hnd.
      * apply dict_delitem_ids. exact Hids.
      * apply dict_keys_delitem. exact Hkeys.
    + repeat split; assumption.
  - repeat split; constructor.
Qed.

(** X1: registering a class that overrides [check] and defines [name] and
    [description] succeeds; afterwards [get] returns its instance under its
    id, the class is kept under the same id, every other id is looked up as
    before, and the count grows by one exactly when the id was not
    registered yet. *)
Theorem register_then_get (c : BaseChecker) (reg : CheckerRegistry) :
  instantiable c ->
  exists reg',
    register (Concrete c) reg = inr reg'
    /\ registry_get (get_id c) reg' = Some c
    /\ dict_get (_checker_classes reg') (get_id c) = Some (Concrete c)
    /\ (forall k, k <> get_id c -> registry_get k reg' = registry_get k reg)
    /\ count reg'
       = (if dict_contains (_checkers reg) (get_id c) then count reg else count reg + 1).
Proof.
  intros Hc. destruct (register_ok c reg Hc) as [reg' [Hr _]].
  destruct (register_inv (Concrete c) reg reg' Hr) as [c' [Ec [_ [Hd Hcls]]]].
  injection Ec as <-.
  exists reg'. split; [exact Hr|]. unfold registry_get, count. rewrite Hd, Hcls.
  split; [apply dict_get_setitem_same|].
  split; [apply dict_get_setitem_same|]. split.
  - intros k Hk. apply dict_get_setitem_other. congruence.
  - apply dict_setitem_length.
Qed.

Lemma register_then_get_witness :
  exists reg',
    register (Concrete MaterialChecker) three_checkers = inr reg'
    /\ registry_get (get_id MaterialChecker) reg' = Some MaterialChecker
    /\ dict_get (_checker_classes reg') (get_id MaterialChecker)
       = Some (Concrete MaterialChecker)
    /\ (forall k, k <> get_id MaterialChecker ->
                  registry_get k reg' = registry_get k three_checkers)
    /\ count reg'
       = (if dict_contains (_checkers three_checkers) (get_id MaterialChecker)
          then count three_checkers else count three_checkers + 1).
Proof.
  apply (register_then_get MaterialChecker three_checkers).
  split; reflexivity.
Defined.

(** X2: in every registry reached from the empty one by [register],
    [unregister] and [clear], no id occurs twice, the checker enumerated at
    each position is the one whose id is enumerated there, and the two
    dictionaries of the registry have the same keys in the same order. *)
Theorem reachable_registry_ids (reg : CheckerRegistry) :
  reachable reg ->
  NoDup (get_ids reg)
  /\ map get_id (get_all reg) = get_ids reg
  /\ dict_keys (_checker_classes reg) = get_ids reg.
Proof.
  intros Hreach. destruct (reachable_shape reg Hreach) as [Hnd [Hids Hkeys]].
  split; [exact Hnd|]. split; [|exact Hkeys].
  unfold get_all, get_ids, dict_values, dict_keys. rewrite map_map.
  clear Hnd Hkeys Hreach.
  induction Hids as [|[k v] d Hk _ IH]; simpl; [reflexivity|].
  simpl in Hk. rewrite <- Hk. f_equal. exact IH.
Qed.

Lemma three_checkers_reachable : reachable three_checkers.
Proof.
  apply (reachable_register MaterialChecker two_checkers three_checkers);
    [|reflexivity].
  apply (reachable_register BrokenChecker one_checker two_checkers); [|reflexivity].
  apply (reachable_register (TransformChecker TransformConfig_default)
           registry_empty one_checker); [|reflexivity].
  exact reachable_empty.
Defined.

Lemma reachable_registry_ids_witness :
  NoDup (get_ids three_checkers)
  /\ map get_id (get_all three_checkers) = get_ids three_checkers
  /\ dict_keys (_checker_classes three_checkers) = get_ids three_checkers.
Proof.
  apply (reachable_registry_ids three_checkers). exact three_checkers_reachable.
Defined.

(** X3: on a reachable registry, [unregister] of a registered id returns
    [True], after which [get] no longer finds the id, all other ids are
    looked up as before and the count has dropped by one; [unregister] of
    an id that is not registered returns [False] and changes nothing. *)
Theorem unregister_removes (k : string) (reg : CheckerRegistry) :
  reachable reg ->
  (dict_contains (_checkers reg) k = true ->
   exists reg',
     unregister k reg = (true, reg')
     /\ registry_get k reg' = None
     /\ (forall k', k' <> k -> registry_get k' reg' = registry_get k' reg)
     /\ count reg' = count reg - 1)
  /\ (dict_contains (_checkers reg) k = false -> unregister k reg = (false, reg)).
Proof.
  intros Hreach. destruct (reachable_shape reg Hreach) as [Hnd _].
  unfold unregister. split; intros Hc; rewrite Hc; [|reflexivity].
  eexists. split; [reflexivity|]. unfold registry_get, count. simpl.
  split; [apply dict_get_delitem_same; exact Hnd|]. split.
  - intros k' Hk'. apply dict_get_delitem_other. congruence.
  - apply dict_delitem_length. exact Hc.
Qed.

Lemma unregister_removes_witness :
  (dict_contains (_checkers three_checkers) "broken" = true ->
   exists reg',
     unregister "broken" three_checkers = (true, reg')
     /\ registry_get "broken" reg' = None
     /\ (forall k', k' <> "broken"%string ->
                    registry_get k' reg' = registry_get k' three_checkers)
     /\ count reg' = count three_checkers - 1)
  /\ (dict_contains (_checkers three_checkers) "broken" = false ->
      unregister "broken" three_checkers = (false, three_checkers)).
Proof.
  apply (unregister_removes "broken" three_checkers). exact three_checkers_reachable.
Defined.

(** ** core/base_checker.py: construction faults and ids *)

(** X4: [register] raises exactly when the class does not override [check]
    or leaves [name] or [description] empty.  A class that does not
    override [check] is refused with a [TypeError] whatever its attributes
    are; otherwise the error is the [ValueError] of [BaseChecker.__init__],
    which names the class and reports a missing [name] before a missing
    [description]. *)
Theorem register_rejects_incomplete (checker_class : CheckerClass)
    (reg : CheckerRegistry) :
  ((exists e, register checker_class reg = inl e)
   <-> (overrides_check checker_class = false
        \/ name_of checker_class = EmptyString
        \/ description_of checker_class = EmptyString))
  /\ (overrides_check checker_class = false ->
      exists msg, register checker_class reg = inl (TypeError msg))
  /\ (overrides_check checker_class = true ->
      name_of checker_class = EmptyString ->
      register checker_class reg
      = inl (ValueError (class_name_of checker_class +:+ " must define 'name'")))
  /\ (overrides_check checker_class = true ->
      name_of checker_class <> EmptyString ->
      description_of checker_class = EmptyString ->
      register checker_class reg
      = inl (ValueError (class_name_of checker_class +:+ " must define 'description'"))).
Proof.
  destruct checker_class as [c | cn n d].
  2:{ unfold register, instantiate. simpl. split; [|split; [|split]].
      - split; [intros _; left; reflexivity | intros _; eexists; reflexivity].
      - intros _. eexists. reflexivity.
      - discriminate.
      - discriminate. }
  unfold register, instantiate, BaseChecker_init. simpl.
  destruct (checker_display_name c) as [|a n]; simpl.
  - split; [|split; [|split]].
    + split; [intros _; right; left; reflexivity | intros _; eexists; reflexivity].
    + discriminate.
    + reflexivity.
    + congruence.
  - destruct (description c) as [|b d]; simpl.
    + split; [|split; [|split]].
      * split; [intros _; right; right; reflexivity | intros _; eexists; reflexivity].
      * discriminate.
      * discriminate.
      * reflexivity.
    + split; [|split; [|split]].
      * split; [intros [e He]; discriminate He
               | intros [Ho | [Hn | Hd]]; discriminate].
      * discriminate.
      * discriminate.
      * discriminate.
Qed.

(** A class without [check] and without [name]: the [TypeError] comes
    first. *)
Example unfinished_class_is_refused :
  register unfinished_class registry_empty
  = inl (TypeError "Can't instantiate abstract class DraftChecker with abstract method check").
Proof. reflexivity. Qed.

Lemma substring_skip (s t : string) (m : nat) :
  String.substring (String.length s) m (s +:+ t) = String.substring 0 m t.
Proof. induction s as [|a s IH]; simpl; [reflexivity | exact IH]. Qed.

Lemma substring_whole (t : string) : String.substring 0 (String.length t) t = t.
Proof. induction t as [|a t IH]; simpl; [reflexivity | rewrite IH; reflexivity]. Qed.

Lemma substring_prefix (s t : string) :
  String.substring 0 (String.length s) (s +:+ t) = s.
Proof.
  induction s as [|a s IH]; simpl.
  - destruct t; reflexivity.
  - rewrite IH. reflexivity.
Qed.

Lemma length_append (s t : string) :
  String.length (s +:+ t) = (String.length s + String.length t)%nat.
Proof. induction s as [|a s IH]; simpl; [reflexivity | rewrite IH; reflexivity]. Qed.

Lemma endswith_append (s t : string) : endswith (s +:+ t) t = true.
Proof.
  unfold endswith. rewrite length_append.
  replace (String.length s + String.length t - String.length t)%nat
    with (String.length s) by lia.
  rewrite substring_skip, substring_whole, String.eqb_refl.
  rewrite andb_true_r. apply Nat.leb_le. lia.
Qed.

Lemma drop_last_append (s t : string) : drop_last (String.length t) (s +:+ t) = s.
Proof.
  unfold drop_last. rewrite length_append.
  replace (String.length s + String.length t - String.length t)%nat
    with (String.length s) by lia.
  apply substring_prefix.
Qed.

Lemma lower_ascii_range (c : ascii) :
  Nat.ltb (nat_of_ascii c) 128 = true ->
  Nat.ltb (nat_of_ascii (lower_ascii c)) 128 = true
  /\ lower_ascii (lower_ascii c) = lower_ascii c.
Proof.
  intros Hc. apply Nat.ltb_lt in Hc. unfold lower_ascii.
  destruct (Nat.leb 65 (nat_of_ascii c) && Nat.leb (nat_of_ascii c) 90)%bool eqn:E.
  - apply andb_true_iff in E as [E1 E2].
    apply Nat.leb_le in E1, E2.
    rewrite nat_ascii_embedding by lia.
    split; [apply Nat.ltb_lt; lia|].
    assert (E3 : Nat.leb (nat_of_ascii c + 32) 90 = false) by (apply Nat.leb_gt; lia).
    rewrite E3, andb_false_r. reflexivity.
  - rewrite E. split; [apply Nat.ltb_lt; exact Hc | reflexivity].
Qed.

Lemma lower_ascii_string (s : string) :
  is_ascii s = true -> is_ascii (lower s) = true /\ lower (lower s) = lower s.
Proof.
  unfold is_ascii. induction s as [|c s IH]; simpl; [split; reflexivity|].
  intros Hs. apply andb_true_iff in Hs as [Hc Hs].
  destruct (lower_ascii_range c Hc) as [Hr Hi]. destruct (IH Hs) as [IH1 IH2].
  rewrite Hr, IH1, Hi, IH2. split; reflexivity.
Qed.

(** X5: a class whose name is [base + "Checker"], [base] being ASCII, gets
    the id [base.lower()]: one [Checker] suffix is removed, and the id is an
    ASCII string without upper-case letters.  Hence a class named [base]
    alone, when [base] does not itself end in [Checker], gets the same id
    and the two classes collide in the registry. *)
Theorem get_id_strips_suffix (c : BaseChecker) (base : string) :
  is_ascii base = true ->
  class_name c = (base +:+ "Checker")%string ->
  get_id c = lower base
  /\ is_ascii (get_id c) = true
  /\ lower (get_id c) = get_id c
  /\ (endswith base "Checker" = false ->
      forall c', class_name c' = base -> get_id c' = get_id c).
Proof.
  intros Hascii Hc.
  assert (Hid : get_id c = lower base).
  { unfold get_id. rewrite Hc, endswith_append.
    change 7%nat with (String.length "Checker").
    rewrite drop_last_append. reflexivity. }
  destruct (lower_ascii_string base Hascii) as [Ha Hl].
  rewrite Hid. split; [reflexivity|]. split; [exact Ha|]. split; [exact Hl|].
  intros Hbase c' Hc'. unfold get_id. rewrite Hc', Hbase. reflexivity.
Qed.

Lemma get_id_strips_suffix_witness :
  get_id (TransformChecker TransformConfig_default) = lower "Transform"
  /\ is_ascii (get_id (TransformChecker TransformConfig_default)) = true
  /\ lower (get_id (TransformChecker TransformConfig_default))
     = get_id (TransformChecker TransformConfig_default)
  /\ (endswith "Transform" "Checker" = false ->
      forall c', class_name c' = "Transform"%string ->
                 get_id c' = get_id (TransformChecker TransformConfig_default)).
Proof.
  apply (get_id_strips_suffix (TransformChecker TransformConfig_default) "Transform").
  - reflexivity.
  - reflexivity.
Defined.

(** ** utils/helpers.py *)

Lemma get_mesh_objects_loop (visible_only : bool) (source acc : list Object) :
  fold_left
    (fun objects obj =>
       if negb (String.eqb (type obj) "MESH") then objects
       else if (visible_only && negb (visible obj))%bool then objects
       else objects ++ [obj])
    source acc
  = acc ++ List.filter
             (fun obj => (String.eqb (type obj) "MESH"
                          && (negb visible_only || visible obj))%bool)
             source.
Proof.
  revert acc. induction source as [|obj source IH]; intros acc; simpl.
  - symmetry. apply app_nil_r.
  - rewrite IH. destruct (String.eqb (type obj) "MESH"); simpl; [|reflexivity].
    destruct visible_only, (visible obj); simpl;
      rewrite <- ?app_assoc; reflexivity.
Qed.

(** X6: [get_mesh_objects] returns, in the order of the source collection
    (the selection if [selected_only], else all objects), exactly the
    objects of type MESH that are visible or, without [visible_only], all
    of type MESH; nothing else is returned and nothing is dropped. *)
Theorem get_mesh_objects_filter (bpy : Blender) (selected_only visible_only : bool) :
  let source := if selected_only then selected_objects bpy else data_objects bpy in
  get_mesh_objects bpy selected_only visible_only
  = List.filter
      (fun obj => (String.eqb (type obj) "MESH"
                   && (negb visible_only || visible obj))%bool)
      source
  /\ Forall (fun obj => type obj = "MESH"%string
                        /\ (visible_only = true -> visible obj = true)
                        /\ In obj source)
            (get_mesh_objects bpy selected_only visible_only).
Proof.
  intros source.
  assert (Heq : get_mesh_objects bpy selected_only visible_only
                = List.filter
                    (fun obj => (String.eqb (type obj) "MESH"
                                 && (negb visible_only || visible obj))%bool)
                    source).
  { unfold get_mesh_objects. fold source. rewrite get_mesh_objects_loop. reflexivity. }
  split; [exact Heq|]. rewrite Heq.
  apply List.Forall_forall. intros obj Hin.
  apply List.filter_In in Hin as [Hin Hkeep].
  apply andb_true_iff in Hkeep as [Ht Hv].
  apply String.eqb_eq in Ht. split; [exact Ht|]. split; [|exact Hin].
  intros ->. simpl in Hv. exact Hv.
Qed.

(** ** operators/validate.py: the whole run *)

Lemma results_of_single_pair (obj : Object) (c : BaseChecker) :
  results_of [obj] [c] = pair_results obj c
  /\ faults_of [obj] [c] = pair_faults obj c.
Proof.
  unfold results_of, faults_of, run_all, run_object, pair_results, pair_faults.
  cbn [fold_left]. unfold run_pair.
  destruct (is_supported c obj); simpl; [|split; reflexivity].
  destruct (truthy (is_excluded c obj)); simpl; [split; reflexivity|].
  destruct (check c obj); split; reflexivity.
Qed.

Lemma results_of_object (obj : Object) (checkers : list BaseChecker) :
  results_of [obj] checkers = List.flat_map (pair_results obj) checkers
  /\ faults_of [obj] checkers = List.flat_map (pair_faults obj) checkers.
Proof.
  induction checkers as [|c checkers [IHr IHf]].
  - split; reflexivity.
  - destruct (results_of_checkers_app obj [c] checkers) as [Hr Hf].
    simpl app in Hr, Hf. rewrite Hr, Hf.
    destruct (results_of_single_pair obj c) as [Hr1 Hf1].
    rewrite Hr1, Hf1, IHr, IHf. split; reflexivity.
Qed.

(** X7: the results of a run are the results of the pairs in object-major
    order (all checkers, in registry order, on the first object, then on
    the second, ...), where an unsupported or excluded pair and a pair
    whose [check] raises contribute nothing; the fault reports are ordered
    the same way, one per raising pair. *)
Theorem run_is_pairwise (objects : list Object) (checkers : list BaseChecker) :
  results_of objects checkers
  = List.flat_map (fun obj => List.flat_map (pair_results obj) checkers) objects
  /\ faults_of objects checkers
     = List.flat_map (fun obj => List.flat_map (pair_faults obj) checkers) objects.
Proof.
  induction objects as [|obj objects [IHr IHf]].
  - split; reflexivity.
  - destruct (results_of_app [obj] objects checkers) as [Hr Hf].
    simpl app in Hr, Hf. rewrite Hr, Hf.
    destruct (results_of_object obj checkers) as [Hr1 Hf1].
    rewrite Hr1, Hf1, IHr, IHf. split; reflexivity.
Qed.

(** X8: a checker that is excluded for an object, or does not support its
    type, is not consulted for it: the run over that object is the run
    without that checker, whatever its [check] would have returned or
    raised. *)
Theorem skipped_checker_leaves_no_trace (obj : Object)
    (cs1 cs2 : list BaseChecker) (c : BaseChecker) :
  is_supported c obj = false \/ truthy (is_excluded c obj) = true ->
  results_of [obj] (cs1 ++ c :: cs2) = results_of [obj] (cs1 ++ cs2)
  /\ faults_of [obj] (cs1 ++ c :: cs2) = faults_of [obj] (cs1 ++ cs2).
Proof.
  intros Hskip.
  destruct (results_of_object obj (cs1 ++ c :: cs2)) as [Hr Hf].
  destruct (results_of_object obj (cs1 ++ cs2)) as [Hr' Hf'].
  rewrite Hr, Hf, Hr', Hf', !List.flat_map_app. simpl.
  assert (Hnone : pair_results obj c = [] /\ pair_faults obj c = []).
  { unfold pair_results, pair_faults.
    destruct Hskip as [Hs | He]; [rewrite Hs | rewrite He, andb_false_r];
      split; reflexivity. }
  destruct Hnone as [-> ->]. split; reflexivity.
Qed.

Lemma skipped_checker_leaves_no_trace_witness :
  results_of [flagged_with_long_key] ([MaterialChecker] ++ BrokenChecker :: [])
  = results_of [flagged_with_long_key] ([MaterialChecker] ++ [])
  /\ faults_of [flagged_with_long_key] ([MaterialChecker] ++ BrokenChecker :: [])
     = faults_of [flagged_with_long_key] ([MaterialChecker] ++ []).
Proof.
  apply (skipped_checker_leaves_no_trace flagged_with_long_key
           [MaterialChecker] [] BrokenChecker).
  right. vm_compute. reflexivity.
Defined.

(** X9: [execute] never changes the objects or the registry.  It is
    cancelled, with one report and the stored results left as they were,
    when there is no mesh object to validate (a WARNING) or, failing that,
    no registered checker (an ERROR).  Otherwise it finishes: the stored
    results are replaced by the results of the run, and the reports gain
    the faults of the run followed by the summary. *)
Theorem execute_outcome (selected_only visible_only : bool) (bpy : Blender) :
  let objects := get_mesh_objects bpy selected_only visible_only in
  let checkers := get_all (registry bpy) in
  let '(status, bpy') := execute selected_only visible_only bpy in
  data_objects bpy' = data_objects bpy
  /\ selected_objects bpy' = selected_objects bpy
  /\ registry bpy' = registry bpy
  /\ (objects = [] ->
      status = CANCELLED
      /\ unity_validator_results bpy' = unity_validator_results bpy
      /\ reports bpy' = reports bpy ++ [("WARNING", "No mesh objects to validate")]%string)
  /\ (objects <> [] -> checkers = [] ->
      status = CANCELLED
      /\ unity_validator_results bpy' = unity_validator_results bpy
      /\ reports bpy' = reports bpy ++ [("ERROR", "No checkers registered")]%string)
  /\ (objects <> [] -> checkers <> [] ->
      status = FINISHED
      /\ unity_validator_results bpy' = map item_of (results_of objects checkers)
      /\ reports bpy'
         = reports bpy ++ faults_of objects checkers
             ++ [summary (results_of objects checkers)]).
Proof.
  intros objects checkers. unfold execute. fold objects. fold checkers.
  destruct objects as [|o os] eqn:Eo.
  - simpl. repeat split; try reflexivity; congruence.
  - simpl non_empty. simpl negb. cbv iota.
    destruct checkers as [|c cs] eqn:Ec.
    + simpl. repeat split; try reflexivity; congruence.
    + simpl non_empty. simpl negb. cbv iota.
      rewrite (run_all_shift (o :: os) (c :: cs) [] (reports bpy)).
      simpl app at 1.
      destruct (summary (results_of (o :: os) (c :: cs))) as [level text].
      unfold report, _store_results. cbn [data_objects selected_objects registry
                                           unity_validator_results reports].
      split; [reflexivity|]. split; [reflexivity|]. split; [reflexivity|].
      split; [discriminate|]. split; [congruence|].
      intros _ _. split; [reflexivity|]. split.
      * apply (_store_results_items bpy).
      * rewrite <- app_assoc. reflexivity.
Qed.

Lemma count_if_pos {A : Type} (test : A -> bool) (l : list A) :
  0 < count_if test l <-> Exists (fun x => test x = true) l.
Proof.
  rewrite count_if_filter. unfold len.
  induction l as [|x l IH]; simpl.
  - split; [lia | intros Hex; inversion Hex].
  - rewrite Exists_cons. destruct (test x) eqn:E; simpl.
    + split; [intros _; left; reflexivity | lia].
    + rewrite IH. split; [intros Hex; right; exact Hex|].
      intros [Hx | Hex]; [congruence | exact Hex].
Qed.

Lemma count_if_zero {A : Type} (test : A -> bool) (l : list A) :
  (0 <? count_if test l) = false <-> Forall (fun x => test x = false) l.
Proof.
  rewrite Z.ltb_ge. rewrite count_if_filter. unfold len.
  induction l as [|x l IH]; simpl.
  - split; [constructor | lia].
  - rewrite Forall_cons. destruct (test x) eqn:E; simpl.
    + split; [lia | intros [Hx _]; congruence].
    + rewrite IH. split; [intros Hall; split; [reflexivity | exact Hall]|].
      intros [_ Hall]. exact Hall.
Qed.

Lemma Severity_eqb_eq (a b : Severity) : Severity_eqb a b = true <-> a = b.
Proof. destruct a, b; cbv; split; congruence. Qed.

Lemma count_if_partition (rs : list ValidationResult) :
  count_if (fun r => Severity_eqb (severity r) ERROR) rs
  + count_if (fun r => Severity_eqb (severity r) WARNING) rs
  + count_if (fun r => Severity_eqb (severity r) INFO) rs
  = len rs.
Proof.
  rewrite !count_if_filter. unfold len.
  induction rs as [|r rs IH]; simpl; [reflexivity|].
  destruct (severity r); cbn [Severity_eqb Severity_value Z.eqb Pos.eqb length];
    lia.
Qed.

(** X10: the level of the final summary is ERROR exactly when some result
    is an ERROR, WARNING exactly when none is an ERROR and some is a
    WARNING, and INFO otherwise; the three counts it is computed from add
    up to the number of results. *)
Theorem summary_level (rs : list ValidationResult) :
  (fst (summary rs) = "ERROR"%string <-> Exists (fun r => severity r = ERROR) rs)
  /\ (fst (summary rs) = "WARNING"%string
      <-> Forall (fun r => severity r <> ERROR) rs
          /\ Exists (fun r => severity r = WARNING) rs)
  /\ (fst (summary rs) = "INFO"%string
      <-> Forall (fun r => severity r = INFO) rs)
  /\ count_if (fun r => Severity_eqb (severity r) ERROR) rs
     + count_if (fun r => Severity_eqb (severity r) WARNING) rs
     + count_if (fun r => Severity_eqb (severity r) INFO) rs
     = len rs.
Proof.
  assert (Hex : forall s, Exists (fun r => Severity_eqb (severity r) s = true) rs
                          <-> Exists (fun r => severity r = s) rs).
  { intros s. split; intros H; eapply Exists_impl; try exact H;
      intros r Hr; apply Severity_eqb_eq; exact Hr. }
  assert (Hall : forall s, Forall (fun r => Severity_eqb (severity r) s = false) rs
                           <-> Forall (fun r => severity r <> s) rs).
  { intros s. split; intros H; eapply Forall_impl; try exact H; intros r Hr.
    - intros Heq. apply Severity_eqb_eq in Heq. congruence.
    - destruct (Severity_eqb (severity r) s) eqn:E; [|reflexivity].
      apply Severity_eqb_eq in E. contradiction. }
  split; [|split; [|split; [|apply count_if_partition]]]; unfold summary.
  - destruct (0 <? count_if _ rs) eqn:Ee.
    + simpl. apply Z.ltb_lt, count_if_pos, Hex in Ee. split; [intros _; exact Ee | reflexivity].
    + apply count_if_zero, Hall in Ee.
      assert (Hno : ~ Exists (fun r => severity r = ERROR) rs).
      { intros Hx. apply Exists_exists in Hx as [r [Hin Hr]].
        rewrite Forall_forall in Ee. exact (Ee r Hin Hr). }
      destruct (0 <? count_if (fun r => Severity_eqb (severity r) WARNING) rs);
        [|destruct (0 <? count_if (fun r => Severity_eqb (severity r) INFO) rs)];
        simpl; split; try discriminate; intros Hx; contradiction.
  - destruct (0 <? count_if _ rs) eqn:Ee.
    + simpl. apply Z.ltb_lt, count_if_pos, Hex in Ee. split; [discriminate|].
      intros [Hno _]. exfalso. apply Exists_exists in Ee as [r [Hin Hr]].
      rewrite Forall_forall in Hno. exact (Hno r Hin Hr).
    + apply count_if_zero, Hall in Ee.
      destruct (0 <? count_if (fun r => Severity_eqb (severity r) WARNING) rs) eqn:Ew.
      * simpl. apply Z.ltb_lt, count_if_pos, Hex in Ew.
        split; [intros _; split; assumption | reflexivity].
      * apply count_if_zero, Hall in Ew.
        assert (Hno : ~ Exists (fun r => severity r = WARNING) rs).
        { intros Hx. apply Exists_exists in Hx as [r [Hin Hr]].
          rewrite Forall_forall in Ew. exact (Ew r Hin Hr). }
        destruct (0 <? count_if (fun r => Severity_eqb (severity r) INFO) rs);
          simpl; split; try discriminate; intros [_ Hx]; contradiction.
  - destruct (0 <? count_if _ rs) eqn:Ee.
    + simpl. apply Z.ltb_lt, count_if_pos, Hex in Ee. split; [discriminate|].
      intros Hinfo. exfalso. apply Exists_exists in Ee as [r [Hin Hr]].
      rewrite Forall_forall in Hinfo. specialize (Hinfo r Hin). congruence.
    + apply count_if_zero, Hall in Ee.
      destruct (0 <? count_if (fun r => Severity_eqb (severity r) WARNING) rs) eqn:Ew.
      * simpl. apply Z.ltb_lt, count_if_pos, Hex in Ew. split; [discriminate|].
        intros Hinfo. exfalso. apply Exists_exists in Ew as [r [Hin Hr]].
        rewrite Forall_forall in Hinfo. specialize (Hinfo r Hin). congruence.
      * apply count_if_zero, Hall in Ew.
        assert (Hinfo : Forall (fun r => severity r = INFO) rs).
        { rewrite Forall_forall in *. intros r Hin.
          specialize (Ee r Hin). specialize (Ew r Hin).
          destruct (severity r); congruence. }
        destruct (0 <? count_if (fun r => Severity_eqb (severity r) INFO) rs);
          simpl; split; try reflexivity; intros _; exact Hinfo.
Qed.

(** ** checkers/materials.py: which slots are listed, and totality *)

Lemma enumerate_from_In {A : Type} (l : list A) (start i : Z) (x : A) :
  In (i, x) (enumerate_from start l)
  <-> start <= i /\ l !! Z.to_nat (i - start) = Some x.
Proof.
  revert start. induction l as [|y l IH]; intros start; simpl.
  - split; [intros [] | intros [_ Hl]; discriminate Hl].
  - rewrite IH. split.
    + intros [Heq | [Hle Hl]].
      * injection Heq as <- <-. split; [lia|].
        replace (start - start) with 0 by lia. reflexivity.
      * split; [lia|].
        replace (Z.to_nat (i - start)) with (S (Z.to_nat (i - (start + 1)))) by lia.
        exact Hl.
    + intros [Hle Hl].
      destruct (Z.eq_dec i start) as [-> | Hne].
      * left. replace (start - start) with 0 in Hl by lia. simpl in Hl.
        injection Hl as <-. reflexivity.
      * right. split; [lia|].
        replace (Z.to_nat (i - start)) with (S (Z.to_nat (i - (start + 1)))) in Hl
          by lia.
        exact Hl.
Qed.

Lemma find_empty_loop_filter (items : list (Z * MaterialSlot)) (acc : list Z) :
  fold_left
    (fun empty '(i, slot) =>
       match material slot with
       | None => empty ++ [i]
       | Some _ => empty
       end) items acc
  = acc ++ map fst
             (List.filter
                (fun it => match material (snd it) with None => true | Some _ => false end)
                items).
Proof.
  revert acc. induction items as [|[i slot] items IH]; intros acc; simpl.
  - symmetry. apply app_nil_r.
  - rewrite IH. destruct (material slot); simpl; [reflexivity|].
    rewrite <- app_assoc. reflexivity.
Qed.

Lemma find_unused_loop_filter (used : gset Z) (items : list (Z * MaterialSlot))
    (acc : list Z) :
  fold_left
    (fun unused '(i, slot) =>
       match material slot with
       | Some _ => if bool_decide (i ∈ used) then unused else unused ++ [i]
       | None => unused
       end) items acc
  = acc ++ map fst
             (List.filter
                (fun it => match material (snd it) with
                           | Some _ => negb (bool_decide (fst it ∈ used))
                           | None => false
                           end)
                items).
Proof.
  revert acc. induction items as [|[i slot] items IH]; intros acc; simpl.
  - symmetry. apply app_nil_r.
  - rewrite IH. destruct (material slot); simpl; [|reflexivity].
    destruct (bool_decide (i ∈ used)); simpl; [reflexivity|].
    rewrite <- app_assoc. reflexivity.
Qed.

(** X11: [_find_empty_slots] lists exactly the indices of the slots without
    a material, and [_find_unused_slots] exactly the indices of the slots
    that hold a material while the mesh has polygons and none of them has
    that [material_index]; so no index is in both lists and every listed
    index is that of an existing slot. *)
Theorem material_slot_lists (obj : Object) (mesh : Mesh) (i : Z) :
  (In i (_find_empty_slots obj)
   <-> 0 <= i
       /\ exists slot, material_slots obj !! Z.to_nat i = Some slot
                       /\ material slot = None)
  /\ (In i (_find_unused_slots obj mesh)
      <-> 0 <= i
          /\ polygons mesh <> []
          /\ Forall (fun p => material_index p <> i) (polygons mesh)
          /\ exists slot, material_slots obj !! Z.to_nat i = Some slot
                          /\ material slot <> None).
Proof.
  split.
  - unfold _find_empty_slots. rewrite find_empty_loop_filter. simpl app.
    rewrite List.in_map_iff. split.
    + intros [[j slot] [Hi Hin]]. simpl in Hi. subst j.
      apply List.filter_In in Hin as [Hin Hm]. simpl in Hm.
      apply enumerate_from_In in Hin as [Hle Hl]. rewrite Z.sub_0_r in Hl.
      split; [exact Hle|]. exists slot. split; [exact Hl|].
      destruct (material slot); [discriminate | reflexivity].
    + intros [Hle [slot [Hl Hm]]]. exists (i, slot). split; [reflexivity|].
      apply List.filter_In. split.
      * apply enumerate_from_In. rewrite Z.sub_0_r. split; assumption.
      * simpl. rewrite Hm. reflexivity.
  - unfold _find_unused_slots.
    destruct (non_empty (polygons mesh)) eqn:Ep.
    2:{ simpl. split; [intros [] | intros [_ [Hne _]]].
        apply non_empty_true in Hne. congruence. }
    apply non_empty_true in Ep.
    + simpl negb. cbv iota. cbv zeta.
      rewrite find_unused_loop_filter. simpl app.
      rewrite List.in_map_iff. split.
      * intros [[j slot] [Hi Hin]]. simpl in Hi. subst j.
        apply List.filter_In in Hin as [Hin Hm]. simpl in Hm.
        apply enumerate_from_In in Hin as [Hle Hl]. rewrite Z.sub_0_r in Hl.
        split; [exact Hle|]. split; [exact Ep|].
        destruct (material slot) as [m|] eqn:Em; [|discriminate].
        apply negb_true_iff, bool_decide_eq_false in Hm.
        split.
        -- apply List.Forall_forall. intros q Hq Hqi. apply Hm.
           apply used_indices_spec. right. apply Exists_exists.
           exists q. split; [apply list_elem_of_In; exact Hq | exact Hqi].
        -- exists slot. split; [exact Hl | congruence].
      * intros [Hle [_ [Hall [slot [Hl Hm]]]]]. exists (i, slot).
        split; [reflexivity|]. apply List.filter_In. split.
        -- apply enumerate_from_In. rewrite Z.sub_0_r. split; assumption.
        -- simpl. destruct (material slot) as [m|]; [|congruence].
           apply negb_true_iff, bool_decide_eq_false.
           intros Hin. apply used_indices_spec in Hin as [Hin | Hex].
           ++ apply not_elem_of_empty in Hin. exact Hin.
           ++ apply Exists_exists in Hex as [q [Hq Hqi]].
              apply list_elem_of_In in Hq.
              rewrite List.Forall_forall in Hall. exact (Hall q Hq Hqi).
Qed.

Lemma mapM_ok {A B : Type} (f : A -> result B) (l : list A) :
  Forall (fun x => exists y, f x = inr y) l ->
  exists ys, mapM f l = inr ys.
Proof.
  induction 1 as [|x l [y Hy] _ [ys IH]]; simpl.
  - eexists. reflexivity.
  - rewrite Hy. simpl. rewrite IH. simpl. eexists. reflexivity.
Qed.

Lemma forallb_material_None (slots : list MaterialSlot) :
  forallb (fun slot => match material slot with None => true | Some _ => false end)
          slots = true
  <-> Forall (fun s => material s = None) slots.
Proof.
  induction slots as [|s slots IH]; simpl.
  - split; [constructor | reflexivity].
  - rewrite andb_true_iff, Forall_cons, IH.
    destruct (material s); split; intros [H1 H2]; split;
      try assumption; try reflexivity; discriminate.
Qed.

(** X12: the material check never raises and returns at most three
    findings.  One of them is an ERROR exactly when the object is a mesh
    none of whose slots holds a material (in particular when it has no slot
    at all); an object that is not a mesh gets no finding, and a mesh
    without slots gets the single finding "No material slots". *)
Theorem material_check_total (obj : Object) :
  exists rs,
    MaterialChecker_check obj = inr rs
    /\ (length rs <= 3)%nat
    /\ (Exists (fun r => severity r = ERROR) rs
        <-> type obj = "MESH"%string
            /\ Forall (fun s => material s = None) (material_slots obj))
    /\ (type obj <> "MESH"%string -> rs = [])
    /\ (type obj = "MESH"%string -> material_slots obj = [] ->
        exists e, rs = [e] /\ message e = "No material slots"%string).
Proof.
  unfold MaterialChecker_check.
  destruct (String.eqb (type obj) "MESH") eqn:Et.
  2:{ apply String.eqb_neq in Et. exists []. simpl.
      split; [reflexivity|]. split; [lia|]. split.
      - split; [intros Hx; inversion Hx | intros [Hm _]; contradiction].
      - split; [reflexivity | intros Hm; contradiction]. }
  apply String.eqb_eq in Et. simpl negb. cbv iota. cbv zeta.
  destruct (material_slots obj) as [|s0 slots] eqn:Es.
  { simpl. eexists. split; [reflexivity|]. split; [simpl; lia|]. split.
    - split; [intros _; split; [exact Et | constructor]|].
      intros _. left. reflexivity.
    - split; [congruence|]. intros _ _. eexists. split; reflexivity. }
  simpl non_empty at 1. simpl negb. cbv iota. rewrite <- Es.
  assert (Hnames : exists names,
             mapM (fun i =>
                     slot <-- getitem (material_slots obj) i ;;
                     ret (if is_empty (slot_name slot) then "Slot " +:+ str_int i
                          else slot_name slot))
                  (_find_unused_slots obj (data obj)) = inr names).
  { apply mapM_ok. apply List.Forall_forall. intros i Hi.
    apply (material_slot_lists obj (data obj) i) in Hi
      as [_ [_ [_ [slot [Hl _]]]]].
    unfold getitem. rewrite Hl. simpl. eexists. reflexivity. }
  destruct Hnames as [names Hnames]. rewrite Hnames.
  assert (Hlen : (0 <? len (material_slots obj)) = true).
  { apply Z.ltb_lt. rewrite Es. unfold len. simpl length. lia. }
  rewrite Hlen, andb_true_r.
  pose proof (forallb_material_None (material_slots obj)) as Hall.
  destruct (forallb _ (material_slots obj)) eqn:Eall;
    destruct (non_empty (_find_empty_slots obj));
    destruct (non_empty (_find_unused_slots obj (data obj)));
    simpl; (eexists; split; [reflexivity|]; split; [simpl; lia|]; split;
            [|split; [congruence | intros _ Hnil; rewrite Es in Hnil; discriminate]]).
  all: split.
  all: try solve [intros _; split; [exact Et | apply Hall; reflexivity]].
  all: try solve [intros [_ Hf]; apply Hall in Hf; discriminate Hf].
  all: try solve [intros Hx; exfalso;
                  repeat (apply Exists_cons in Hx as [Hx | Hx]; [discriminate Hx|]);
                  inversion Hx].
  all: try solve [intros _; apply Exists_cons; left; reflexivity].
  all: try solve [intros _; apply Exists_cons; right;
                  apply Exists_cons; left; reflexivity].
Qed.

(** ** checkers/transform.py: the whole check *)

Section TransformWhole.
Context `{Host}.

Lemma near_one_not_negative (c : Q) :
  (Qabs (c - 1) < FLOAT_TOLERANCE)%Q -> Qltb c 0 = false.
Proof.
  intros Hc. apply Qltb_ge. rewrite FLOAT_TOLERANCE_value in Hc.
  apply Qabs_Qlt_condition in Hc as [Hlo _]. lra.
Qed.

Lemma negative_not_near_one (c : Q) :
  (c < 0)%Q -> is_nearly_equal c 1 FLOAT_TOLERANCE = false.
Proof.
  intros Hc. unfold is_nearly_equal. apply Qltb_ge.
  assert (Hfar : (2 ^ 0 <= Qabs (c - 1))%Q).
  { change (2 ^ 0)%Q with 1%Q. rewrite Qabs_neg by lra. lra. }
  apply (float_sub_far c 1 0 ltac:(lia)) in Hfar.
  change (2 ^ 0)%Q with 1%Q in Hfar. rewrite FLOAT_TOLERANCE_value. lra.
Qed.

(** The part of [check] after the negative-scale test. *)
Lemma transform_rest_mild (self : TransformConfig) (obj : Object)
    (results : list ValidationResult) :
  exists rest,
    (results <--
       (if check_scale self then
          scale_result <-- _check_unapplied_scale obj ;;
          ret (append_if results scale_result)
        else ret results) ;;
     results <--
       (if check_rotation self then
          rotation_result <-- _check_unapplied_rotation obj ;;
          ret (append_if results rotation_result)
        else ret results) ;;
     ret results) = inr (results ++ rest)
    /\ (length rest <= 2)%nat
    /\ Forall (fun r => severity r <> ERROR) rest
    /\ (check_scale self = true ->
        is_vector_nearly_equal (scale obj) [1; 1; 1]%Q FLOAT_TOLERANCE = false ->
        exists w rest', rest = w :: rest' /\ severity w = WARNING
                        /\ dict_get (details w) "expected"
                           = Some (VTuple [VFloat 1; VFloat 1; VFloat 1]))
    /\ (is_vector_nearly_equal (scale obj) [1; 1; 1]%Q FLOAT_TOLERANCE = true ->
        is_vector_nearly_equal (rotation_euler obj) [0; 0; 0]%Q FLOAT_TOLERANCE = true ->
        rest = []).
Proof.
  rewrite _check_unapplied_scale_eq, _check_unapplied_rotation_eq.
  destruct (is_vector_nearly_equal (scale obj) _ _);
    destruct (is_vector_nearly_equal (rotation_euler obj) _ _);
    destruct (check_scale self), (check_rotation self);
    cbv zeta; unfold bind, ret, append_if;
    rewrite <- ?app_assoc;
    (eexists; split;
     [ first [ reflexivity | apply (f_equal inr); symmetry; apply app_nil_r ]
     | split; [simpl; lia|]; split; [repeat constructor; discriminate|] ]).
  all: split.
  all: try solve [intros Hs Hn; try discriminate Hs; try discriminate Hn;
                  eexists; eexists; split; [reflexivity|]; split; reflexivity].
  all: try solve [intros Hs Hr; try discriminate Hs; try discriminate Hr;
                  reflexivity].
Qed.

(** X13: let the components of the scale and of the rotation be floats.
    When every scale component is less than the double [FLOAT_TOLERANCE =
    1e-6] away from 1 and every rotation component less than it away from 0,
    the transform check returns no finding, whichever sub-checks are
    enabled: the subtraction [a - b] the code performs is exact on such
    components. *)
Theorem applied_transform_is_clean (self : TransformConfig) (obj : Object) :
  Forall (fun c => is_float c = true) (components (scale obj)) ->
  Forall (fun c => is_float c = true) (components (rotation_euler obj)) ->
  Forall (fun c => (Qabs (c - 1) < FLOAT_TOLERANCE)%Q) (components (scale obj)) ->
  Forall (fun c => (Qabs (c - 0) < FLOAT_TOLERANCE)%Q) (components (rotation_euler obj)) ->
  TransformChecker_check self obj = inr [].
Proof.
  intros Hfs Hfr Hs Hr.
  assert (Hneg : _check_negative_scale obj = inr None).
  { rewrite _check_negative_scale_eq.
    unfold components in Hs.
    apply Forall_cons in Hs as [Hx Hs]. apply Forall_cons in Hs as [Hy Hs].
    apply Forall_cons in Hs as [Hz _].
    rewrite (near_one_not_negative _ Hx), (near_one_not_negative _ Hy),
      (near_one_not_negative _ Hz). reflexivity. }
  assert (Hs' : is_vector_nearly_equal (scale obj) [1; 1; 1]%Q FLOAT_TOLERANCE = true).
  { apply is_vector_nearly_equal_Forall.
    apply (Forall_iff_on _ _ _ _ Hfs
             (fun c Hc => is_nearly_equal_one 53 (-1074) c ltac:(lia) ltac:(lia) Hc)).
    exact Hs. }
  assert (Hr' : is_vector_nearly_equal (rotation_euler obj) [0; 0; 0]%Q FLOAT_TOLERANCE
                = true).
  { apply is_vector_nearly_equal_Forall.
    apply (Forall_iff_on _ _ _ _ Hfr
             (fun c Hc => is_nearly_equal_zero 53 (-1074) c ltac:(lia) ltac:(lia) Hc)).
    exact Hr. }
  destruct (transform_rest_mild self obj []) as [rest [Hrest [_ [_ [_ Hnil]]]]].
  rewrite (Hnil Hs' Hr') in Hrest.
  unfold TransformChecker_check. rewrite Hneg.
  destruct (check_negative_scale self); exact Hrest.
Qed.

(** X14: with the negative-scale and the unapplied-scale sub-checks both
    enabled, a negative scale component is reported twice: [check] starts
    with the ERROR for the negative scale, directly followed by the WARNING
    for the unapplied scale (a negative component is never within the
    tolerance of 1). *)
Theorem negative_scale_is_also_unapplied (self : TransformConfig) (obj : Object) :
  check_negative_scale self = true ->
  check_scale self = true ->
  Exists (fun c => (c < 0)%Q) (components (scale obj)) ->
  exists e w rest,
    TransformChecker_check self obj = inr (e :: w :: rest)
    /\ severity e = ERROR
    /\ dict_get (details e) "negative_axes" <> None
    /\ severity w = WARNING
    /\ dict_get (details w) "expected" = Some (VTuple [VFloat 1; VFloat 1; VFloat 1]).
Proof.
  intros Hcn Hcs Hneg.
  assert (Hfar : is_vector_nearly_equal (scale obj) [1; 1; 1]%Q FLOAT_TOLERANCE = false).
  { apply is_vector_nearly_equal_Exists.
    eapply Exists_impl; [exact Hneg|]. intros c Hc. apply negative_not_near_one, Hc. }
  apply negative_axis_count_pos in Hneg.
  unfold TransformChecker_check. rewrite Hcn. rewrite _check_negative_scale_eq.
  unfold negative_axis_count, count_if, components in Hneg. simpl in Hneg.
  destruct (Qltb (vx (scale obj)) 0), (Qltb (vy (scale obj)) 0),
    (Qltb (vz (scale obj)) 0); simpl in Hneg; try lia;
    cbv zeta; simpl non_empty; cbv iota;
    (match goal with
     | |- context [ret (Some ?r0)] =>
         destruct (transform_rest_mild self obj [r0])
           as [rest [Hrest [_ [_ [Hw _]]]]];
         destruct (Hw Hcs Hfar) as [w [rest' [-> [Hsev Hexp]]]];
         exists r0, w, rest'; split;
         [ exact Hrest
         | split; [reflexivity|]; split; [discriminate|]; split; assumption ]
     end).
Qed.

(** X15: the transform check never raises and returns at most three
    findings; one of them is an ERROR exactly when the negative-scale
    sub-check is enabled and some scale component is negative. *)
Theorem transform_check_total (self : TransformConfig) (obj : Object) :
  exists rs,
    TransformChecker_check self obj = inr rs
    /\ (length rs <= 3)%nat
    /\ (Exists (fun r => severity r = ERROR) rs
        <-> check_negative_scale self = true
            /\ Exists (fun c => (c < 0)%Q) (components (scale obj))).
Proof.
  assert (Hmild : forall rest, Forall (fun r => severity r <> ERROR) rest ->
                               ~ Exists (fun r => severity r = ERROR) rest).
  { intros rest Hall Hex. apply Exists_exists in Hex as [r [Hin Hr]].
    rewrite Forall_forall in Hall. exact (Hall r Hin Hr). }
  assert (Hneg : Exists (fun c => (c < 0)%Q) (components (scale obj))
                 <-> (Qltb (vx (scale obj)) 0 = true
                      \/ Qltb (vy (scale obj)) 0 = true
                      \/ Qltb (vz (scale obj)) 0 = true)).
  { unfold components. rewrite !Exists_cons. cbv beta. rewrite <- !Qltb_lt.
    split; [intros [Hx | [Hy | [Hz | Hn]]]; auto; inversion Hn | tauto]. }
  unfold TransformChecker_check.
  destruct (check_negative_scale self) eqn:Hcn.
  2:{ destruct (transform_rest_mild self obj []) as [rest [Hrest [Hlen [Hall _]]]].
      exists rest. split; [exact Hrest|]. split; [lia|]. split.
      - intros Hex. exfalso. exact (Hmild rest Hall Hex).
      - intros [Hf _]. discriminate Hf. }
  rewrite _check_negative_scale_eq.
  destruct (Qltb (vx (scale obj)) 0) eqn:Ex, (Qltb (vy (scale obj)) 0) eqn:Ey,
    (Qltb (vz (scale obj)) 0) eqn:Ez;
    cbv zeta; simpl non_empty; cbv iota.
  8:{ destruct (transform_rest_mild self obj []) as [rest [Hrest [Hlen [Hall _]]]].
      exists rest. split; [exact Hrest|]. split; [lia|]. split.
      - intros Hex. exfalso. exact (Hmild rest Hall Hex).
      - intros [_ Hf]. apply Hneg in Hf as [Hf | [Hf | Hf]]; discriminate Hf. }
  all: match goal with
       | |- context [ret (Some ?r0)] =>
           destruct (transform_rest_mild self obj [r0])
             as [rest [Hrest [Hlen [Hall _]]]];
           exists (r0 :: rest); split; [exact Hrest|]; split; [simpl; lia|]; split;
           [ intros _; split; [reflexivity|]; apply Hneg; tauto
           | intros _; apply Exists_cons; left; reflexivity ]
       end.
Qed.

End TransformWhole.

Lemma applied_transform_is_clean_witness :
  TransformChecker_check TransformConfig_default within_tolerance = inr [].
Proof.
  apply (applied_transform_is_clean TransformConfig_default within_tolerance).
  - repeat (constructor; [vm_compute; reflexivity|]). constructor.
  - repeat (constructor; [vm_compute; reflexivity|]). constructor.
  - repeat (constructor; [vm_compute; reflexivity|]). constructor.
  - repeat (constructor; [vm_compute; reflexivity|]). constructor.
Defined.

Lemma negative_scale_is_also_unapplied_witness :
  exists e w rest,
    TransformChecker_check TransformConfig_default mirrored_xy = inr (e :: w :: rest)
    /\ severity e = ERROR
    /\ dict_get (details e) "negative_axes" <> None
    /\ severity w = WARNING
    /\ dict_get (details w) "expected" = Some (VTuple [VFloat 1; VFloat 1; VFloat 1]).
Proof.
  apply (negative_scale_is_also_unapplied TransformConfig_default mirrored_xy).
  - reflexivity.
  - reflexivity.
  - left. reflexivity.
Defined.

(** ** checkers/geometry.py: the parallel lists and the whole check *)

Lemma ngon_loop_aligned (K : Z) (all items : list (Z * MeshPolygon))
    (idx cnt : list Z) :
  (forall it, In it items -> In it all) ->
  Forall2 (fun i c => exists poly, In (i, poly) all /\ loop_total poly = c /\ 4 < c)
          idx cnt ->
  Forall2 (fun i c => exists poly, In (i, poly) all /\ loop_total poly = c /\ 4 < c)
          (fst (ngon_loop K items idx cnt)) (snd (ngon_loop K items idx cnt)).
Proof.
  revert idx cnt.
  induction items as [|[j q] items IH]; intros idx cnt Hsub Hacc; simpl; [exact Hacc|].
  assert (Hsub' : forall it, In it items -> In it all).
  { intros it Hit. apply Hsub. right. exact Hit. }
  destruct (4 <? loop_total q) eqn:Eq; [|apply IH; assumption].
  assert (Hacc' : Forall2
                    (fun i c => exists poly, In (i, poly) all
                                             /\ loop_total poly = c /\ 4 < c)
                    (idx ++ [j]) (cnt ++ [loop_total q])).
  { apply Forall2_app; [exact Hacc|]. repeat constructor.
    exists q. split; [apply Hsub; left; reflexivity|].
    split; [reflexivity | apply Z.ltb_lt; exact Eq]. }
  destruct (K <=? len (idx ++ [j])); [exact Hacc' | apply IH; assumption].
Qed.

Lemma small_face_loop_aligned (threshold : Q) (K : Z)
    (all items : list (Z * MeshPolygon)) (idx : list Z) (areas : list Q) :
  (forall it, In it items -> In it all) ->
  Forall2 (fun i a => exists poly, In (i, poly) all /\ area poly = a
                                   /\ (a < threshold)%Q)
          idx areas ->
  Forall2 (fun i a => exists poly, In (i, poly) all /\ area poly = a
                                   /\ (a < threshold)%Q)
          (fst (small_face_loop threshold K items idx areas))
          (snd (small_face_loop threshold K items idx areas)).
Proof.
  revert idx areas.
  induction items as [|[j q] items IH]; intros idx areas Hsub Hacc; simpl;
    [exact Hacc|].
  assert (Hsub' : forall it, In it items -> In it all).
  { intros it Hit. apply Hsub. right. exact Hit. }
  destruct (Qltb (area q) threshold) eqn:Eq; [|apply IH; assumption].
  assert (Hacc' : Forall2
                    (fun i a => exists poly, In (i, poly) all /\ area poly = a
                                             /\ (a < threshold)%Q)
                    (idx ++ [j]) (areas ++ [area q])).
  { apply Forall2_app; [exact Hacc|]. repeat constructor.
    exists q. split; [apply Hsub; left; reflexivity|].
    split; [reflexivity | apply Qltb_lt; exact Eq]. }
  destruct (K <=? len (idx ++ [j])); [exact Hacc' | apply IH; assumption].
Qed.

(** X16: in an n-gon finding the lists [face_indices] and [vertex_counts]
    run in parallel: the k-th count is the vertex count, greater than 4, of
    the polygon whose index is the k-th index.  In a small-face finding
    [face_indices] and [face_areas] run in parallel in the same way, each
    area being below the threshold.  This holds for every cap. *)
Theorem geometry_lists_aligned (self : GeometryConfig) (obj : Object) (mesh : Mesh) :
  (forall r, _check_ngons self obj mesh = inr (Some r) ->
     exists idx cnts,
       dict_get (details r) "face_indices" = Some (VList (map VInt idx))
       /\ dict_get (details r) "vertex_counts" = Some (VList (map VInt cnts))
       /\ Forall2 (fun i c => exists poly,
                               0 <= i /\ polygons mesh !! Z.to_nat i = Some poly
                               /\ loop_total poly = c /\ 4 < c)
                  idx cnts)
  /\ (forall r, _check_small_faces self obj mesh = inr (Some r) ->
       exists idx areas,
         dict_get (details r) "face_indices" = Some (VList (map VInt idx))
         /\ dict_get (details r) "face_areas" = Some (VList (map VFloat areas))
         /\ Forall2 (fun i a => exists poly,
                                 0 <= i /\ polygons mesh !! Z.to_nat i = Some poly
                                 /\ area poly = a
                                 /\ (a < small_face_threshold self)%Q)
                    idx areas).
Proof.
  split; intros r Hr.
  - unfold _check_ngons in Hr.
    pose proof (ngon_loop_aligned (geometry_max_reported_faces self)
                  (enumerate (polygons mesh)) (enumerate (polygons mesh)) [] []
                  (fun it Hit => Hit) ltac:(constructor)) as Hal.
    destruct (ngon_loop _ _ [] []) as [idx cnts]. simpl in Hal.
    destruct (non_empty idx); simpl in Hr; [|discriminate Hr].
    rewrite create_result_ok in Hr
      by (reflexivity
          || (destruct (_ <=? _); apply count_message_nonempty)).
    injection Hr as <-. exists idx, cnts.
    split; [reflexivity|]. split; [reflexivity|].
    eapply Forall2_impl; [exact Hal|].
    intros i c [poly [Hin Hp]]. exists poly.
    apply enumerate_from_In in Hin as [Hle Hl]. rewrite Z.sub_0_r in Hl.
    split; [exact Hle|]. split; [exact Hl | exact Hp].
  - unfold _check_small_faces in Hr.
    pose proof (small_face_loop_aligned (small_face_threshold self)
                  (geometry_max_reported_faces self)
                  (enumerate (polygons mesh)) (enumerate (polygons mesh)) [] []
                  (fun it Hit => Hit) ltac:(constructor)) as Hal.
    destruct (small_face_loop _ _ _ [] []) as [idx areas]. simpl in Hal.
    destruct (non_empty idx); simpl in Hr; [|discriminate Hr].
    rewrite create_result_ok in Hr by (reflexivity || apply count_message_nonempty).
    injection Hr as <-. exists idx, areas.
    split; [reflexivity|]. split; [reflexivity|].
    eapply Forall2_impl; [exact Hal|].
    intros i a [poly [Hin Hp]]. exists poly.
    apply enumerate_from_In in Hin as [Hle Hl]. rewrite Z.sub_0_r in Hl.
    split; [exact Hle|]. split; [exact Hl | exact Hp].
Qed.

Lemma geometry_lists_aligned_witness :
  exists r,
    _check_ngons cap_two pentagon_object pentagon_mesh = inr (Some r)
    /\ exists idx cnts,
         dict_get (details r) "face_indices" = Some (VList (map VInt idx))
         /\ dict_get (details r) "vertex_counts" = Some (VList (map VInt cnts))
         /\ Forall2 (fun i c => exists poly,
                                 0 <= i /\ polygons pentagon_mesh !! Z.to_nat i = Some poly
                                 /\ loop_total poly = c /\ 4 < c)
                    idx cnts.
Proof.
  eexists. split; [vm_compute; reflexivity|].
  apply (proj1 (geometry_lists_aligned cap_two pentagon_object pentagon_mesh)).
  vm_compute. reflexivity.
Defined.

Lemma filter_none {A : Type} (test : A -> bool) (l : list A) :
  Forall (fun x => test x = false) l -> List.filter test l = [].
Proof.
  induction 1 as [|x l Hx _ IH]; simpl; [reflexivity|]. rewrite Hx. exact IH.
Qed.

Lemma _check_ngons_returns (self : GeometryConfig) (obj : Object) (mesh : Mesh) :
  (_check_ngons self obj mesh = inr None
   \/ exists r, _check_ngons self obj mesh = inr (Some r) /\ severity r = WARNING)
  /\ (Forall (fun p => loop_total p <= 4) (polygons mesh) ->
      _check_ngons self obj mesh = inr None).
Proof.
  unfold _check_ngons.
  pose proof (ngon_loop_collect (geometry_max_reported_faces self)
                (enumerate (polygons mesh)) [] []) as Hloop.
  destruct (ngon_loop _ _ [] []) as [idx cnts]. simpl fst in Hloop.
  assert (Hne : non_empty idx
                = non_empty (List.filter (fun it => 4 <? loop_total (snd it))
                               (enumerate (polygons mesh)))).
  { rewrite Hloop, capped_collect_non_empty. reflexivity. }
  split.
  - destruct (non_empty idx); simpl; [right | left; reflexivity].
    rewrite create_result_ok
      by (reflexivity || (destruct (_ <=? _); apply count_message_nonempty)).
    eexists. split; reflexivity.
  - intros Hall. rewrite Hne, filter_none; [reflexivity|].
    apply (enumerate_from_snd (fun p => (4 <? loop_total p) = false)).
    eapply Forall_impl; [exact Hall|]. intros p Hp. apply Z.ltb_ge. exact Hp.
Qed.

Lemma _check_small_faces_returns (self : GeometryConfig) (obj : Object) (mesh : Mesh) :
  (_check_small_faces self obj mesh = inr None
   \/ exists r, _check_small_faces self obj mesh = inr (Some r) /\ severity r = INFO)
  /\ (Forall (fun p => (small_face_threshold self <= area p)%Q) (polygons mesh) ->
      _check_small_faces self obj mesh = inr None).
Proof.
  unfold _check_small_faces.
  pose proof (small_face_loop_collect (small_face_threshold self)
                (geometry_max_reported_faces self)
                (enumerate (polygons mesh)) [] []) as Hloop.
  destruct (small_face_loop _ _ _ [] []) as [idx areas]. simpl fst in Hloop.
  assert (Hne : non_empty idx
                = non_empty (List.filter
                               (fun it => Qltb (area (snd it)) (small_face_threshold self))
                               (enumerate (polygons mesh)))).
  { rewrite Hloop, capped_collect_non_empty. reflexivity. }
  split.
  - destruct (non_empty idx); simpl; [right | left; reflexivity].
    rewrite create_result_ok by (reflexivity || apply count_message_nonempty).
    eexists. split; reflexivity.
  - intros Hall. rewrite Hne, filter_none; [reflexivity|].
    apply (enumerate_from_snd
             (fun p => Qltb (area p) (small_face_threshold self) = false)).
    eapply Forall_impl; [exact Hall|]. intros p Hp. apply Qltb_ge. exact Hp.
Qed.

(** X17: the geometry check never raises, for any cap and threshold; it
    returns at most two findings, none of them an ERROR; it returns none
    for an object that is not a mesh, and none for a mesh all of whose
    polygons have at most four vertices and an area not below the
    threshold. *)
Theorem geometry_check_total (self : GeometryConfig) (obj : Object) :
  exists rs,
    GeometryChecker_check self obj = inr rs
    /\ (length rs <= 2)%nat
    /\ Forall (fun r => severity r <> ERROR) rs
    /\ (type obj <> "MESH"%string -> rs = [])
    /\ (Forall (fun p => loop_total p <= 4
                         /\ (small_face_threshold self <= area p)%Q)
               (polygons (data obj)) -> rs = []).
Proof.
  unfold GeometryChecker_check.
  destruct (String.eqb (type obj) "MESH") eqn:Et; simpl negb; cbv iota.
  2:{ exists []. repeat split; auto. }
  apply String.eqb_eq in Et.
  destruct (_check_ngons_returns self obj (data obj)) as [Hn Hn0].
  destruct (_check_small_faces_returns self obj (data obj)) as [Hs Hs0].
  assert (Hclean : Forall (fun p => loop_total p <= 4
                                    /\ (small_face_threshold self <= area p)%Q)
                          (polygons (data obj)) ->
                   _check_ngons self obj (data obj) = inr None
                   /\ _check_small_faces self obj (data obj) = inr None).
  { intros Hall. split; [apply Hn0 | apply Hs0];
      (eapply Forall_impl; [exact Hall|]; intros p [Hp1 Hp2]; assumption). }
  destruct Hn as [Hn | [rn [Hn Hsn]]]; destruct Hs as [Hs | [rs' [Hs Hss]]];
    rewrite Hn, Hs;
    destruct (check_ngons self), (check_small_faces self); simpl;
    (eexists; split; [reflexivity|]; split; [simpl; lia|]; split;
     [repeat constructor; congruence|]; split; [congruence|]);
    intros Hall; destruct (Hclean Hall) as [Hn' Hs']; congruence.
Qed.

(** ** checkers/face_orientation.py: the whole check *)

(** X18: the face-orientation check never raises, for any cap; it returns
    at most one finding, never an ERROR; it returns none for an object that
    is not a mesh and for a mesh without polygons or without vertices. *)
Theorem face_orientation_check_total `{Host} (K : Z) (obj : Object) :
  exists rs,
    FaceOrientationChecker_check K obj = inr rs
    /\ (length rs <= 1)%nat
    /\ Forall (fun r => severity r <> ERROR) rs
    /\ (type obj <> "MESH"%string \/ polygons (data obj) = []
        \/ vertices (data obj) = [] -> rs = []).
Proof.
  unfold FaceOrientationChecker_check.
  destruct (String.eqb (type obj) "MESH") eqn:Et; simpl negb; cbv iota.
  2:{ exists []. repeat split; auto. }
  apply String.eqb_eq in Et. cbv zeta.
  destruct (non_empty (polygons (data obj))) eqn:Ep; simpl negb; cbv iota.
  2:{ exists []. repeat split; auto. }
  apply non_empty_true in Ep.
  destruct (vertices (data obj)) as [|v vs] eqn:Ev.
  { unfold _check_inverted_faces.
    change (bm_verts (from_mesh (data obj))) with (vertices (data obj)).
    rewrite Ev. simpl. exists []. repeat split; auto. }
  assert (Hv : vertices (data obj) <> []) by (rewrite Ev; discriminate).
  rewrite (_check_inverted_faces_eq K obj (data obj) Hv).
  destruct (non_empty (flagged_faces (data obj))); simpl.
  2:{ exists []. repeat split; auto. }
  eexists. split; [reflexivity|]. split; [simpl; lia|]. split.
  - repeat constructor. unfold inverted_faces_finding. cbv zeta.
    destruct (Qltb _ _ && _)%bool; discriminate.
  - intros [Ht | [Hp | Hv']]; congruence.
Qed.

(** ** The ratio a face-orientation finding reports *)

(** X19: the [inverted_ratio] a face-orientation finding reports is the
    double nearest to a multiple [k / 1000] with [0 <= k <= 1000].  That
    multiple is within [0.0005 + 2^-53] of the exact ratio of flagged to all
    polygons, the reported double within [0.0005 + 2^-52], and the exact
    ratio lies in (0, 1]. *)
Theorem reported_ratio_is_close `{Host} (K : Z) (obj : Object) (mesh : Mesh) :
  vertices mesh <> [] ->
  flagged_faces mesh <> [] ->
  let ratio := (inject_Z (len (flagged_faces mesh)) / inject_Z (len (polygons mesh)))%Q in
  exists r q k,
    _check_inverted_faces K obj mesh = inr (Some r)
    /\ dict_get (details r) "inverted_ratio" = Some (VFloat q)
    /\ 0 <= k <= 1000
    /\ q = float_round (inject_Z k / 1000)
    /\ (Qabs (inject_Z k / 1000 - ratio) <= (1 # 2000) + (1 # 9007199254740992))%Q
    /\ (Qabs (q - ratio) <= (1 # 2000) + (1 # 4503599627370496))%Q
    /\ (0 < ratio)%Q /\ (ratio <= 1)%Q.
Proof.
  intros Hv Hf ratio.
  rewrite (_check_inverted_faces_eq K obj mesh Hv).
  assert (Hn : 0 < len (flagged_faces mesh)).
  { destruct (flagged_faces mesh); [congruence|]. unfold len. simpl length. lia. }
  pose proof (flagged_faces_within mesh) as Hle.
  assert (Htotal : 0 < len (polygons mesh)) by lia.
  destruct (ratio_unit _ _ (conj (Z.lt_le_incl _ _ Hn) Hle) Htotal) as [Hr0 Hr1].
  fold ratio in Hr0, Hr1.
  destruct (reported_ratio ratio Hr0 Hr1) as [k [Hk [Hq [Hkclose Hclose]]]].
  apply non_empty_true in Hf. rewrite Hf.
  eexists. exists (round_float (float_round ratio) 3), k.
  split; [reflexivity|]. split.
  { unfold inverted_faces_finding. cbv zeta.
    destruct (Qltb _ _ && _)%bool; reflexivity. }
  split; [exact Hk|]. split; [exact Hq|]. split; [exact Hkclose|].
  split; [exact Hclose|]. split; [|exact Hr1].
  assert (Htot : (0 < inject_Z (len (polygons mesh)))%Q).
  { change 0%Q with (inject_Z 0). rewrite <- Zlt_Qlt. exact Htotal. }
  unfold ratio. apply Qlt_shift_div_l; [exact Htot|]. rewrite Qmult_0_l.
  change 0%Q with (inject_Z 0). rewrite <- Zlt_Qlt. exact Hn.
Qed.

Lemma reported_ratio_is_close_witness :
  exists r q k,
    _check_inverted_faces 20 (reversed_object 1 3) (reversed_mesh 1 3) = inr (Some r)
    /\ dict_get (details r) "inverted_ratio" = Some (VFloat q)
    /\ 0 <= k <= 1000
    /\ q = float_round (inject_Z k / 1000)
    /\ (Qabs (inject_Z k / 1000
              - inject_Z (len (flagged_faces (reversed_mesh 1 3)))
                / inject_Z (len (polygons (reversed_mesh 1 3))))
        <= (1 # 2000) + (1 # 9007199254740992))%Q
    /\ (Qabs (q - inject_Z (len (flagged_faces (reversed_mesh 1 3)))
                  / inject_Z (len (polygons (reversed_mesh 1 3))))
        <= (1 # 2000) + (1 # 4503599627370496))%Q
    /\ (0 < inject_Z (len (flagged_faces (reversed_mesh 1 3)))
            / inject_Z (len (polygons (reversed_mesh 1 3))))%Q
    /\ (inject_Z (len (flagged_faces (reversed_mesh 1 3)))
        / inject_Z (len (polygons (reversed_mesh 1 3))) <= 1)%Q.
Proof.
  apply (reported_ratio_is_close 20 (reversed_object 1 3) (reversed_mesh 1 3)).
  - discriminate.
  - vm_compute. discriminate.
Defined.

(** ** checkers/uv.py *)

(** X20: a mesh object that has UV layers but no active one is reported
    twice: the UV check starts with the WARNING "No active UV map",
    directly followed by the WARNING "UV map has incomplete data" with
    reason [no_active_uv]; without the UV2 check these are all. *)
Theorem uv_no_active_is_reported_twice (check_uv2 : bool) (obj : UVObject) :
  type (uv_obj obj) = "MESH"%string ->
  uv_layers obj <> [] ->
  uv_layers_active obj = None ->
  exists w1 w2 rest,
    UVChecker_check check_uv2 obj = inr (w1 :: w2 :: rest)
    /\ severity w1 = WARNING /\ message w1 = "No active UV map"%string
    /\ severity w2 = WARNING /\ message w2 = "UV map has incomplete data"%string
    /\ details w2 = [("is_valid", VBool false); ("reason", VStr "no_active_uv")]%string
    /\ (check_uv2 = false -> rest = []).
Proof.
  intros Ht Hl Ha. unfold UVChecker_check, _check_uv_validity, _check_uv2.
  rewrite Ht, Ha. apply non_empty_true in Hl. rewrite Hl. simpl.
  destruct check_uv2; simpl.
  - destruct (len (uv_layers obj) <? 2); simpl;
      (do 3 eexists; split; [reflexivity|]; repeat split; discriminate).
  - do 3 eexists. split; [reflexivity|]. repeat split.
Qed.

Lemma uv_no_active_is_reported_twice_witness :
  exists w1 w2 rest,
    UVChecker_check false plate_without_active_uv = inr (w1 :: w2 :: rest)
    /\ severity w1 = WARNING /\ message w1 = "No active UV map"%string
    /\ severity w2 = WARNING /\ message w2 = "UV map has incomplete data"%string
    /\ details w2 = [("is_valid", VBool false); ("reason", VStr "no_active_uv")]%string
    /\ (false = false -> rest = []).
Proof.
  apply (uv_no_active_is_reported_twice false plate_without_active_uv).
  - reflexivity.
  - discriminate.
  - reflexivity.
Defined.

(** X21: for a mesh object with an active UV layer and the UV2 check off,
    the UV check returns nothing exactly when the layer's data is non-empty
    and has as many entries as the mesh has loops.  Empty data is reported
    as incomplete with reason [no_uv_data] even when the mesh has no loops
    either; otherwise a differing count is reported with reason
    [loop_count_mismatch] and both counts. *)
Theorem uv_validity_cases (obj : UVObject) (layer : UVLayer) :
  type (uv_obj obj) = "MESH"%string ->
  uv_layers obj <> [] ->
  uv_layers_active obj = Some layer ->
  (uv_data layer <> [] /\ len (loops obj) = len (uv_data layer)
   <-> UVChecker_check false obj = inr [])
  /\ (uv_data layer = [] ->
      exists w, UVChecker_check false obj = inr [w]
                /\ severity w = WARNING
                /\ details w = [("is_valid", VBool false);
                                ("reason", VStr "no_uv_data")]%string)
  /\ (uv_data layer <> [] -> len (loops obj) <> len (uv_data layer) ->
      exists w, UVChecker_check false obj = inr [w]
                /\ severity w = WARNING
                /\ details w = [("is_valid", VBool false);
                                ("reason", VStr "loop_count_mismatch");
                                ("expected", VInt (len (loops obj)));
                                ("actual", VInt (len (uv_data layer)))]%string).
Proof.
  intros Ht Hl Ha. unfold UVChecker_check, _check_uv_validity.
  rewrite Ht, Ha. apply non_empty_true in Hl. rewrite Hl. simpl.
  destruct (uv_data layer) as [|d ds] eqn:Ed; simpl.
  - split; [|split].
    + split; [intros [Hn _]; congruence | discriminate].
    + intros _. eexists. split; [reflexivity|]. split; reflexivity.
    + congruence.
  - destruct (len (loops obj) =? len (d :: ds)) eqn:El; simpl.
    + apply Z.eqb_eq in El. split; [|split].
      * split; [reflexivity | intros _; split; [discriminate | exact El]].
      * discriminate.
      * intros _ Hne. contradiction.
    + apply Z.eqb_neq in El. split; [|split].
      * split; [intros [_ He]; contradiction | discriminate].
      * discriminate.
      * intros _ _. eexists. split; [reflexivity|]. split; reflexivity.
Qed.

Lemma uv_validity_cases_witness :
  (uv_data unwrapped_layer <> [] /\ len (loops plate_with_stale_uv) = len (uv_data unwrapped_layer)
   <-> UVChecker_check false plate_with_stale_uv = inr [])
  /\ (uv_data unwrapped_layer = [] ->
      exists w, UVChecker_check false plate_with_stale_uv = inr [w]
                /\ severity w = WARNING
                /\ details w = [("is_valid", VBool false);
                                ("reason", VStr "no_uv_data")]%string)
  /\ (uv_data unwrapped_layer <> [] ->
      len (loops plate_with_stale_uv) <> len (uv_data unwrapped_layer) ->
      exists w, UVChecker_check false plate_with_stale_uv = inr [w]
                /\ severity w = WARNING
                /\ details w = [("is_valid", VBool false);
                                ("reason", VStr "loop_count_mismatch");
                                ("expected", VInt (len (loops plate_with_stale_uv)));
                                ("actual", VInt (len (uv_data unwrapped_layer)))]%string).
Proof.
  apply (uv_validity_cases plate_with_stale_uv unwrapped_layer).
  - reflexivity.
  - discriminate.
  - reflexivity.
Defined.

(** X22: the UV check never raises and returns at most three findings; one
    of them is an ERROR exactly when the object is a mesh without UV
    layers; an object that is not a mesh gets none. *)
Theorem uv_check_total (check_uv2 : bool) (obj : UVObject) :
  exists rs,
    UVChecker_check check_uv2 obj = inr rs
    /\ (length rs <= 3)%nat
    /\ (Exists (fun r => severity r = ERROR) rs
        <-> type (uv_obj obj) = "MESH"%string /\ uv_layers obj = [])
    /\ (type (uv_obj obj) <> "MESH"%string -> rs = []).
Proof.
  unfold UVChecker_check, _check_uv_validity, _check_uv2.
  destruct (String.eqb (type (uv_obj obj)) "MESH") eqn:Et; simpl negb; cbv iota.
  2:{ apply String.eqb_neq in Et. exists []. split; [reflexivity|].
      split; [simpl; lia|]. split; [|reflexivity].
      split; [intros Hx; inversion Hx | intros [Hm _]; contradiction]. }
  apply String.eqb_eq in Et.
  destruct (uv_layers obj) as [|l0 ls] eqn:El.
  { simpl. eexists. split; [reflexivity|]. split; [simpl; lia|]. split; [|congruence].
    split; [intros _; split; [exact Et | reflexivity]|].
    intros _. apply Exists_cons. left. reflexivity. }
  simpl non_empty. simpl negb. cbv iota. cbv zeta.
  assert (Hno : forall rs, Forall (fun r => severity r <> ERROR) rs ->
                (Exists (fun r => severity r = ERROR) rs
                 <-> type (uv_obj obj) = "MESH"%string /\ l0 :: ls = [])).
  { intros rs Hall. split.
    - intros Hex. exfalso. apply Exists_exists in Hex as [r [Hin Hr]].
      rewrite Forall_forall in Hall. exact (Hall r Hin Hr).
    - intros [_ Hnil]. discriminate Hnil. }
  destruct (uv_layers_active obj) as [layer|]; simpl.
  - destruct (non_empty (uv_data layer)); simpl;
      [destruct (len (loops obj) =? len (uv_data layer)); simpl|];
      destruct check_uv2; simpl;
      try (destruct (len (l0 :: ls) <? 2); simpl);
      (eexists; split; [reflexivity|]; split; [simpl; lia|]; split;
       [apply Hno; repeat constructor; discriminate | congruence]).
  - destruct check_uv2; simpl;
      try (destruct (len (l0 :: ls) <? 2); simpl);
      (eexists; split; [reflexivity|]; split; [simpl; lia|]; split;
       [apply Hno; repeat constructor; discriminate | congruence]).
Qed.

(** ** checkers/normals.py and utils/compat.py *)

Lemma count_if_bounds {A : Type} (test : A -> bool) (l : list A) :
  0 <= count_if test l <= len l.
Proof.
  rewrite count_if_filter. unfold len.
  pose proof (List.filter_length_le test l). lia.
Qed.

Lemma count_if_complement {A : Type} (test : A -> bool) (l : list A) :
  len l - count_if test l = count_if (fun x => negb (test x)) l.
Proof.
  rewrite !count_if_filter. unfold len.
  induction l as [|x l IH]; simpl; [reflexivity|].
  destruct (test x); simpl; lia.
Qed.

(** X23: the mixed-shading check reports exactly when some polygon is
    smooth and some polygon is flat; the finding is an INFO whose
    [smooth_faces] and [flat_faces] add up to [total_faces], the number of
    polygons, and whose [smooth_ratio] is the double
    [round(smooth_faces / total_faces, 3)], within [0.0005 + 2^-52] of the
    exact ratio. *)
Theorem mixed_shading_cases (obj : NormalsObject) :
  let polys := shaded_polygons obj in
  ((exists r, _check_mixed_shading obj = inr (Some r))
   <-> Exists (fun p => use_smooth p = true) polys
       /\ Exists (fun p => use_smooth p = false) polys)
  /\ (_check_mixed_shading obj = inr None
      \/ exists r s f q,
           _check_mixed_shading obj = inr (Some r)
           /\ severity r = INFO
           /\ dict_get (details r) "smooth_faces" = Some (VInt s)
           /\ dict_get (details r) "flat_faces" = Some (VInt f)
           /\ dict_get (details r) "total_faces" = Some (VInt (len polys))
           /\ dict_get (details r) "smooth_ratio" = Some (VFloat q)
           /\ 0 < s /\ 0 < f /\ s + f = len polys
           /\ q = round_float (int_truediv s (len polys)) 3
           /\ (Qabs (q - inject_Z s / inject_Z (len polys))
               <= (1 # 2000) + (1 # 4503599627370496))%Q).
Proof.
  intros polys. unfold _check_mixed_shading. fold polys.
  pose proof (count_if_pos use_smooth polys) as Hs.
  pose proof (count_if_pos (fun p => negb (use_smooth p)) polys) as Hf.
  rewrite <- count_if_complement in Hf.
  assert (Hneg : Exists (fun p => negb (use_smooth p) = true) polys
                 <-> Exists (fun p => use_smooth p = false) polys).
  { split; intros Hx; (eapply Exists_impl; [exact Hx|]); intros p Hp;
      apply negb_true_iff; exact Hp. }
  rewrite Hneg in Hf.
  destruct (non_empty polys) eqn:En; simpl negb; cbv iota.
  2:{ assert (Hnil : polys = []) by (destruct polys; [reflexivity | discriminate]).
      split; [|left; reflexivity]. split.
      - intros [r Hr]. discriminate Hr.
      - intros [Hx _]. rewrite Hnil in Hx. inversion Hx. }
  cbv zeta.
  destruct (0 <? count_if use_smooth polys) eqn:E1; simpl andb; cbv iota.
  2:{ apply Z.ltb_ge in E1. split; [|left; reflexivity]. split.
      - intros [r Hr]. discriminate Hr.
      - intros [Hx _]. apply Hs in Hx. lia. }
  apply Z.ltb_lt in E1.
  destruct (0 <? len polys - count_if use_smooth polys) eqn:E2; cbv iota.
  2:{ apply Z.ltb_ge in E2. split; [|left; reflexivity]. split.
      - intros [r Hr]. discriminate Hr.
      - intros [_ Hx]. apply Hf in Hx. lia. }
  apply Z.ltb_lt in E2.
  rewrite create_result_ok by reflexivity. simpl bind.
  split.
  - split; [intros _; split; [apply Hs | apply Hf]; assumption|].
    intros _. eexists. reflexivity.
  - right. do 4 eexists. split; [reflexivity|].
    split; [reflexivity|]. split; [reflexivity|]. split; [reflexivity|].
    split; [reflexivity|]. split; [reflexivity|].
    split; [exact E1|]. split; [exact E2|]. split; [lia|]. split; [reflexivity|].
    assert (Htotal : 0 < len polys) by lia.
    destruct (ratio_unit (count_if use_smooth polys) (len polys) ltac:(lia) Htotal)
      as [Hr0 Hr1].
    destruct (reported_ratio _ Hr0 Hr1) as [_ [_ [_ [_ Hclose]]]].
    exact Hclose.
Qed.

Lemma existsb_all_flat (polys : list ShadedPolygon) :
  Forall (fun p => use_smooth p = false) polys -> existsb use_smooth polys = false.
Proof.
  induction 1 as [|p polys Hp _ IH]; simpl; [reflexivity|]. rewrite Hp. exact IH.
Qed.

Lemma _check_smoothing_returns (version : Version) (obj : NormalsObject) :
  (_check_smoothing version obj = inr None
   \/ exists r, _check_smoothing version obj = inr (Some r) /\ severity r = INFO)
  /\ (existsb use_smooth (shaded_polygons obj) = false ->
      _check_smoothing version obj = inr None).
Proof.
  unfold _check_smoothing, _check_smoothing_4_1, _check_smoothing_legacy.
  destruct (is_blender_4_1_or_later version).
  - destruct (negb (has_custom_normals obj)
              && negb (_has_smooth_by_angle_modifier (modifiers obj)))%bool;
      [|split; [left|]; reflexivity].
    destruct (existsb use_smooth (shaded_polygons obj)); simpl;
      [|split; [left|]; reflexivity].
    split; [right; eexists; split; reflexivity | discriminate].
  - destruct (use_auto_smooth obj) as [[|]|]; simpl;
      try (split; [left|]; reflexivity).
    destruct (existsb use_smooth (shaded_polygons obj)); simpl;
      [|split; [left|]; reflexivity].
    split; [right; eexists; split; reflexivity | discriminate].
Qed.

Lemma count_if_none {A : Type} (test : A -> bool) (l : list A) :
  Forall (fun x => test x = false) l -> count_if test l = 0.
Proof.
  intros Hall. rewrite count_if_filter, filter_none by exact Hall. reflexivity.
Qed.

Lemma _check_mixed_shading_returns (obj : NormalsObject) :
  (_check_mixed_shading obj = inr None
   \/ exists r, _check_mixed_shading obj = inr (Some r) /\ severity r = INFO)
  /\ (Forall (fun p => use_smooth p = false) (shaded_polygons obj) ->
      _check_mixed_shading obj = inr None).
Proof.
  unfold _check_mixed_shading.
  destruct (non_empty (shaded_polygons obj)); simpl negb; cbv iota;
    [|split; [left|]; reflexivity].
  cbv zeta. split.
  - destruct ((0 <? count_if use_smooth (shaded_polygons obj))
              && (0 <? len (shaded_polygons obj)
                       - count_if use_smooth (shaded_polygons obj)))%bool;
      [|left; reflexivity].
    rewrite create_result_ok by reflexivity. right. eexists. split; reflexivity.
  - intros Hall. rewrite (count_if_none use_smooth _ Hall). reflexivity.
Qed.

(** X24: the normals check never raises, on any Blender version; it
    returns at most two findings, all of them INFO; it returns none for an
    object that is not a mesh, for a mesh without polygons, and for a mesh
    all of whose polygons are flat. *)
Theorem normals_check_total (self : NormalsConfig) (version : Version)
    (obj : NormalsObject) :
  exists rs,
    NormalsChecker_check self version obj = inr rs
    /\ (length rs <= 2)%nat
    /\ Forall (fun r => severity r = INFO) rs
    /\ (type (normals_obj obj) <> "MESH"%string -> rs = [])
    /\ (Forall (fun p => use_smooth p = false) (shaded_polygons obj) -> rs = []).
Proof.
  unfold NormalsChecker_check.
  destruct (String.eqb (type (normals_obj obj)) "MESH") eqn:Et; simpl negb; cbv iota.
  2:{ exists []. repeat split; auto. }
  apply String.eqb_eq in Et.
  destruct (non_empty (shaded_polygons obj)) eqn:En; simpl negb; cbv iota.
  2:{ exists []. repeat split; auto. }
  destruct (_check_smoothing_returns version obj) as [Hs Hs0].
  destruct (_check_mixed_shading_returns obj) as [Hm Hm0].
  assert (Hflat : Forall (fun p => use_smooth p = false) (shaded_polygons obj) ->
                  _check_smoothing version obj = inr None
                  /\ _check_mixed_shading obj = inr None).
  { intros Hall. split; [apply Hs0, existsb_all_flat, Hall | apply Hm0, Hall]. }
  destruct Hs as [Hs | [rs' [Hs Hsev]]];
    destruct Hm as [Hm | [rm [Hm Hmsev]]];
    rewrite Hs, Hm;
    destruct (check_auto_smooth self), (check_mixed_shading self); simpl;
    (eexists; split; [reflexivity|]; split; [simpl; lia|]; split;
     [repeat constructor; assumption|]; split; [congruence|]);
    intros Hall; destruct (Hflat Hall) as [Hs' Hm']; congruence.
Qed.

(** X25: [bpy.app.version >= (4, 1, 0)] compares the tuples
    lexicographically, so with a non-negative patch number only major and
    minor decide; from 4.1 on [has_auto_smooth] is [has_custom_normals] and
    the smoothing check is the 4.1 variant, which a node modifier whose
    group name contains "smooth" silences; before, both read
    [use_auto_smooth]. *)
Theorem version_dispatch (major minor patch : Z) (obj : NormalsObject) :
  0 <= patch ->
  let version := (major, minor, patch) in
  (is_blender_4_1_or_later version = true <-> 4 < major \/ (major = 4 /\ 1 <= minor))
  /\ (is_blender_4_1_or_later version = true ->
      has_auto_smooth version obj = has_custom_normals obj
      /\ _check_smoothing version obj = _check_smoothing_4_1 obj
      /\ (_has_smooth_by_angle_modifier (modifiers obj) = true ->
          _check_smoothing version obj = inr None))
  /\ (is_blender_4_1_or_later version = false ->
      has_auto_smooth version obj
      = match use_auto_smooth obj with Some b => b | None => false end
      /\ _check_smoothing version obj = _check_smoothing_legacy obj
      /\ (has_auto_smooth version obj = true -> _check_smoothing version obj = inr None)).
Proof.
  intros Hp version. split; [|split].
  - unfold is_blender_4_1_or_later, version_ge, version.
    destruct (major =? 4) eqn:E0; simpl.
    + apply Z.eqb_eq in E0. subst major.
      destruct (minor =? 1) eqn:E1; simpl.
      * apply Z.eqb_eq in E1. subst minor.
        split; [intros _; right; split; lia | intros _; apply Z.leb_le; exact Hp].
      * apply Z.eqb_neq in E1. rewrite Z.ltb_lt. lia.
    + apply Z.eqb_neq in E0. rewrite Z.ltb_lt. lia.
  - intros Hv. unfold has_auto_smooth, _check_smoothing. rewrite Hv.
    split; [reflexivity|]. split; [reflexivity|].
    intros Hm. unfold _check_smoothing_4_1. rewrite Hm, andb_false_r. reflexivity.
  - intros Hv. unfold has_auto_smooth, _check_smoothing. rewrite Hv.
    split; [reflexivity|]. split; [reflexivity|].
    unfold _check_smoothing_legacy.
    destruct (use_auto_smooth obj) as [[|]|]; try reflexivity; discriminate.
Qed.

Lemma version_dispatch_witness :
  (is_blender_4_1_or_later (4, 0, 2) = true <-> 4 < 4 \/ (4 = 4 /\ 1 <= 0))
  /\ (is_blender_4_1_or_later (4, 0, 2) = true ->
      has_auto_smooth (4, 0, 2) half_smooth_cube = has_custom_normals half_smooth_cube
      /\ _check_smoothing (4, 0, 2) half_smooth_cube = _check_smoothing_4_1 half_smooth_cube
      /\ (_has_smooth_by_angle_modifier (modifiers half_smooth_cube) = true ->
          _check_smoothing (4, 0, 2) half_smooth_cube = inr None))
  /\ (is_blender_4_1_or_later (4, 0, 2) = false ->
      has_auto_smooth (4, 0, 2) half_smooth_cube
      = match use_auto_smooth half_smooth_cube with Some b => b | None => false end
      /\ _check_smoothing (4, 0, 2) half_smooth_cube
         = _check_smoothing_legacy half_smooth_cube
      /\ (has_auto_smooth (4, 0, 2) half_smooth_cube = true ->
          _check_smoothing (4, 0, 2) half_smooth_cube = inr None)).
Proof.
  apply (version_dispatch 4 0 2 half_smooth_cube). lia.
Defined.

Example half_smooth_cube_findings :
  exists a b,
    NormalsChecker_check NormalsConfig_default (4, 0, 2) half_smooth_cube = inr [a; b]
    /\ message a = "Auto Smooth is OFF but object uses smooth shading"%string
    /\ message b = "Mixed shading: 1 smooth, 2 flat faces"%string
    /\ dict_get (details b) "smooth_ratio" = Some (VFloat (float_round (333 # 1000))).
Proof.
  do 2 eexists. split; [vm_compute; reflexivity|].
  split; [reflexivity|]. split; [reflexivity|]. vm_compute. reflexivity.
Qed.
